(** * Verification of the vault core of the password manager

    A shallow embedding of
    - [utils/crypto.ts]   (class [CryptoUtils]),
    - [utils/storage.ts]  (class [SecureStorage]),
    - [context/VaultContext.tsx] (reducer and vault operations),
    - the unlock screen, the generator screen and the add-entry screen,
    together with the properties the specification states about them.

    Conventions.  A [Uint8Array] is a [list byte]; a JavaScript string is a
    [string] (a binary string, as produced by [String.fromCharCode] on bytes,
    is literally a [string] of 8-bit characters); numbers that the code
    uses as integers are [Z].  Code that throws returns a [Result];
    code that reads the random source, the clock or the secure store runs in
    the monad [M] over an explicit [World]. *)

From Stdlib Require Import ZArith Lia List String Ascii Reals Lra.
From Stdlib.Strings Require Import Byte.
From stdpp Require Import base option list gmap strings pretty.

Local Open Scope Z_scope.

(** ** Bytes and character codes *)

Abbreviation Uint8Array := (list byte).

(** The numeric value of an element of a [Uint8Array]. *)
Definition byteValue (b : byte) : Z := Z.of_N (Byte.to_N b).

(** Storing a number into a [Uint8Array] keeps it modulo 256. *)
Definition toUint8 (z : Z) : byte :=
  default x00 (Byte.of_N (Z.to_N (z mod 256))).

(** [String.fromCharCode(...bytes)] and [s.split('').map(c => c.charCodeAt(0))]
    on binary strings. *)
Definition String_fromCharCode (bytes : Uint8Array) : string :=
  string_of_list_byte bytes.

Definition charCodes (s : string) : Uint8Array :=
  list_byte_of_string s.

(** [s.charAt(i)]: the one-character string at index [i], the empty string
    when [i] is out of range. *)
Definition charAt (s : string) (i : Z) : string :=
  if i <? 0 then EmptyString
  else match String.get (Z.to_nat i) s with
       | Some c => String c EmptyString
       | None => EmptyString
       end.

(** ** Text as UTF-16 code units, and UTF-8

    A JavaScript string is a sequence of 16-bit code units.  The text that
    is encrypted and decrypted is held as such a sequence; the other
    strings of the program are held as strings of 8-bit characters, whose
    code units [codeUnits] gives. *)

Abbreviation JSString := (list Z).

Definition codeUnits (s : string) : JSString :=
  map (fun c => Z.of_N (N_of_ascii c)) (list_ascii_of_string s).

Module UTF8.

Definition isLeadSurrogate (u : Z) : bool := (55296 <=? u) && (u <=? 56319).
Definition isTrailSurrogate (u : Z) : bool := (56320 <=? u) && (u <=? 57343).

(** U+FFFD, the replacement character. *)
Definition replacement : Z := 65533.

(** The scalar values of a string: a surrogate pair is one code point, a
    surrogate without its partner becomes the replacement character. *)
Fixpoint scalarValues (units : JSString) : list Z :=
  match units with
  | [] => []
  | u :: rest =>
      if isLeadSurrogate u then
        match rest with
        | v :: rest' =>
            if isTrailSurrogate v
            then 65536 + (u - 55296) * 1024 + (v - 56320) :: scalarValues rest'
            else replacement :: scalarValues rest
        | [] => [replacement]
        end
      else if isTrailSurrogate u then replacement :: scalarValues rest
      else u :: scalarValues rest
  end.

(** The UTF-8 bytes of a scalar value. *)
Definition bytesOf (cp : Z) : list Z :=
  if cp <? 128 then [cp]
  else if cp <? 2048 then [192 + cp / 64; 128 + cp mod 64]
  else if cp <? 65536
  then [224 + cp / 4096; 128 + cp / 64 mod 64; 128 + cp mod 64]
  else [240 + cp / 262144; 128 + cp / 4096 mod 64; 128 + cp / 64 mod 64;
        128 + cp mod 64].

(** [new TextEncoder().encode(s)] *)
Definition encode (s : JSString) : Uint8Array :=
  map toUint8 (flat_map bytesOf (scalarValues s)).

Definition within (lo hi b : Z) : bool := (lo <=? b) && (b <=? hi).

(** The code points of a byte sequence, as the UTF-8 decoder of the
    Encoding standard reads them: a byte that cannot start or continue a
    sequence ends the sequence with one replacement character and is read
    again as the start of the next one. *)
Fixpoint codePoints (bytes : list Z) : list Z :=
  match bytes with
  | [] => []
  | b0 :: rest =>
      if b0 <? 128 then b0 :: codePoints rest
      else if within 194 223 b0 then
        match rest with
        | b1 :: rest1 =>
            if within 128 191 b1
            then (b0 - 192) * 64 + (b1 - 128) :: codePoints rest1
            else replacement :: codePoints rest
        | [] => [replacement]
        end
      else if within 224 239 b0 then
        match rest with
        | b1 :: rest1 =>
            if within (if b0 =? 224 then 160 else 128)
                      (if b0 =? 237 then 159 else 191) b1
            then
              match rest1 with
              | b2 :: rest2 =>
                  if within 128 191 b2
                  then (b0 - 224) * 4096 + (b1 - 128) * 64 + (b2 - 128)
                       :: codePoints rest2
                  else replacement :: codePoints rest1
              | [] => [replacement]
              end
            else replacement :: codePoints rest
        | [] => [replacement]
        end
      else if within 240 244 b0 then
        match rest with
        | b1 :: rest1 =>
            if within (if b0 =? 240 then 144 else 128)
                      (if b0 =? 244 then 143 else 191) b1
            then
              match rest1 with
              | b2 :: rest2 =>
                  if within 128 191 b2
                  then
                    match rest2 with
                    | b3 :: rest3 =>
                        if within 128 191 b3
                        then (b0 - 240) * 262144 + (b1 - 128) * 4096
                             + (b2 - 128) * 64 + (b3 - 128)
                             :: codePoints rest3
                        else replacement :: codePoints rest2
                    | [] => [replacement]
                    end
                  else replacement :: codePoints rest1
              | [] => [replacement]
              end
            else replacement :: codePoints rest
        | [] => [replacement]
        end
      else replacement :: codePoints rest
  end.

(** The code units of a code point. *)
Definition unitsOf (cp : Z) : JSString :=
  if cp <? 65536 then [cp]
  else [55296 + (cp - 65536) / 1024; 56320 + (cp - 65536) mod 1024].

(** A byte order mark at the start of the bytes is dropped. *)
Definition stripBOM (bytes : list Z) : list Z :=
  match bytes with
  | b0 :: b1 :: b2 :: rest =>
      if (b0 =? 239) && (b1 =? 187) && (b2 =? 191) then rest else bytes
  | _ => bytes
  end.

(** [new TextDecoder().decode(bytes)] *)
Definition decode (bytes : Uint8Array) : JSString :=
  flat_map unitsOf (codePoints (stripBOM (map byteValue bytes))).

(** The string of 8-bit characters with the given code units, if there is
    one. *)
Definition toLatin1 (units : JSString) : option string :=
  string_of_list_ascii
  <$> mapM (fun u => if within 0 255 u
                     then Some (ascii_of_N (Z.to_N u)) else None)
           units.

End UTF8.

(** ** Base64 *)

Module Base64.

Definition base64chars : string :=
  "ABCDEFGHIJKLMNOPQRSTUVWXYZabcdefghijklmnopqrstuvwxyz0123456789+/".

(** *** The manual encoder of [encryptData] (the [catch (btoaError)] branch)

    One iteration of the loop [for (i = 0; i < combined.length; i += 3)]:
    [a = combined[i]], [b = combined[i + 1] || 0], [c = combined[i + 2] || 0];
    [b] and [c] are [None] when the index is past the end of the array, which
    is also what the tests [i + 1 < combined.length] and
    [i + 2 < combined.length] decide.  All values stay below [2^24], so the
    32-bit shifts of JavaScript do not wrap. *)
Definition fallbackGroup (a : Z) (b c : option Z) : string :=
  let b0 := default 0 b in
  let c0 := default 0 c in
  let bitmap := Z.lor (Z.lor (Z.shiftl a 16) (Z.shiftl b0 8)) c0 in
  charAt base64chars (Z.land (Z.shiftr bitmap 18) 63) +:+
  charAt base64chars (Z.land (Z.shiftr bitmap 12) 63) +:+
  (if b is Some _ then charAt base64chars (Z.land (Z.shiftr bitmap 6) 63)
   else "=") +:+
  (if c is Some _ then charAt base64chars (Z.land bitmap 63) else "=").

(** The whole loop; each equation consumes the (up to) three bytes of one
    iteration. *)
Fixpoint fallbackEncode (combined : Uint8Array) : string :=
  match combined with
  | [] => EmptyString
  | [a] => fallbackGroup (byteValue a) None None
  | [a; b] => fallbackGroup (byteValue a) (Some (byteValue b)) None
  | a :: b :: c :: rest =>
      fallbackGroup (byteValue a) (Some (byteValue b)) (Some (byteValue c))
      +:+ fallbackEncode rest
  end.

(** *** The platform's [btoa] and [atob]

    [btoa] is the base64 encoding of RFC 4648 with padding; [atob] is the
    forgiving base64 decoding of the HTML standard: ASCII whitespace is
    dropped, one or two padding characters are dropped when the length is a
    multiple of four, a length congruent to one modulo four or a character
    outside the alphabet is an error ([InvalidCharacterError]), and the
    left-over bits of the last group are discarded. *)

Definition alphabet : list ascii := list_ascii_of_string base64chars.

Definition sextetChar (n : Z) : ascii :=
  nth (Z.to_nat n) alphabet "="%char.

(** The six-bit groups of a byte sequence. *)
Fixpoint sextets (bytes : list Z) : list Z :=
  match bytes with
  | [] => []
  | [a] => [a / 4; a mod 4 * 16]
  | [a; b] => [a / 4; a mod 4 * 16 + b / 16; b mod 16 * 4]
  | a :: b :: c :: rest =>
      a / 4 :: a mod 4 * 16 + b / 16 :: b mod 16 * 4 + c / 64 :: c mod 64
      :: sextets rest
  end.

Definition padding (n : nat) : list ascii :=
  match (n mod 3)%nat with
  | 1%nat => ["="; "="]%char
  | 2%nat => ["="]%char
  | _ => []
  end.

Definition btoa (binary : string) : string :=
  let bytes := charCodes binary in
  string_of_list_ascii
    (map sextetChar (sextets (map byteValue bytes)) ++ padding (length bytes)).

Definition isAsciiWhitespace (c : ascii) : bool :=
  let n := N_of_ascii c in
  (n =? 9)%N || (n =? 10)%N || (n =? 12)%N || (n =? 13)%N || (n =? 32)%N.

Fixpoint indexIn (c : ascii) (l : list ascii) : option Z :=
  match l with
  | [] => None
  | x :: l' => if Ascii.eqb c x then Some 0 else Z.succ <$> indexIn c l'
  end.

Definition sextetOfChar (c : ascii) : option Z := indexIn c alphabet.

(** A list that is one or two padding characters, and the removal of such
    an end of a list. *)
Definition isPadding (l : list ascii) : bool :=
  match l with
  | [c] => Ascii.eqb c "="
  | [c; d] => Ascii.eqb c "=" && Ascii.eqb d "="
  | _ => false
  end.

Fixpoint stripPadding (l : list ascii) : list ascii :=
  if isPadding l then []
  else match l with
       | [] => []
       | c :: l' => c :: stripPadding l'
       end.

Fixpoint decodeSextets (l : list Z) : list Z :=
  match l with
  | s1 :: s2 :: s3 :: s4 :: rest =>
      s1 * 4 + s2 / 16 :: s2 mod 16 * 16 + s3 / 4 :: s3 mod 4 * 64 + s4
      :: decodeSextets rest
  | [s1; s2; s3] => [s1 * 4 + s2 / 16; s2 mod 16 * 16 + s3 / 4]
  | [s1; s2] => [s1 * 4 + s2 / 16]
  | _ => []
  end.

Definition atob (data : string) : option string :=
  let l := List.filter (fun c => negb (isAsciiWhitespace c))
                       (list_ascii_of_string data) in
  let l := if (length l mod 4 =? 0)%nat then stripPadding l else l in
  if (length l mod 4 =? 1)%nat then None
  else match mapM sextetOfChar l with
       | None => None
       | Some ss => Some (String_fromCharCode (map toUint8 (decodeSextets ss)))
       end.

(** The ranges of six-bit groups and of bytes, and the characters that
    [btoa] produces for a byte sequence. *)
Definition isSextet (n : Z) : Prop := 0 <= n < 64.
Definition isByte (n : Z) : Prop := 0 <= n < 256.

Definition encoded (l : list Z) : list ascii :=
  map sextetChar (sextets l) ++ padding (length l).

End Base64.

(** ** Exceptions, results and the world the code runs in *)

(** A JavaScript exception: its [name] and its [message].  [new Error(m)] has
    the name [Error]; the platform throws [RangeError] (invalid typed-array
    length or offset), [ReferenceError] (missing global), [SyntaxError]
    ([JSON.parse]) and the [DOMException]s [OperationError],
    [InvalidCharacterError] and [QuotaExceededError]. *)
Record Exception : Type := mkException {
  name : string;
  message : string
}.

Definition Error (message : string) : Exception :=
  mkException "Error" message.
Definition RangeError (message : string) : Exception :=
  mkException "RangeError" message.
Definition ReferenceError (message : string) : Exception :=
  mkException "ReferenceError" message.
Definition DOMException (name : string) : Exception :=
  mkException name EmptyString.

Inductive Result (A : Type) : Type :=
| Ok (value : A)
| Throw (e : Exception).
Arguments Ok {A} value.
Arguments Throw {A} e.

(** [s.includes(sub)] *)
Fixpoint includes (s sub : string) : bool :=
  String.prefix sub s ||
  match s with
  | EmptyString => false
  | String _ s' => includes s' sub
  end.

Module PasswordEntry.
Record t : Type := mk {
  id : string;
  site : string;
  username : string;
  password : string;
  createdAt : string;
  updatedAt : string
}.
End PasswordEntry.

Module User.
Record t : Type := mk { username : string; vault_file : string }.
End User.

(** [VaultState] of [types]: [masterPassword] is [string | null]. *)
Record VaultState : Type := mkVaultState {
  entries : list PasswordEntry.t;
  isLocked : bool;
  masterPassword : option string
}.

(** The object [{ entries, lastModified, version }] that is serialised into
    the vault.  A field is [None] when the parsed object does not have it (a
    legacy or foreign blob), or, for [entries], when its value is falsy. *)
Record VaultData : Type := mkVaultData {
  vd_entries : option (list PasswordEntry.t);
  vd_lastModified : option string;
  vd_version : option string
}.

(** The world: the secure key-value store, the cryptographic random source
    ([randomSource], of which [randomUsed] bytes have been handed out), the clock
    (the successive readings of [Date]), the successive values of
    [Math.random().toString(36).substr(2)], and the state held by the
    reducer of the vault provider. *)
Record World : Type := mkWorld {
  secureStore : gmap string string;
  randomSource : nat → byte;
  randomUsed : nat;
  clock : nat → Z;
  clockReads : nat;
  mathRandom : nat → string;
  mathRandomUsed : nat;
  reducerState : VaultState
}.

Definition M (A : Type) : Type := World → Result A * World.

Definition ret {A} (a : A) : M A := fun w => (Ok a, w).

Definition bind {A B} (m : M A) (k : A → M B) : M B :=
  fun w => match m w with
           | (Ok a, w') => k a w'
           | (Throw e, w') => (Throw e, w')
           end.

Definition throw {A} (e : Exception) : M A := fun w => (Throw e, w).

(** [try { m } catch (error) { handler error }]: the effects of [m] up to the
    exception stay. *)
Definition tryCatch {A} (m : M A) (handler : Exception → M A) : M A :=
  fun w => match m w with
           | (Ok a, w') => (Ok a, w')
           | (Throw e, w') => handler e w'
           end.

Definition liftResult {A} (r : Result A) : M A := fun w => (r, w).

Declare Scope M_scope.
Delimit Scope M_scope with M.
Notation "'do' x <- c1 ; c2" := (bind c1 (fun x => c2))
  (at level 10, x name, c1 at level 100, c2 at level 200,
   format "'[v' 'do'  x  <-  c1 ; '/' c2 ']'") : M_scope.
Notation "'exec' c1 ; c2" := (bind c1 (fun _ => c2))
  (at level 10, c1 at level 100, c2 at level 200,
   format "'[v' 'exec'  c1 ; '/' c2 ']'") : M_scope.

Definition setSecureStore (s : gmap string string) (w : World) : World :=
  mkWorld s (randomSource w) (randomUsed w) (clock w) (clockReads w)
          (mathRandom w) (mathRandomUsed w) (reducerState w).

Definition setRandomUsed (n : nat) (w : World) : World :=
  mkWorld (secureStore w) (randomSource w) n (clock w) (clockReads w)
          (mathRandom w) (mathRandomUsed w) (reducerState w).

Definition setClockReads (n : nat) (w : World) : World :=
  mkWorld (secureStore w) (randomSource w) (randomUsed w) (clock w) n
          (mathRandom w) (mathRandomUsed w) (reducerState w).

Definition setMathRandomUsed (n : nat) (w : World) : World :=
  mkWorld (secureStore w) (randomSource w) (randomUsed w) (clock w) (clockReads w)
          (mathRandom w) n (reducerState w).

Definition setReducerState (s : VaultState) (w : World) : World :=
  mkWorld (secureStore w) (randomSource w) (randomUsed w) (clock w) (clockReads w)
          (mathRandom w) (mathRandomUsed w) s.

(** [crypto.getRandomValues(new Uint8Array(n))]: the next [n] bytes of the
    random source; more than 65536 bytes at once is a [QuotaExceededError]. *)
Definition getRandomValues (n : nat) : M Uint8Array :=
  fun w =>
    if (65536 <? Z.of_nat n) then (Throw (DOMException "QuotaExceededError"), w)
    else (Ok (map (fun i => randomSource w (randomUsed w + i)%nat) (seq 0 n)),
          setRandomUsed (randomUsed w + n)%nat w).

(** [Date.now()] *)
Definition Date_now : M Z :=
  fun w => (Ok (clock w (clockReads w)), setClockReads (S (clockReads w)) w).

(** [Math.random().toString(36).substr(2)] *)
Definition Math_random_base36 : M string :=
  fun w => (Ok (mathRandom w (mathRandomUsed w)),
            setMathRandomUsed (S (mathRandomUsed w)) w).

(** [SecureStore.setItemAsync], [getItemAsync] (whose [null] is [None]) and
    [deleteItemAsync]. *)
Definition SecureStore_setItemAsync (key value : string) : M unit :=
  fun w => (Ok tt, setSecureStore (<[key := value]> (secureStore w)) w).

Definition SecureStore_getItemAsync (key : string) : M (option string) :=
  fun w => (Ok (secureStore w !! key), w).

Definition SecureStore_deleteItemAsync (key : string) : M unit :=
  fun w => (Ok tt, setSecureStore (delete key (secureStore w)) w).

(** ** The platform

    What the code consumes from the JavaScript platform and from the Web
    Crypto API, and does not define itself. *)
Class Platform : Type := {
  (** [crypto && crypto.subtle] is there *)
  has_crypto_subtle : bool;
  (** [btoa(String.fromCharCode(...bytes))] works (it throws otherwise, which
      [encryptData] catches) *)
  has_btoa : bool;
  (** [atob] is defined *)
  has_atob : bool;
  (** [new TextEncoder().encode] and [new TextDecoder().decode] *)
  TextEncoder_encode : JSString → Uint8Array;
  TextDecoder_decode : Uint8Array → JSString;
  (** [crypto.subtle.deriveBits] for PBKDF2: password, salt, iterations, hash,
      number of bits *)
  PBKDF2_deriveBits : Uint8Array → Uint8Array → Z → string → Z → Uint8Array;
  (** [crypto.subtle.encrypt] and [decrypt] for AES-GCM: key, iv, data;
      [decrypt] is [None] when it rejects with [OperationError] *)
  AES_GCM_encrypt : Uint8Array → Uint8Array → Uint8Array → Uint8Array;
  AES_GCM_decrypt : Uint8Array → Uint8Array → Uint8Array → option Uint8Array;
  (** [JSON.stringify] of a vault object; [JSON.parse] with its result read as
      a vault object: it throws on text that is not JSON, and so does the
      access to a property of [null] *)
  JSON_stringify : VaultData → JSString;
  JSON_parse : JSString → Result VaultData;
  (** [new Date(ms).toISOString()] and [n.toString(36)] *)
  toISOString : Z → string;
  toString36 : Z → string;
  (** [parseInt(s)], [None] for [NaN] *)
  parseInt : string → option Z;
  (** [new Uint8Array(length)] throws a [RangeError] for a negative length
      and for a length beyond what the platform can allocate; the limit and
      the message of the error are the platform's.  Arrays of 65536 elements
      are within the limit. *)
  maxTypedArrayLength : Z;
  typedArrays_of_65536 : 65536 <= maxTypedArrayLength;
  invalidTypedArrayLength : Z → string;
  (** [(length * Math.log2(charsetSize)).toFixed(1)] *)
  entropyToFixed1 : Z → Z → string
}.

(** [new Date().toISOString()] *)
Definition newDateISO `{Platform} : M string :=
  fun w => (Ok (toISOString (clock w (clockReads w))),
            setClockReads (S (clockReads w)) w).

(** ** Typed arrays *)

(** [new Uint8Array(n)] is zero-filled. *)
Definition newUint8Array (n : nat) : Uint8Array := repeat x00 n.

(** [target.set(source, offset)]; a source that does not fit is a
    [RangeError]. *)
Definition typedArraySet (target source : Uint8Array) (offset : nat)
  : Result Uint8Array :=
  if (length target <? offset + length source)%nat
  then Throw (RangeError "offset is out of bounds")
  else Ok (take offset target ++ source
           ++ drop (offset + length source) target).

(** [a.slice(start, end)] and [a.slice(start)] for indices within
    [0 .. a.length] or beyond. *)
Definition slice (a : Uint8Array) (start stop : nat) : Uint8Array :=
  take (stop - start) (drop start a).

Definition sliceFrom (a : Uint8Array) (start : nat) : Uint8Array :=
  drop start a.

(** [Math.log2], on the real numbers. *)
Definition log2 (x : R) : R := (ln x / ln 2)%R.

(** ** [utils/crypto.ts]: class [CryptoUtils] *)

Module CryptoUtils.

Import Base64.

Definition SALT_LENGTH : nat := 32.
Definition KEY_LENGTH : nat := 32.
Definition IV_LENGTH : nat := 12.
Definition TAG_LENGTH : nat := 16.

(** The key object returned by [importKey('raw', derivedBits, 'AES-GCM', ..)]
    is its raw bits. *)
Abbreviation CryptoKey := Uint8Array.

Definition deriveKey `{Platform} (password : string) (salt : Uint8Array)
  : Result CryptoKey :=
  if negb has_crypto_subtle
  then Throw (Error "Web Crypto API not available on this platform")
  else
    let passwordBuffer := TextEncoder_encode (codeUnits password) in
    let derivedBits :=
      PBKDF2_deriveBits passwordBuffer salt 600000 "SHA-256" 256 in
    Ok derivedBits.

(** The size of the pieces in which a large array is turned into a string. *)
Definition chunkSize : nat := Z.to_nat 65536.

(** The loop [for (i = 0; i < combined.length; i += 65536)] that pushes
    [String.fromCharCode(...combined.slice(i, i + 65536))]; [fuel] bounds the
    number of iterations, [remaining] is [combined.slice(i)]. *)
Fixpoint chunkStrings (fuel : nat) (remaining : Uint8Array) : list string :=
  match fuel with
  | O => []
  | S fuel' =>
      match remaining with
      | [] => []
      | _ => String_fromCharCode (take chunkSize remaining)
             :: chunkStrings fuel' (drop chunkSize remaining)
      end
  end.

(** [chunks.join('')] *)
Definition join (chunks : list string) : string :=
  fold_right String.append EmptyString chunks.

(** The base64 step of [encryptData]: [btoa], in pieces for large data, and
    the manual encoder when [btoa] throws. *)
Definition toBase64 `{Platform} (combined : Uint8Array) : string :=
  if has_btoa then
    if (65536 <? Z.of_nat (length combined))
    then btoa (join (chunkStrings (length combined) combined))
    else btoa (String_fromCharCode combined)
  else fallbackEncode combined.

Definition encryptData `{Platform} (data : JSString) (password : string)
  : M string :=
  tryCatch
    (let dataBuffer := TextEncoder_encode data in
     do salt <- getRandomValues SALT_LENGTH;
     do iv <- getRandomValues IV_LENGTH;
     do key <- liftResult (deriveKey password salt);
     let encryptedData := AES_GCM_encrypt key iv dataBuffer in
     let combined :=
       newUint8Array (SALT_LENGTH + IV_LENGTH + length encryptedData) in
     do combined <- liftResult (typedArraySet combined salt 0);
     do combined <- liftResult (typedArraySet combined iv SALT_LENGTH);
     do combined <- liftResult
          (typedArraySet combined encryptedData (SALT_LENGTH + IV_LENGTH));
     ret (toBase64 combined))%M
    (fun error => throw error).

(** [decryptData] reads nothing from the world; every exception of its body
    is replaced by the one error of its [catch]. *)
Definition decryptData `{Platform} (encryptedData password : string)
  : Result JSString :=
  let body : Result JSString :=
    match (if has_atob
           then match atob encryptedData with
                | Some binary => Ok binary
                | None => Throw (DOMException "InvalidCharacterError")
                end
           else Throw (ReferenceError "atob is not defined")) with
    | Throw e => Throw e
    | Ok binary =>
        let combined := charCodes binary in
        let salt := slice combined 0 SALT_LENGTH in
        let iv := slice combined SALT_LENGTH (SALT_LENGTH + IV_LENGTH) in
        let encrypted := sliceFrom combined (SALT_LENGTH + IV_LENGTH) in
        match deriveKey password salt with
        | Throw e => Throw e
        | Ok key =>
            match AES_GCM_decrypt key iv encrypted with
            | None => Throw (DOMException "OperationError")
            | Some decryptedBuffer => Ok (TextDecoder_decode decryptedBuffer)
            end
        end
    end in
  match body with
  | Ok plaintext => Ok plaintext
  | Throw _ =>
      Throw (Error "Decryption failed - invalid password or corrupted data")
  end.

(** The value of [length * Math.log2(charsetSize)], kept as its two integer
    arguments; [entropyBits] is the real number it denotes. *)
Inductive Entropy : Type :=
| LengthTimesLog2 (length charsetSize : Z).

Definition entropyBits (e : Entropy) : R :=
  match e with
  | LengthTimesLog2 n size => (IZR n * log2 (IZR size))%R
  end.

Record Generated : Type := mkGenerated {
  password : string;
  entropy : Entropy
}.

(** [entropy.toFixed(1)] *)
Definition toFixed1 `{Platform} (e : Entropy) : string :=
  match e with
  | LengthTimesLog2 n size => entropyToFixed1 n size
  end.

Definition lowercaseChars : string := "abcdefghijklmnopqrstuvwxyz".
Definition uppercaseChars : string := "ABCDEFGHIJKLMNOPQRSTUVWXYZ".
Definition digitChars : string := "0123456789".
Definition symbolChars : string := "!@#$%^&*()_+-=[]{}|;:,.<>?".

(** The character set and the counter [charsetSize] that the four [if]s of
    [generateSecurePassword] build side by side. *)
Definition buildCharset
  (includeSymbols includeNumbers includeUppercase includeLowercase : bool)
  : string * Z :=
  let '(charset, charsetSize) := (EmptyString, 0) in
  let '(charset, charsetSize) :=
    if includeLowercase then (charset +:+ lowercaseChars, charsetSize + 26)
    else (charset, charsetSize) in
  let '(charset, charsetSize) :=
    if includeUppercase then (charset +:+ uppercaseChars, charsetSize + 26)
    else (charset, charsetSize) in
  let '(charset, charsetSize) :=
    if includeNumbers then (charset +:+ digitChars, charsetSize + 10)
    else (charset, charsetSize) in
  let '(charset, charsetSize) :=
    if includeSymbols then (charset +:+ symbolChars, charsetSize + 27)
    else (charset, charsetSize) in
  (charset, charsetSize).

(** [charset[k]] appended to a string: the character, or the text of
    [undefined] when [k] is not an index of [charset]. *)
Definition charsetAt (charset : string) (k : Z) : string :=
  match (if k <? 0 then None else String.get (Z.to_nat k) charset) with
  | Some c => String c EmptyString
  | None => "undefined"
  end.

(** The loop [for (i = 0; i < length; i++) password += charset[array[i] %
    charset.length]] over the elements of [array]. *)
Fixpoint pickChars (charset : string) (array : Uint8Array) : string :=
  match array with
  | [] => EmptyString
  | x :: rest =>
      charsetAt charset (byteValue x mod Z.of_nat (String.length charset))
      +:+ pickChars charset rest
  end.

(** [length] is an integer here, as it is for both callers, which pass the
    result of [parseInt]; a negative length, and a length beyond the limit
    of the platform, make [new Uint8Array(length)] throw. *)
Definition generateSecurePassword `{Platform}
  (length : Z)
  (includeSymbols includeNumbers includeUppercase includeLowercase : bool)
  : M Generated :=
  let '(charset, charsetSize) :=
    buildCharset includeSymbols includeNumbers includeUppercase
                 includeLowercase in
  if String.eqb charset EmptyString
  then throw (Error "At least one character type must be selected")
  else if (length <? 0) || (maxTypedArrayLength <? length)
  then throw (RangeError (invalidTypedArrayLength length))
  else
    (do array <- getRandomValues (Z.to_nat length);
     let password := pickChars charset array in
     let entropy := LengthTimesLog2 length charsetSize in
     ret (mkGenerated password entropy))%M.

End CryptoUtils.

(** ** [utils/storage.ts]: class [SecureStorage] *)

Module SecureStorage.

Definition VAULT_PREFIX : string := "password_manager_vault_".

(** A value is falsy when it is [null] or the empty string. *)
Definition falsy (v : option string) : bool :=
  match v with
  | None => true
  | Some s => String.eqb s EmptyString
  end.

Definition storeEncryptedVault `{Platform}
  (username : string) (entries : list PasswordEntry.t)
  (masterPassword : string) : M unit :=
  tryCatch
    (do lastModified <- newDateISO;
     let vaultData :=
       mkVaultData (Some entries) (Some lastModified) (Some "1.0") in
     let serialized := JSON_stringify vaultData in
     do encrypted <- CryptoUtils.encryptData serialized masterPassword;
     let vaultKey := VAULT_PREFIX +:+ username in
     SecureStore_setItemAsync vaultKey encrypted)%M
    (fun error =>
       throw (Error ("Failed to store encrypted vault: " +:+ message error))).

Definition getEncryptedVault `{Platform}
  (username masterPassword : string) : M (list PasswordEntry.t) :=
  tryCatch
    (let vaultKey := VAULT_PREFIX +:+ username in
     do encrypted <- SecureStore_getItemAsync vaultKey;
     if falsy encrypted then ret []
     else
       do decrypted <- liftResult
            (CryptoUtils.decryptData (default EmptyString encrypted)
                                     masterPassword);
       do vaultData <- liftResult (JSON_parse decrypted);
       ret (default [] (vd_entries vaultData)))%M
    (fun error =>
       if includes (message error) "Decryption failed"
       then throw (Error "Invalid master password")
       else throw (Error "Failed to retrieve vault data")).

(** [Date.now().toString(36) + Math.random().toString(36).substr(2)] *)
Definition generateUniqueId `{Platform} : M string :=
  (do now <- Date_now;
   do random <- Math_random_base36;
   ret (toString36 now +:+ random))%M.

End SecureStorage.

(** ** [context/VaultContext.tsx] *)

(** [Partial<PasswordEntry>]: a field is [None] when the object does not have
    it. *)
Module PartialEntry.
Record t : Type := mk {
  id : option string;
  site : option string;
  username : option string;
  password : option string;
  createdAt : option string;
  updatedAt : option string
}.
End PartialEntry.

Inductive VaultAction : Type :=
| UNLOCK_VAULT (entries : list PasswordEntry.t) (masterPassword : string)
| LOCK_VAULT
| SET_ENTRIES (payload : list PasswordEntry.t)
| ADD_ENTRY (payload : PasswordEntry.t)
| UPDATE_ENTRY (id : string) (updates : PartialEntry.t)
| DELETE_ENTRY (payload : string).

(** [{ ...entry, ...updates, updatedAt: now }] *)
Definition mergeEntry (entry : PasswordEntry.t) (updates : PartialEntry.t)
  (now : string) : PasswordEntry.t :=
  PasswordEntry.mk
    (default (PasswordEntry.id entry) (PartialEntry.id updates))
    (default (PasswordEntry.site entry) (PartialEntry.site updates))
    (default (PasswordEntry.username entry) (PartialEntry.username updates))
    (default (PasswordEntry.password entry) (PartialEntry.password updates))
    (default (PasswordEntry.createdAt entry) (PartialEntry.createdAt updates))
    now.

(** The [map] of the [UPDATE_ENTRY] case; the clock is read once for every
    entry whose [id] matches. *)
Fixpoint updateEntries `{Platform} (id : string) (updates : PartialEntry.t)
  (entries : list PasswordEntry.t) : M (list PasswordEntry.t) :=
  match entries with
  | [] => ret []
  | entry :: rest =>
      (do entry' <- (if String.eqb (PasswordEntry.id entry) id
                     then (do now <- newDateISO;
                           ret (mergeEntry entry updates now))
                     else ret entry);
       do rest' <- updateEntries id updates rest;
       ret (entry' :: rest'))%M
  end.

Definition vaultReducer `{Platform} (state : VaultState) (action : VaultAction)
  : M VaultState :=
  match action with
  | UNLOCK_VAULT entries masterPassword =>
      ret (mkVaultState entries false (Some masterPassword))
  | LOCK_VAULT =>
      ret (mkVaultState [] true None)
  | SET_ENTRIES payload =>
      ret (mkVaultState payload (isLocked state) (masterPassword state))
  | ADD_ENTRY payload =>
      ret (mkVaultState (entries state ++ [payload]) (isLocked state)
                        (masterPassword state))
  | UPDATE_ENTRY id updates =>
      (do entries' <- updateEntries id updates (entries state);
       ret (mkVaultState entries' (isLocked state) (masterPassword state)))%M
  | DELETE_ENTRY payload =>
      ret (mkVaultState
             (List.filter
                (fun entry => negb (String.eqb (PasswordEntry.id entry) payload))
                (entries state))
             (isLocked state) (masterPassword state))
  end.

Definition initialState : VaultState := mkVaultState [] true None.

(** [dispatch(action)]: the reducer is applied to the state the provider
    holds.  The functions below are closures of one render: they read the
    [state] and the [authState] of that render, whatever has been dispatched
    since. *)
Definition dispatch `{Platform} (action : VaultAction) : M unit :=
  fun w =>
    match vaultReducer (reducerState w) action w with
    | (Ok state', w') => (Ok tt, setReducerState state' w')
    | (Throw e, w') => (Throw e, w')
    end.

Module VaultProvider.

Section Render.

Context `{Platform}.

(** [authState.currentUser] and [state] of the render. *)
Variable currentUser : option User.t.
Variable state : VaultState.

Definition saveVault : M unit :=
  tryCatch
    (match currentUser with
     | None => throw (Error "No user logged in")
     | Some user =>
         if SecureStorage.falsy (masterPassword state)
         then throw (Error "Vault is locked")
         else SecureStorage.storeEncryptedVault
                (User.username user) (entries state)
                (default EmptyString (masterPassword state))
     end)
    (fun error => throw error).

Definition unlockVault (masterPassword : string) : M unit :=
  match currentUser with
  | None => throw (Error "No user logged in")
  | Some user =>
      tryCatch
        (do entries <- SecureStorage.getEncryptedVault
                         (User.username user) masterPassword;
         dispatch (UNLOCK_VAULT entries masterPassword))%M
        (fun error => throw error)
  end.

Definition lockVault : M unit := dispatch LOCK_VAULT.

(** [entryData] is an [Omit<PasswordEntry, 'id' | 'createdAt' | 'updatedAt'>]. *)
Definition addEntry (site username password : string) : M unit :=
  tryCatch
    (do now <- newDateISO;
     do id <- SecureStorage.generateUniqueId;
     let newEntry := PasswordEntry.mk id site username password now now in
     exec dispatch (ADD_ENTRY newEntry);
     saveVault)%M
    (fun error => throw error).

Definition updateEntry (id : string) (updates : PartialEntry.t) : M unit :=
  (exec dispatch (UPDATE_ENTRY id updates);
   saveVault)%M.

Definition deleteEntry (id : string) : M unit :=
  (exec dispatch (DELETE_ENTRY id);
   saveVault)%M.

Definition changeMasterPassword (oldPassword newPassword : string) : M unit :=
  match currentUser with
  | Some user =>
      if negb (bool_decide (masterPassword state = Some oldPassword))
      then throw (Error "Invalid current master password")
      else
        (exec SecureStorage.storeEncryptedVault
                (User.username user) (entries state) newPassword;
         dispatch (UNLOCK_VAULT (entries state) newPassword))%M
  | None => throw (Error "Invalid current master password")
  end.

End Render.

End VaultProvider.

(** ** Alerts and text input, as the screens use them *)

(** What pressing a button of an alert runs. *)
Inductive Handler : Type :=
| Dismiss            (* no [onPress]: the alert just closes *)
| RunHandleLogout    (* [onPress: handleLogout] *)
| RunLogout.         (* [onPress: async () => { await logout(); navigation.replace('Login') }] *)

Record Button : Type := mkButton {
  buttonText : string;
  onPress : Handler
}.

(** [Alert.alert(title, message, buttons)]; without [buttons] the alert has
    the one button [OK], which closes it. *)
Record Alert : Type := mkAlert {
  alertTitle : string;
  alertMessage : string;
  alertButtons : list Button
}.

Definition Alert_alert (title message : string) : Alert :=
  mkAlert title message [mkButton "OK" Dismiss].

(** White space of [trim], among 8-bit characters. *)
Definition isWhiteSpace (c : ascii) : bool :=
  let n := N_of_ascii c in
  ((9 <=? n) && (n <=? 13))%N || (n =? 32)%N || (n =? 160)%N.

(** [!s.trim()]: [s] is empty once trimmed. *)
Fixpoint trimsToEmpty (s : string) : bool :=
  match s with
  | EmptyString => true
  | String c s' => isWhiteSpace c && trimsToEmpty s'
  end.

(** ** The unlock screen *)

Module UnlockScreen.

Inductive Route : Type := Login | Unlock | Vault.

(** The state of the mounted screen ([useState]), the alert on display,
    the route the navigator shows and whether [logout()] has run. *)
Record t : Type := mk {
  masterPassword : string;
  isUnlocking : bool;
  attempts : Z;
  alert : option Alert;
  route : Route;
  loggedOut : bool
}.

(** The screen as it is mounted: [useState('')], [useState(0)]. *)
Definition mounted : t := mk EmptyString false 0 None Unlock false.

Definition showAlert (a : Alert) (s : t) : t :=
  mk (masterPassword s) (isUnlocking s) (attempts s) (Some a) (route s)
     (loggedOut s).

Definition handleLogout (s : t) : t :=
  showAlert
    (mkAlert "Logout" "Are you sure you want to logout?"
       [mkButton "Cancel" Dismiss; mkButton "Logout" RunLogout])
    s.

(** [handleUnlock], given the [unlockVault] of the vault context. *)
Definition handleUnlock (unlockVault : string → M unit) (s : t) : M t :=
  if trimsToEmpty (masterPassword s)
  then ret (showAlert
              (Alert_alert "Error" "Please enter your master password") s)
  else
    tryCatch
      (exec unlockVault (masterPassword s);
       (* setMasterPassword(''); navigation.replace('Vault'); finally *)
       ret (mk EmptyString false (attempts s) (alert s) Vault (loggedOut s)))%M
      (fun error =>
         let newAttempts := attempts s + 1 in
         let shown :=
           if 3 <=? newAttempts
           then mkAlert "Too Many Failed Attempts"
                        "For security reasons, you will be logged out."
                        [mkButton "OK" RunHandleLogout]
           else Alert_alert "Incorrect Password"
                  ("Invalid master password. " +:+ pretty (3 - newAttempts)
                   +:+ " attempts remaining.") in
         ret (mk EmptyString false newAttempts (Some shown) (route s)
                 (loggedOut s))).

(** The user types into the password field. *)
Definition setMasterPassword (text : string) (s : t) : t :=
  mk text (isUnlocking s) (attempts s) (alert s) (route s) (loggedOut s).

(** The user presses the button [text] of the alert on display. *)
Definition pressAlertButton (text : string) (s : t) : t :=
  match alert s with
  | None => s
  | Some a =>
      match List.find (fun b => String.eqb (buttonText b) text)
                      (alertButtons a) with
      | None => s
      | Some b =>
          let closed := mk (masterPassword s) (isUnlocking s) (attempts s)
                           None (route s) (loggedOut s) in
          match onPress b with
          | Dismiss => closed
          | RunHandleLogout => handleLogout closed
          | RunLogout =>
              mk (masterPassword s) (isUnlocking s) (attempts s) None Login true
          end
      end
  end.

End UnlockScreen.

(** ** The generator of the two screens *)

(** The four switches of a screen. *)
Record Classes : Type := mkClasses {
  includeSymbols : bool;
  includeNumbers : bool;
  includeUppercase : bool;
  includeLowercase : bool
}.

Definition noneSelected (c : Classes) : bool :=
  negb (includeSymbols c) && negb (includeNumbers c)
  && negb (includeUppercase c) && negb (includeLowercase c).

(** [isNaN(n) || n < lo || n > hi] for the result of [parseInt]. *)
Definition lengthRejected (n : option Z) (lo hi : Z) : bool :=
  match n with
  | None => true
  | Some n => (n <? lo) || (hi <? n)
  end.

Module PasswordGeneratorScreen.

Record t : Type := mk {
  length : string;
  classes : Classes;
  generatedPassword : string;
  entropy : option CryptoUtils.Entropy;   (* [useState(0)] until set *)
  alert : option Alert
}.

Definition validateSettings `{Platform} (s : t) : option string :=
  let lengthNum := parseInt (length s) in
  if lengthRejected lengthNum 4 128
  then Some "Password length must be between 4 and 128 characters"
  else if noneSelected (classes s)
  then Some "At least one character type must be selected"
  else None.

Definition generatePassword `{Platform} (s : t) : M t :=
  match validateSettings s with
  | Some validationError =>
      ret (mk (length s) (classes s) (generatedPassword s) (entropy s)
              (Some (Alert_alert "Invalid Settings" validationError)))
  | None =>
      tryCatch
        (let lengthNum := default 0 (parseInt (length s)) in
         do result <- CryptoUtils.generateSecurePassword
                        lengthNum
                        (includeSymbols (classes s))
                        (includeNumbers (classes s))
                        (includeUppercase (classes s))
                        (includeLowercase (classes s));
         ret (mk (length s) (classes s) (CryptoUtils.password result)
                 (Some (CryptoUtils.entropy result)) (alert s)))%M
        (fun error =>
           ret (mk (length s) (classes s) (generatedPassword s) (entropy s)
                   (Some (Alert_alert "Error" "Failed to generate password"))))
  end.

End PasswordGeneratorScreen.

Module AddEntryScreen.

Record t : Type := mk {
  password : string;
  generatorLength : string;
  classes : Classes;
  alert : option Alert;
  (** the entropy that the alert [Password Generated] reports *)
  reported : option CryptoUtils.Entropy
}.

Definition generatePassword `{Platform} (s : t) : M t :=
  let failed (title text : string) : t :=
    mk (password s) (generatorLength s) (classes s)
       (Some (Alert_alert title text)) (reported s) in
  tryCatch
    (let length := parseInt (generatorLength s) in
     if lengthRejected length 8 128
     then ret (failed "Error"
                 "Password length must be between 8 and 128 characters")
     else if noneSelected (classes s)
     then ret (failed "Error" "At least one character type must be selected")
     else
       do result <- CryptoUtils.generateSecurePassword
                      (default 0 length)
                      (includeSymbols (classes s))
                      (includeNumbers (classes s))
                      (includeUppercase (classes s))
                      (includeLowercase (classes s));
       ret (mk (CryptoUtils.password result) (generatorLength s) (classes s)
               (Some (Alert_alert "Password Generated"
                        ("Generated secure password with "
                         +:+ CryptoUtils.toFixed1 (CryptoUtils.entropy result)
                         +:+ " bits of entropy")))
               (Some (CryptoUtils.entropy result))))%M
    (fun error => ret (failed "Error" "Failed to generate password")).

End AddEntryScreen.

(** ** What the properties assume of the platform *)

(** The contracts of the platform primitives that the properties below rely
    on: the Web Crypto API and [atob] are there, AES-GCM decryption undoes
    encryption under the same key and nonce, [JSON.parse] undoes
    [JSON.stringify] on vault objects, and the text of [JSON.stringify]
    survives UTF-8 encoding and decoding. *)
Class PlatformLaws (P : Platform) : Prop := {
  crypto_subtle_available : has_crypto_subtle = true;
  atob_available : has_atob = true;
  AES_GCM_decrypt_encrypt : ∀ key iv data,
    AES_GCM_decrypt key iv (AES_GCM_encrypt key iv data) = Some data;
  JSON_parse_stringify : ∀ v, JSON_parse (JSON_stringify v) = Ok v;
  JSON_text_roundtrip : ∀ v,
    TextDecoder_decode (TextEncoder_encode (JSON_stringify v))
    = JSON_stringify v
}.

(** The [n] bytes of the random source of a world from position [from] on,
    the salt and the nonce that an encryption started in that world draws,
    and the key that [deriveKey] derives. *)
Definition randomBytes (w : World) (from n : nat) : Uint8Array :=
  map (fun i => randomSource w (from + i)%nat) (seq 0 n).

Definition drawnSalt (w : World) : Uint8Array :=
  randomBytes w (randomUsed w) CryptoUtils.SALT_LENGTH.

Definition drawnIv (w : World) : Uint8Array :=
  randomBytes w (randomUsed w + CryptoUtils.SALT_LENGTH)
              CryptoUtils.IV_LENGTH.

Definition derivedKey `{Platform} (password : string) (salt : Uint8Array)
  : Uint8Array :=
  PBKDF2_deriveBits (TextEncoder_encode (codeUnits password)) salt 600000
                    "SHA-256" 256.

(** The sealed blob of a salt, a nonce and a ciphertext. *)
Definition sealedBlob (salt iv encrypted : Uint8Array) : string :=
  Base64.btoa (String_fromCharCode (salt ++ iv ++ encrypted)).

(** The one error of [decryptData]. *)
Definition decryptionFailed : Exception :=
  Error "Decryption failed - invalid password or corrupted data".

(** The states that the reducer can reach from the initial state. *)
Inductive reachable `{Platform} : VaultState → Prop :=
| reachable_initial : reachable initialState
| reachable_step (state state' : VaultState) (action : VaultAction)
    (w w' : World) :
    reachable state →
    vaultReducer state action w = (Ok state', w') →
    reachable state'.

(** ** The vault state invariant and the vault operations *)

(** Fully locked or fully unlocked. *)
Definition fullyLocked (s : VaultState) : Prop :=
  isLocked s = true ∧ masterPassword s = None ∧ entries s = [].

Definition fullyUnlocked (s : VaultState) : Prop :=
  isLocked s = false ∧ is_Some (masterPassword s).

Definition consistent (s : VaultState) : Prop :=
  fullyLocked s ∨ fullyUnlocked s.

(** The operations that the vault context offers. *)
Inductive Operation : Type :=
| OpUnlockVault (masterPassword : string)
| OpLockVault
| OpAddEntry (site username password : string)
| OpUpdateEntry (id : string) (updates : PartialEntry.t)
| OpDeleteEntry (id : string)
| OpChangeMasterPassword (oldPassword newPassword : string).

Definition runOperation `{Platform} (currentUser : option User.t)
  (state : VaultState) (op : Operation) : M unit :=
  match op with
  | OpUnlockVault masterPassword =>
      VaultProvider.unlockVault currentUser masterPassword
  | OpLockVault => VaultProvider.lockVault
  | OpAddEntry site username password =>
      VaultProvider.addEntry currentUser state site username password
  | OpUpdateEntry id updates =>
      VaultProvider.updateEntry currentUser state id updates
  | OpDeleteEntry id => VaultProvider.deleteEntry currentUser state id
  | OpChangeMasterPassword oldPassword newPassword =>
      VaultProvider.changeMasterPassword currentUser state
                                         oldPassword newPassword
  end.

Definition isAddEntry (op : Operation) : bool :=
  match op with
  | OpAddEntry _ _ _ => true
  | _ => false
  end.

(** The character set when all four classes are selected. *)
Definition fullCharset : string :=
  CryptoUtils.lowercaseChars +:+ CryptoUtils.uppercaseChars
  +:+ CryptoUtils.digitChars +:+ CryptoUtils.symbolChars.

(** ** A model platform

    A small platform that meets the contracts above; the concrete runs below
    are runs on it.  Its text encoding is UTF-8 as the Encoding standard
    defines it.  Its "cipher" stores the key next to the data, its key
    derivation is the key block of HMAC followed by the salt, its "JSON" is
    a plain tagged text; none of the three is meant to be secure or
    standard. *)

Module Model.

Definition seal (key iv data : Uint8Array) : Uint8Array :=
  flat_map (fun b => [x01; b]) key ++ x00 :: data.

Fixpoint unseal (key sealed : Uint8Array) : option Uint8Array :=
  match key, sealed with
  | [], x00 :: data => Some data
  | b :: key', x01 :: b' :: sealed' =>
      if Byte.eqb b b' then unseal key' sealed' else None
  | _, _ => None
  end.

(** HMAC reads its key as one block of 64 bytes: a shorter key is filled
    up with zero bytes, a longer key is replaced by its digest first (here
    by its first 32 bytes: the model has no hash function). *)
Definition hmacKey (key : Uint8Array) : Uint8Array :=
  let key := if (64 <? length key)%nat then take 32 key else key in
  key ++ repeat x00 (64 - length key).

(** PBKDF2 reads the password as the key of HMAC. *)
Definition deriveBits (password salt : Uint8Array) (iterations : Z)
  (hash : string) (bits : Z) : Uint8Array :=
  hmacKey password ++ salt.

(** A text: every character after a [1], then a [0]. *)
Fixpoint writeText (s : string) (rest : string) : string :=
  match s with
  | EmptyString => String "0" rest
  | String c s' => String "1" (String c (writeText s' rest))
  end.

Fixpoint readText (text : string) : option (string * string) :=
  match text with
  | String "0" rest => Some (EmptyString, rest)
  | String "1" (String c text') =>
      match readText text' with
      | Some (s, rest) => Some (String c s, rest)
      | None => None
      end
  | _ => None
  end.

Definition writeOption {A} (write : A -> string -> string) (o : option A)
  (rest : string) : string :=
  match o with
  | Some a => String "S" (write a rest)
  | None => String "N" rest
  end.

Definition readOption {A} (read : string -> option (A * string))
  (text : string) : option (option A * string) :=
  match text with
  | String "S" text' =>
      match read text' with
      | Some (a, rest) => Some (Some a, rest)
      | None => None
      end
  | String "N" rest => Some (None, rest)
  | _ => None
  end.

Definition writeEntry (e : PasswordEntry.t) (rest : string) : string :=
  writeText (PasswordEntry.id e)
    (writeText (PasswordEntry.site e)
       (writeText (PasswordEntry.username e)
          (writeText (PasswordEntry.password e)
             (writeText (PasswordEntry.createdAt e)
                (writeText (PasswordEntry.updatedAt e) rest))))).

Definition readEntry (text : string) : option (PasswordEntry.t * string) :=
  '(id, text) ← readText text;
  '(site, text) ← readText text;
  '(username, text) ← readText text;
  '(password, text) ← readText text;
  '(createdAt, text) ← readText text;
  '(updatedAt, text) ← readText text;
  Some (PasswordEntry.mk id site username password createdAt updatedAt, text).

(** A list of entries: every entry after an [E], then a full stop. *)
Fixpoint writeEntries (es : list PasswordEntry.t) (rest : string) : string :=
  match es with
  | [] => String "." rest
  | e :: es' => String "E" (writeEntry e (writeEntries es' rest))
  end.

Fixpoint readEntries (fuel : nat) (text : string)
  : option (list PasswordEntry.t * string) :=
  match fuel, text with
  | S fuel', String "." rest => Some ([], rest)
  | S fuel', String "E" text' =>
      '(e, text'') ← readEntry text';
      '(es, rest) ← readEntries fuel' text'';
      Some (e :: es, rest)
  | _, _ => None
  end.

Definition stringify (v : VaultData) : string :=
  writeOption writeEntries (vd_entries v)
    (writeOption writeText (vd_lastModified v)
       (writeOption writeText (vd_version v) EmptyString)).

Definition parse (text : string) : Result VaultData :=
  match
    ('(entries, text') ← readOption (readEntries (String.length text)) text;
     '(lastModified, text'') ← readOption readText text';
     '(version, rest) ← readOption readText text'';
     if String.eqb rest EmptyString
     then Some (mkVaultData entries lastModified version)
     else None)
  with
  | Some v => Ok v
  | None => Throw (mkException "SyntaxError" "Unexpected token")
  end.

(** [JSON] on code units: the tagged text above, which has 8-bit
    characters only. *)
Definition stringifyUnits (v : VaultData) : JSString :=
  codeUnits (stringify v).

Definition parseUnits (text : JSString) : Result VaultData :=
  match UTF8.toLatin1 text with
  | Some s => parse s
  | None => Throw (mkException "SyntaxError" "Unexpected token")
  end.

(** [(n * Math.log2(size)).toFixed(1)], computed on the integers: the
    number of tenths is [floor (10 * n * log2 size + 1/2)], which is half of
    [floor (log2 (2 * size ^ (20 * n)))], rounded down. *)
Definition toFixed1 (n size : Z) : string :=
  let tenths := Z.log2 (2 * size ^ (20 * n)) / 2 in
  pretty (tenths / 10) +:+ "." +:+ pretty (tenths mod 10).

(** The message of V8 for a typed array that cannot be made. *)
Definition invalidLength (length : Z) : string :=
  "Invalid typed array length: " +:+ pretty length.

(** Decimal digits only. *)
Fixpoint parseDigits (acc : Z) (s : string) : option Z :=
  match s with
  | EmptyString => Some acc
  | String c s' =>
      let n := Z.of_N (N_of_ascii c) in
      if (48 <=? n) && (n <=? 57) then parseDigits (acc * 10 + (n - 48)) s'
      else None
  end.

Definition parseDecimal (s : string) : option Z :=
  match s with
  | EmptyString => None
  | _ => parseDigits 0 s
  end.

Definition platform : Platform := {|
  has_crypto_subtle := true;
  has_btoa := true;
  has_atob := true;
  TextEncoder_encode := UTF8.encode;
  TextDecoder_decode := UTF8.decode;
  PBKDF2_deriveBits := deriveBits;
  AES_GCM_encrypt := seal;
  AES_GCM_decrypt := fun key iv sealed => unseal key sealed;
  JSON_stringify := stringifyUnits;
  JSON_parse := parseUnits;
  toISOString := pretty;
  toString36 := pretty;
  parseInt := parseDecimal;
  maxTypedArrayLength := 4294967295;
  typedArrays_of_65536 := ltac:(lia);
  invalidTypedArrayLength := invalidLength;
  entropyToFixed1 := toFixed1
|}.

(** A world with an empty store and a locked vault. *)
Definition world : World := {|
  secureStore := ∅;
  randomSource := fun i => toUint8 (Z.of_nat i * 7);
  randomUsed := 0;
  clock := fun i => 1700000000000 + Z.of_nat i;
  clockReads := 0;
  mathRandom := fun i => pretty i;
  mathRandomUsed := 0;
  reducerState := initialState
|}.

Definition alice : User.t := User.mk "alice" "vault_alice.dat".

End Model.

(** ** The outcome of saving a vault *)

(** The blob that [storeEncryptedVault] writes when it starts in the world
    [w], and the world it leaves: one reading of the clock, 44 bytes of the
    random source, one key of the store. *)
Definition storedVaultData `{Platform} (entries : list PasswordEntry.t)
  (w : World) : VaultData :=
  mkVaultData (Some entries)
              (Some (toISOString (clock w (clockReads w)))) (Some "1.0").

Definition storedCiphertext `{Platform} (entries : list PasswordEntry.t)
  (masterPassword : string) (w : World) : Uint8Array :=
  AES_GCM_encrypt (derivedKey masterPassword (drawnSalt w)) (drawnIv w)
    (TextEncoder_encode (JSON_stringify (storedVaultData entries w))).

Definition storedBlob `{Platform} (entries : list PasswordEntry.t)
  (masterPassword : string) (w : World) : string :=
  sealedBlob (drawnSalt w) (drawnIv w)
    (AES_GCM_encrypt (derivedKey masterPassword (drawnSalt w)) (drawnIv w)
       (TextEncoder_encode (JSON_stringify (storedVaultData entries w)))).

Definition vaultKey (username : string) : string :=
  SecureStorage.VAULT_PREFIX +:+ username.

Definition storedWorld `{Platform} (username : string)
  (entries : list PasswordEntry.t) (masterPassword : string) (w : World)
  : World :=
  setSecureStore
    (<[vaultKey username := storedBlob entries masterPassword w]>
       (secureStore w))
    (setRandomUsed
       (randomUsed w + (CryptoUtils.SALT_LENGTH + CryptoUtils.IV_LENGTH))
       (setClockReads (S (clockReads w)) w)).


(** ** Invalid generator settings *)

(** The requested length, as [parseInt] reads it, is not a number or lies
    outside [lo .. hi]. *)
Definition outsideRange (n : option Z) (lo hi : Z) : Prop :=
  match n with
  | None => True
  | Some z => z < lo ∨ hi < z
  end.

Definition noClassSelected (c : Classes) : Prop :=
  includeSymbols c = false ∧ includeNumbers c = false
  ∧ includeUppercase c = false ∧ includeLowercase c = false.


(** ** Effects on the state of the reducer *)

(** A computation leaves the state that the reducer holds alone; a
    computation keeps a property of that state. *)
Definition framesReducer {A} (m : M A) : Prop :=
  ∀ w, reducerState (m w).2 = reducerState w.

Definition keeps {A} (I : VaultState → Prop) (m : M A) : Prop :=
  ∀ w, I (reducerState w) → I (reducerState (m w).2).

(** No entry has the given [id]. *)
Definition idAbsent (id : string) (entries : list PasswordEntry.t) : Prop :=
  Forall (fun entry => PasswordEntry.id entry ≠ id) entries.


(** ** A session on the unlock screen *)

(** What the user does on the unlock screen: type into the password field,
    press [Unlock Vault], press a button of the alert on display. *)
Inductive UnlockEvent : Type :=
| TypePassword (text : string)
| PressUnlock
| PressAlertButton (text : string).

(** An alert is modal: while one is on display only its buttons react.  Once
    the navigator has left the unlock route the screen is unmounted and
    nothing reacts. *)
Definition unlockStep (unlockVault : string → M unit) (event : UnlockEvent)
  (s : UnlockScreen.t) : M UnlockScreen.t :=
  match UnlockScreen.route s, UnlockScreen.alert s, event with
  | UnlockScreen.Unlock, None, TypePassword text =>
      ret (UnlockScreen.setMasterPassword text s)
  | UnlockScreen.Unlock, None, PressUnlock =>
      UnlockScreen.handleUnlock unlockVault s
  | UnlockScreen.Unlock, Some _, PressAlertButton text =>
      ret (UnlockScreen.pressAlertButton text s)
  | _, _, _ => ret s
  end.

Fixpoint unlockSession (unlockVault : string → M unit)
  (events : list UnlockEvent) (s : UnlockScreen.t) : M UnlockScreen.t :=
  match events with
  | [] => ret s
  | event :: rest =>
      (do s' <- unlockStep unlockVault event s;
       unlockSession unlockVault rest s')%M
  end.

(** One failed attempt: a wrong password, [Unlock Vault], and [OK] on the
    alert that follows. *)
Definition failedAttempt (guess : string) : list UnlockEvent :=
  [TypePassword guess; PressUnlock; PressAlertButton "OK"].

(** The model world after a vault with no entries has been saved for
    [alice] under the master password [correct horse]. *)
Definition worldWithVault : World :=
  (@SecureStorage.storeEncryptedVault Model.platform "alice" []
     "correct horse" Model.world).2.


(** ** Sample data for the concrete runs *)

Definition sampleEntry : PasswordEntry.t :=
  PasswordEntry.mk "k3x9" "example.com" "alice" "p@ss"
                   "2024-01-01T00:00:00.000Z" "2024-01-01T00:00:00.000Z".

(** The model world with the vault unlocked under [correct horse] and
    holding the sample entry. *)
Definition unlockedState : VaultState :=
  mkVaultState [sampleEntry] false (Some "correct horse").

Definition unlockedWorld : World :=
  setReducerState unlockedState Model.world.


(** ** Text helpers of the remaining code *)

(** [s.trim()]: white space removed at both ends. *)
Fixpoint trimStart (s : string) : string :=
  match s with
  | EmptyString => EmptyString
  | String c s' => if isWhiteSpace c then trimStart s' else s
  end.

Fixpoint trimEnd (s : string) : string :=
  match s with
  | EmptyString => EmptyString
  | String c s' =>
      let t := trimEnd s' in
      if isWhiteSpace c && String.eqb t EmptyString then EmptyString
      else String c t
  end.

Definition trim (s : string) : string := trimEnd (trimStart s).

(** [s.toLowerCase()] on 8-bit characters: the letters [A]-[Z] and the
    capital letters of Latin-1 (all of 192-222 but the multiplication sign). *)
Definition lowerChar (c : ascii) : ascii :=
  let n := N_of_ascii c in
  if ((65 <=? n) && (n <=? 90))%N
     || ((192 <=? n) && (n <=? 222) && negb (n =? 215))%N
  then ascii_of_N (n + 32)
  else c.

Fixpoint toLowerCase (s : string) : string :=
  match s with
  | EmptyString => EmptyString
  | String c s' => String (lowerChar c) (toLowerCase s')
  end.

(** [regex.test(s)] for a character class: some character of [s] is in the
    class. *)
Fixpoint testClass (class : ascii → bool) (s : string) : bool :=
  match s with
  | EmptyString => false
  | String c s' => class c || testClass class s'
  end.

Definition inRange (lo hi : N) (c : ascii) : bool :=
  let n := N_of_ascii c in ((lo <=? n) && (n <=? hi))%N.

(** The classes [[a-z]], [[A-Z]], [\d] and
    [[!@#$%^&*()_+\-=\[\]{}|;:,.<>?]] of [validatePasswordStrength]. *)
Definition isLowercaseLetter : ascii → bool := inRange 97 122.
Definition isUppercaseLetter : ascii → bool := inRange 65 90.
Definition isDigit : ascii → bool := inRange 48 57.
Definition isSpecialCharacter (c : ascii) : bool :=
  existsb (Ascii.eqb c)
    ["!"; "@"; "#"; "$"; "%"; "^"; "&"; "*"; "("; ")"; "_"; "+"; "-"; "=";
     "["; "]"; "{"; "}"; "|"; ";"; ":"; ","; "."; "<"; ">"; "?"]%char.

(** ** [CryptoUtils.validatePasswordStrength] *)

Record Validation : Type := mkValidation {
  isValid : bool;
  errors : list string
}.

(** [errors.push(message)] when the condition holds. *)
Definition pushIf (condition : bool) (message : string) (errors : list string)
  : list string :=
  if condition then errors ++ [message] else errors.

Definition validatePasswordStrength (password : string) : Validation :=
  let errors := [] in
  let errors :=
    pushIf (String.length password <? 8)%nat
           "Password must be at least 8 characters long" errors in
  let errors :=
    pushIf (negb (testClass isLowercaseLetter password))
           "Password must contain at least one lowercase letter" errors in
  let errors :=
    pushIf (negb (testClass isUppercaseLetter password))
           "Password must contain at least one uppercase letter" errors in
  let errors :=
    pushIf (negb (testClass isDigit password))
           "Password must contain at least one digit" errors in
  let errors :=
    pushIf (negb (testClass isSpecialCharacter password))
           "Password must contain at least one special character" errors in
  mkValidation (length errors =? 0)%nat errors.

(** ** [searchEntries] of the vault context, for the [state] of a render *)

Definition searchEntries (state : VaultState) (query : string)
  : list PasswordEntry.t :=
  if String.eqb (trim query) EmptyString then entries state
  else
    let lowercaseQuery := toLowerCase query in
    List.filter
      (fun entry =>
         includes (toLowerCase (PasswordEntry.site entry)) lowercaseQuery
         || includes (toLowerCase (PasswordEntry.username entry))
                     lowercaseQuery)
      (entries state).


(** ** [utils/storage.ts]: the users, the current user and the vault keys *)

(** [JSON.stringify] and [JSON.parse] on the list of users and on one user;
    [JSON.parse] of the current user may give [null]. *)
Class UsersJSON : Type := {
  JSON_stringify_users : list User.t → string;
  JSON_parse_users : string → Result (list User.t);
  JSON_stringify_user : User.t → string;
  JSON_parse_user : string → Result (option User.t)
}.

Definition USERS_KEY : string := "password_manager_users".
Definition CURRENT_USER_KEY : string := "password_manager_current_user".

Definition storeUsers `{UsersJSON} (users : list User.t) : M unit :=
  tryCatch
    (let usersJson := JSON_stringify_users users in
     SecureStore_setItemAsync USERS_KEY usersJson)
    (fun error => throw (Error "Failed to store users data")).

Definition getUsers `{UsersJSON} : M (list User.t) :=
  tryCatch
    (do usersJson <- SecureStore_getItemAsync USERS_KEY;
     if SecureStorage.falsy usersJson then ret []
     else liftResult (JSON_parse_users (default EmptyString usersJson)))%M
    (fun error => ret []).

Definition storeCurrentUser `{UsersJSON} (user : User.t) : M unit :=
  tryCatch
    (let userJson := JSON_stringify_user user in
     SecureStore_setItemAsync CURRENT_USER_KEY userJson)
    (fun error => throw (Error "Failed to store current user")).

Definition getCurrentUser `{UsersJSON} : M (option User.t) :=
  tryCatch
    (do userJson <- SecureStore_getItemAsync CURRENT_USER_KEY;
     if SecureStorage.falsy userJson then ret None
     else liftResult (JSON_parse_user (default EmptyString userJson)))%M
    (fun error => ret None).

Definition clearCurrentUser : M unit :=
  tryCatch (SecureStore_deleteItemAsync CURRENT_USER_KEY)
           (fun error => ret tt).

(** [vault !== null]: an empty string counts as a vault. *)
Definition vaultExists (username : string) : M bool :=
  tryCatch
    (let vaultKey := SecureStorage.VAULT_PREFIX +:+ username in
     do vault <- SecureStore_getItemAsync vaultKey;
     ret (match vault with None => false | Some _ => true end))%M
    (fun error => ret false).

Definition deleteVault (username : string) : M unit :=
  tryCatch
    (let vaultKey := SecureStorage.VAULT_PREFIX +:+ username in
     SecureStore_deleteItemAsync vaultKey)
    (fun error => throw (Error "Failed to delete vault")).

(** [for (const user of users) await this.deleteVault(user.username)] *)
Fixpoint deleteVaults (users : list User.t) : M unit :=
  match users with
  | [] => ret tt
  | user :: rest =>
      (exec deleteVault (User.username user);
       deleteVaults rest)%M
  end.

Definition clearAllData `{UsersJSON} : M unit :=
  tryCatch
    (do users <- getUsers;
     exec clearCurrentUser;
     exec SecureStore_deleteItemAsync USERS_KEY;
     deleteVaults users)%M
    (fun error => throw (Error "Failed to clear all data")).

(** A model of [JSON] on users, in the tagged text of the model platform. *)
Definition writeUser (u : User.t) (rest : string) : string :=
  Model.writeText (User.username u) (Model.writeText (User.vault_file u) rest).

Definition readUser (text : string) : option (User.t * string) :=
  '(username, text) ← Model.readText text;
  '(vault_file, text) ← Model.readText text;
  Some (User.mk username vault_file, text).

Fixpoint writeUsers (us : list User.t) (rest : string) : string :=
  match us with
  | [] => String "." rest
  | u :: us' => String "U" (writeUser u (writeUsers us' rest))
  end.

Fixpoint readUsers (fuel : nat) (text : string)
  : option (list User.t * string) :=
  match fuel, text with
  | S fuel', String "." rest => Some ([], rest)
  | S fuel', String "U" text' =>
      '(u, text'') ← readUser text';
      '(us, rest) ← readUsers fuel' text'';
      Some (u :: us, rest)
  | _, _ => None
  end.

Definition syntaxError : Exception :=
  mkException "SyntaxError" "Unexpected token".

Definition modelUsersJSON : UsersJSON := {|
  JSON_stringify_users := fun us => writeUsers us EmptyString;
  JSON_parse_users := fun text =>
    match readUsers (String.length text) text with
    | Some (us, EmptyString) => Ok us
    | _ => Throw syntaxError
    end;
  JSON_stringify_user := fun u => writeUser u EmptyString;
  JSON_parse_user := fun text =>
    match readUser text with
    | Some (u, EmptyString) => Ok (Some u)
    | _ => Throw syntaxError
    end
|}.

(** ** What the remaining screens show and where they navigate *)

Inductive Navigation : Type :=
| Stay                 (* the alert just closes *)
| GoBack               (* [navigation.goBack()] *)
| NavigateToLogin.     (* [navigation.navigate('Login')] *)

(** An alert with the one button [OK]. *)
Record Notice : Type := mkNotice {
  noticeTitle : string;
  noticeMessage : string;
  onOK : Navigation
}.

(** [errors.join(separator)] *)
Fixpoint joinWith (separator : string) (parts : list string) : string :=
  match parts with
  | [] => EmptyString
  | [part] => part
  | part :: rest => part +:+ separator +:+ joinWith separator rest
  end.

Definition newline : string := String "010" EmptyString.

(** ** [screens/AddEntryScreen.tsx]: saving the form *)

Module AddEntryForm.

Record t : Type := mk {
  site : string;
  username : string;
  password : string;
  isLoading : bool;
  alert : option Notice
}.

Definition validateInputs (s : t) : option string :=
  if String.eqb (trim (site s)) EmptyString
  then Some "Website/Service name is required"
  else if String.eqb (trim (username s)) EmptyString
  then Some "Username is required"
  else if String.eqb (trim (password s)) EmptyString
  then Some "Password is required"
  else if (100 <? String.length (site s))%nat
  then Some "Website name is too long (max 100 characters)"
  else if (100 <? String.length (username s))%nat
  then Some "Username is too long (max 100 characters)"
  else if (500 <? String.length (password s))%nat
  then Some "Password is too long (max 500 characters)"
  else None.

(** The message of the [catch] of [handleSave]; every exception of the model
    is an [Error]. *)
Definition saveErrorMessage (error : Exception) : string :=
  if includes (message error) "No user logged in"
  then "Please log in again to save entries"
  else if includes (message error) "Vault is locked"
  then "Your vault is locked. Please unlock it first"
  else if includes (message error) "encryption"
          || includes (message error) "crypto"
  then "Failed to encrypt password data. Please try again"
  else if includes (message error) "SecureStore"
          || includes (message error) "storage"
  then "Failed to save to secure storage. Please check device storage"
  else "Save failed: " +:+ message error.

(** [handleSave], given the [addEntry] of the vault context. *)
Definition handleSave (addEntry : string → string → string → M unit) (s : t)
  : M t :=
  match validateInputs s with
  | Some validationError =>
      ret (mk (site s) (username s) (password s) (isLoading s)
              (Some (mkNotice "Validation Error" validationError Stay)))
  | None =>
      (* setIsLoading(true) ... finally setIsLoading(false) *)
      tryCatch
        (exec addEntry (trim (site s)) (trim (username s)) (password s);
         ret (mk (site s) (username s) (password s) false
                 (Some (mkNotice "Success"
                          "Password entry saved successfully!" GoBack))))%M
        (fun error =>
           ret (mk (site s) (username s) (password s) false
                   (Some (mkNotice "Error" (saveErrorMessage error) Stay))))
  end.

End AddEntryForm.

(** ** [screens/DebugScreen.tsx] *)

Module DebugScreen.

Section Render.

Context `{Platform}.

(** [JSON.stringify(retrieved)] of the failure report. *)
Variable JSON_stringify_entries : list PasswordEntry.t → string.

(** [authState.currentUser], [vaultState] and [addEntry] of the render. *)
Variable currentUser : option User.t.
Variable vaultState : VaultState.
Variable addEntry : string → string → string → M unit.

(** [vaultState.masterPassword || 'testmaster'] *)
Definition testMasterPassword : string :=
  if SecureStorage.falsy (masterPassword vaultState) then "testmaster"
  else default EmptyString (masterPassword vaultState).

(** The functions take the text [debugInfo] on display and return the text
    they leave on display. *)
Definition runStorageTest (debugInfo : string) : M string :=
  fun w =>
    let debugInfo := debugInfo +:+ "Starting storage test..." +:+ newline in
    match currentUser with
    | None => (Ok (debugInfo +:+ "ERROR: No user logged in" +:+ newline), w)
    | Some user =>
        let body : M string :=
          (do createdAt <- newDateISO;
           do updatedAt <- newDateISO;
           let testEntries :=
             [PasswordEntry.mk "test1" "test.com" "testuser" "testpass123"
                               createdAt updatedAt] in
           exec SecureStorage.storeEncryptedVault
                  (User.username user) testEntries testMasterPassword;
           let debugInfo :=
             debugInfo +:+ "Storage write successful" +:+ newline in
           tryCatch
             (do retrieved <- SecureStorage.getEncryptedVault
                                (User.username user) testMasterPassword;
              let debugInfo :=
                debugInfo +:+ "Storage read successful. Entries: "
                +:+ pretty (length retrieved) +:+ newline in
              ret (match retrieved with
                   | [entry] =>
                       if String.eqb (PasswordEntry.password entry)
                                     "testpass123"
                       then debugInfo +:+ "Storage test PASSED" +:+ newline
                       else debugInfo +:+ "Storage test FAILED - entries: "
                            +:+ JSON_stringify_entries retrieved +:+ newline
                   | _ => debugInfo +:+ "Storage test FAILED - entries: "
                          +:+ JSON_stringify_entries retrieved +:+ newline
                   end))
             (fun error =>
                ret (debugInfo +:+ "Storage test FAILED: " +:+ message error
                     +:+ newline)))%M in
        tryCatch body
          (fun error =>
             ret (debugInfo +:+ "Storage test FAILED: " +:+ message error
                  +:+ newline))
          w
    end.

Definition runFullTest (debugInfo : string) : M string :=
  let debugInfo := "Starting full add entry test..." +:+ newline in
  tryCatch
    (exec addEntry "debug.test.com" "debuguser" "debugpass123";
     let debugInfo := debugInfo +:+ "Add entry completed" +:+ newline in
     let foundEntry :=
       List.find (fun e => String.eqb (PasswordEntry.site e) "debug.test.com")
                 (entries vaultState) in
     ret (match foundEntry with
          | Some foundEntry =>
              debugInfo
              +:+ "Entry found in state: " +:+ PasswordEntry.site foundEntry
              +:+ newline
              +:+ "Password saved: "
              +:+ (if String.eqb (PasswordEntry.password foundEntry)
                                 "debugpass123" then "YES" else "NO")
              +:+ newline
              +:+ "Full test PASSED" +:+ newline
          | None =>
              debugInfo +:+ "Full test FAILED - entry not found in state"
              +:+ newline
          end))%M
    (fun error =>
       ret (debugInfo +:+ "Full test FAILED: " +:+ message error +:+ newline)).

End Render.

End DebugScreen.

(** ** Measures used by the properties of the remaining code *)

(** The byte values that make [pickChars] choose the character at index [k]
    of a character set of [size] characters. *)
Definition bytesSelecting (size k : Z) : list Z :=
  List.filter (fun b => b mod size =? k) (map Z.of_nat (seq 0 256)).

(** The character set of a selection of classes, in the order in which
    [generateSecurePassword] appends them. *)
Definition selectedCharset (c : Classes) : string :=
  (if includeLowercase c then CryptoUtils.lowercaseChars else EmptyString)
  +:+ (if includeUppercase c then CryptoUtils.uppercaseChars else EmptyString)
  +:+ (if includeNumbers c then CryptoUtils.digitChars else EmptyString)
  +:+ (if includeSymbols c then CryptoUtils.symbolChars else EmptyString).

(** The identifiers of a list of entries, in order. *)
Definition ids (entries : list PasswordEntry.t) : list string :=
  map PasswordEntry.id entries.


(** The model platform on a device without the Web Crypto API. *)
Definition platformWithoutWebCrypto : Platform := {|
  has_crypto_subtle := false;
  has_btoa := true;
  has_atob := true;
  TextEncoder_encode := UTF8.encode;
  TextDecoder_decode := UTF8.decode;
  PBKDF2_deriveBits := Model.deriveBits;
  AES_GCM_encrypt := Model.seal;
  AES_GCM_decrypt := fun key iv sealed => Model.unseal key sealed;
  JSON_stringify := Model.stringifyUnits;
  JSON_parse := Model.parseUnits;
  toISOString := pretty;
  toString36 := pretty;
  parseInt := Model.parseDecimal;
  maxTypedArrayLength := 4294967295;
  typedArrays_of_65536 := ltac:(lia);
  invalidTypedArrayLength := Model.invalidLength;
  entropyToFixed1 := Model.toFixed1
|}.


(** ** [context/AuthContext.tsx] *)

(** [crypto.subtle.digest('SHA-256', data)] *)
Class Digest : Type := {
  SHA256_digest : Uint8Array → Uint8Array
}.

(** [CryptoUtils.hashPassword]: without [crypto.subtle] the call of [digest]
    throws, and so does [btoa] where it does not work. *)
Definition hashPassword `{Platform} `{Digest} (password : string)
  : Result string :=
  let data := TextEncoder_encode (codeUnits password) in
  if negb has_crypto_subtle
  then Throw (mkException "TypeError"
                "Cannot read properties of undefined (reading 'digest')")
  else
    let hashArray := SHA256_digest data in
    if has_btoa then Ok (Base64.btoa (String_fromCharCode hashArray))
    else Throw (ReferenceError "btoa is not defined").

Module AuthContext.

Record AuthState : Type := mkAuthState {
  isLoggedIn : bool;
  currentUser : option User.t;
  isLoading : bool
}.

Inductive AuthAction : Type :=
| SET_LOADING (payload : bool)
| SET_USER (payload : option User.t)
| LOGOUT.

Definition authReducer (state : AuthState) (action : AuthAction) : AuthState :=
  match action with
  | SET_LOADING payload =>
      mkAuthState (isLoggedIn state) (currentUser state) payload
  | SET_USER payload =>
      mkAuthState (match payload with None => false | Some _ => true end)
                  payload false
  | LOGOUT => mkAuthState false None false
  end.

Definition initialState : AuthState := mkAuthState false None true.

(** The functions of the provider run in the world and on the state that
    the reducer of the provider holds; what they dispatch before an
    exception stays. *)
Record Session : Type := mkSession {
  authState : AuthState;
  world : World
}.

Definition A (T : Type) : Type := Session → Result T * Session.

Definition retA {T} (t : T) : A T := fun s => (Ok t, s).

Definition bindA {T U} (m : A T) (k : T → A U) : A U :=
  fun s => match m s with
           | (Ok t, s') => k t s'
           | (Throw e, s') => (Throw e, s')
           end.

Definition throwA {T} (e : Exception) : A T := fun s => (Throw e, s).

Definition tryCatchA {T} (m : A T) (handler : Exception → A T) : A T :=
  fun s => match m s with
           | (Ok t, s') => (Ok t, s')
           | (Throw e, s') => handler e s'
           end.

(** A computation on the world alone. *)
Definition run {T} (m : M T) : A T :=
  fun s => match m (world s) with
           | (r, w') => (r, mkSession (authState s) w')
           end.

Definition dispatch (action : AuthAction) : A unit :=
  fun s => (Ok tt, mkSession (authReducer (authState s) action) (world s)).

(** [users.find(u => u.username === username)] *)
Definition findUser (username : string) (users : list User.t)
  : option User.t :=
  List.find (fun u => String.eqb (User.username u) username) users.

Section Provider.

Context `{Platform} `{Digest} `{UsersJSON}.

Definition checkAuthStatus : A unit :=
  tryCatchA
    (bindA (dispatch (SET_LOADING true)) (fun _ =>
     bindA (run getCurrentUser) (fun currentUser =>
     dispatch (SET_USER currentUser))))
    (fun error => dispatch (SET_USER None)).

Definition login (username password : string) : A unit :=
  tryCatchA
    (bindA (dispatch (SET_LOADING true)) (fun _ =>
     bindA (run getUsers) (fun users =>
     match findUser username users with
     | None => throwA (Error "User not found")
     | Some user =>
         bindA (run (liftResult (hashPassword password)))
           (fun hashedPassword =>
         bindA (run (storeCurrentUser user)) (fun _ =>
         dispatch (SET_USER (Some user))))
     end)))
    (fun error =>
       bindA (dispatch (SET_LOADING false)) (fun _ => throwA error)).

Definition register (username password : string) : A unit :=
  tryCatchA
    (bindA (dispatch (SET_LOADING true)) (fun _ =>
     bindA (run getUsers) (fun users =>
     match findUser username users with
     | Some _ => throwA (Error "Username already exists")
     | None =>
         let passwordValidation := validatePasswordStrength password in
         if negb (isValid passwordValidation)
         then throwA (Error (joinWith ", " (errors passwordValidation)))
         else
           let newUser :=
             User.mk username ("vault_" +:+ username +:+ ".dat") in
           let updatedUsers := users ++ [newUser] in
           bindA (run (storeUsers updatedUsers)) (fun _ =>
           bindA (run (storeCurrentUser newUser)) (fun _ =>
           dispatch (SET_USER (Some newUser))))
     end)))
    (fun error =>
       bindA (dispatch (SET_LOADING false)) (fun _ => throwA error)).

Definition logout : A unit :=
  tryCatchA
    (bindA (run clearCurrentUser) (fun _ => dispatch LOGOUT))
    (fun error => dispatch LOGOUT).

End Provider.

End AuthContext.

(** ** [screens/RegisterScreen.tsx] *)

Module RegisterScreen.

Record t : Type := mk {
  username : string;
  password : string;
  confirmPassword : string;
  alert : option Notice
}.

Definition showNotice (title text : string) (s : t) : t :=
  mk (username s) (password s) (confirmPassword s)
     (Some (mkNotice title text Stay)).

(** [handleRegister], given the [register] of the authentication context. *)
Definition handleRegister
  (register : string → string → AuthContext.A unit) (s : t)
  : AuthContext.A t :=
  let passwordValidation := validatePasswordStrength (password s) in
  let passwordsMatch := String.eqb (password s) (confirmPassword s) in
  if String.eqb (trim (username s)) EmptyString
  then AuthContext.retA (showNotice "Error" "Please enter a username" s)
  else if (String.length (username s) <? 3)%nat
  then AuthContext.retA
         (showNotice "Error" "Username must be at least 3 characters long" s)
  else if String.eqb (password s) EmptyString
  then AuthContext.retA (showNotice "Error" "Please enter a password" s)
  else if negb (isValid passwordValidation)
  then AuthContext.retA
         (showNotice "Password Requirements"
            (joinWith newline (errors passwordValidation)) s)
  else if negb passwordsMatch
  then AuthContext.retA (showNotice "Error" "Passwords do not match" s)
  else
    AuthContext.tryCatchA
      (AuthContext.bindA (register (trim (username s)) (password s)) (fun _ =>
       AuthContext.retA
         (mk (username s) (password s) (confirmPassword s)
             (Some (mkNotice "Success"
                      "Account created successfully! You can now log in."
                      NavigateToLogin)))))
      (fun error =>
         AuthContext.retA
           (showNotice "Registration Failed"
              (if String.eqb (message error) EmptyString
               then "Failed to create account" else message error)
              s)).

End RegisterScreen.

(** ** [screens/LoginScreen.tsx] *)

Module LoginScreen.

Record t : Type := mk {
  username : string;
  password : string;
  alert : option Notice
}.

(** [handleLogin], given the [login] of the authentication context. *)
Definition handleLogin
  (login : string → string → AuthContext.A unit) (s : t)
  : AuthContext.A t :=
  if String.eqb (trim (username s)) EmptyString
     || String.eqb (trim (password s)) EmptyString
  then AuthContext.retA
         (mk (username s) (password s)
             (Some (mkNotice "Error" "Please enter both username and password"
                             Stay)))
  else
    AuthContext.tryCatchA
      (AuthContext.bindA (login (trim (username s)) (password s)) (fun _ =>
       AuthContext.retA s))
      (fun error =>
         AuthContext.retA
           (mk (username s) (password s)
               (Some (mkNotice "Login Failed"
                        (if String.eqb (message error) EmptyString
                         then "Invalid credentials" else message error)
                        Stay)))).

End LoginScreen.

(** A model of [SHA-256]: not a hash, only a platform to run on. *)
Definition modelDigest : Digest := {| SHA256_digest := fun data => data |}.


(** The operations that change the list of entries. *)
Definition changesEntries (op : Operation) : bool :=
  match op with
  | OpAddEntry _ _ _ | OpUpdateEntry _ _ | OpDeleteEntry _ => true
  | _ => false
  end.

(** The entry that [addEntry] builds in a world: the clock is read for the
    two dates, then for the identifier. *)
Definition addedEntry `{Platform} (site username password : string) (w : World)
  : PasswordEntry.t :=
  PasswordEntry.mk
    (toString36 (clock w (S (clockReads w)))
     +:+ mathRandom w (mathRandomUsed w))
    site username password
    (toISOString (clock w (clockReads w)))
    (toISOString (clock w (clockReads w))).


(** The text of a list of lines, each followed by a line feed. *)
Definition lines (ls : list string) : string :=
  fold_right (fun l rest => l +:+ newline +:+ rest) EmptyString ls.


(** The check of the count of [bytesSelecting] for every index of a
    character set of [size] characters. *)
Definition biasHolds (size : Z) : bool :=
  forallb
    (fun k => Z.of_nat (length (bytesSelecting size k))
              =? 256 / size + (if k <? 256 mod size then 1 else 0))
    (map Z.of_nat (seq 0 (Z.to_nat size)))
  && (0 <? 256 mod size).

(** * Properties *)

(** ** Bytes and base64 *)

Section Base64Facts.

Import Base64.

Create HintDb b64.

Lemma byteValue_range (b : byte) : 0 <= byteValue b < 256.
Proof.
  unfold byteValue. pose proof (Byte.to_N_bounded b). lia.
Qed.

Lemma toUint8_byteValue (b : byte) : toUint8 (byteValue b) = b.
Proof.
  unfold toUint8. pose proof (byteValue_range b) as Hr.
  rewrite Z.mod_small by lia. unfold byteValue.
  rewrite N2Z.id, Byte.of_to_N. reflexivity.
Qed.

(** Induction on a list three elements at a time. *)
Lemma list_ind3 {A} (P : list A -> Prop) :
  P [] -> (forall a, P [a]) -> (forall a b, P [a; b]) ->
  (forall a b c l, P l -> P (a :: b :: c :: l)) ->
  forall l, P l.
Proof.
  intros H0 H1 H2 H3.
  fix IH 1. intros [|a [|b [|c l]]];
    [apply H0 | apply H1 | apply H2 | apply H3, IH].
Qed.


Lemma sextet_cases (n : Z) (f : Z -> bool) :
  isSextet n -> forallb f (map Z.of_nat (seq 0 64)) = true -> f n = true.
Proof.
  intros Hn Hf. rewrite forallb_forall in Hf. apply Hf.
  unfold isSextet in Hn.
  apply in_map_iff. exists (Z.to_nat n). split; [lia|].
  apply in_seq. lia.
Qed.

Lemma sextetOfChar_sextetChar (n : Z) :
  isSextet n -> sextetOfChar (sextetChar n) = Some n.
Proof.
  intros Hn.
  pose proof (sextet_cases n
    (fun n => match sextetOfChar (sextetChar n) with
              | Some m => m =? n
              | None => false
              end) Hn) as Hc.
  cbv beta in Hc. destruct (sextetOfChar (sextetChar n)) as [m|].
  - f_equal. apply Z.eqb_eq, Hc. vm_compute. reflexivity.
  - discriminate Hc. vm_compute. reflexivity.
Qed.

Lemma sextetChar_not_whitespace (n : Z) :
  isSextet n -> isAsciiWhitespace (sextetChar n) = false.
Proof.
  intros Hn. apply negb_true_iff.
  apply (sextet_cases n (fun n => negb (isAsciiWhitespace (sextetChar n))) Hn).
  vm_compute. reflexivity.
Qed.

Lemma sextetChar_not_pad (n : Z) :
  isSextet n -> Ascii.eqb (sextetChar n) "=" = false.
Proof.
  intros Hn. apply negb_true_iff.
  apply (sextet_cases n (fun n => negb (Ascii.eqb (sextetChar n) "=")) Hn).
  vm_compute. reflexivity.
Qed.

Lemma charAt_base64chars (n : Z) :
  isSextet n -> charAt base64chars n = String (sextetChar n) EmptyString.
Proof.
  intros Hn. apply String.eqb_eq.
  apply (sextet_cases n
    (fun n => String.eqb (charAt base64chars n)
                         (String (sextetChar n) EmptyString)) Hn).
  vm_compute. reflexivity.
Qed.

Lemma sextet_range_1 (a : Z) : isByte a -> isSextet (a / 4).
Proof. unfold isByte, isSextet. intros. Z.div_mod_to_equations; lia. Qed.

Lemma sextet_range_2 (a b : Z) :
  isByte b -> isSextet (a mod 4 * 16 + b / 16).
Proof. unfold isByte, isSextet. intros. Z.div_mod_to_equations; lia. Qed.

Lemma sextet_range_3 (b c : Z) :
  isByte c -> isSextet (b mod 16 * 4 + c / 64).
Proof. unfold isByte, isSextet. intros. Z.div_mod_to_equations; lia. Qed.

Lemma sextet_range_4 (c : Z) : isSextet (c mod 64).
Proof. unfold isSextet. Z.div_mod_to_equations; lia. Qed.

Lemma sextet_range_2' (a : Z) : isSextet (a mod 4 * 16).
Proof. unfold isSextet. Z.div_mod_to_equations; lia. Qed.

Lemma sextet_range_3' (b : Z) : isSextet (b mod 16 * 4).
Proof. unfold isSextet. Z.div_mod_to_equations; lia. Qed.

Lemma decode_arith_1 (a b : Z) :
  isByte a -> isByte b -> a / 4 * 4 + (a mod 4 * 16 + b / 16) / 16 = a.
Proof. unfold isByte. intros. Z.div_mod_to_equations; lia. Qed.

Lemma decode_arith_2 (a b c : Z) :
  isByte b -> isByte c ->
  (a mod 4 * 16 + b / 16) mod 16 * 16 + (b mod 16 * 4 + c / 64) / 4 = b.
Proof. unfold isByte. intros. Z.div_mod_to_equations; lia. Qed.

Lemma decode_arith_3 (b c : Z) :
  isByte c -> (b mod 16 * 4 + c / 64) mod 4 * 64 + c mod 64 = c.
Proof. unfold isByte. intros. Z.div_mod_to_equations; lia. Qed.

Lemma decode_arith_1' (a : Z) : a / 4 * 4 + (a mod 4 * 16) / 16 = a.
Proof. Z.div_mod_to_equations; lia. Qed.

Lemma decode_arith_2' (a b : Z) :
  isByte b ->
  (a mod 4 * 16 + b / 16) mod 16 * 16 + (b mod 16 * 4) / 4 = b.
Proof. unfold isByte. intros. Z.div_mod_to_equations; lia. Qed.

#[local] Hint Resolve sextet_range_1 sextet_range_2 sextet_range_3
  sextet_range_4 sextet_range_2' sextet_range_3' : b64.

Lemma sextets_range (l : list Z) :
  Forall isByte l -> Forall isSextet (sextets l).
Proof.
  induction l as [|a|a b|a b c l IH] using list_ind3; intros Hl; cbn [sextets].
  - constructor.
  - inversion_clear Hl. auto with b64.
  - do 2 (inversion Hl as [|? ? ? Hl']; clear Hl; rename Hl' into Hl; subst).
    auto 6 with b64.
  - do 3 (inversion Hl as [|? ? ? Hl']; clear Hl; rename Hl' into Hl; subst).
    auto 8 with b64.
Qed.

Lemma decodeSextets_sextets (l : list Z) :
  Forall isByte l -> decodeSextets (sextets l) = l.
Proof.
  induction l as [|a|a b|a b c l IH] using list_ind3; intros Hl;
    cbn [sextets decodeSextets].
  - reflexivity.
  - by rewrite decode_arith_1'.
  - do 2 (inversion Hl as [|? ? ? Hl']; clear Hl; rename Hl' into Hl; subst).
    by rewrite decode_arith_1, decode_arith_2'.
  - do 3 (inversion Hl as [|? ? ? Hl']; clear Hl; rename Hl' into Hl; subst).
    by rewrite IH, decode_arith_1, decode_arith_2, decode_arith_3.
Qed.


Lemma padding_add3 (n : nat) : padding (S (S (S n))) = padding n.
Proof.
  unfold padding. replace (S (S (S n))) with (n + 1 * 3)%nat by lia.
  by rewrite Nat.Div0.mod_add.
Qed.

Lemma padding_cases (n : nat) :
  padding n = [] \/ padding n = ["="%char] \/ padding n = ["="%char; "="%char].
Proof.
  unfold padding. destruct (n mod 3)%nat as [|[|[|?]]]; auto.
Qed.

Lemma filter_all {A} (f : A -> bool) (l : list A) :
  Forall (fun x => f x = true) l -> List.filter f l = l.
Proof.
  induction 1 as [|x l Hx _ IH]; cbn; [done|]. by rewrite Hx, IH.
Qed.

Lemma encoded_no_whitespace (l : list Z) :
  Forall isByte l ->
  Forall (fun c => negb (isAsciiWhitespace c) = true) (encoded l).
Proof.
  intros Hl. unfold encoded. apply Forall_app. split.
  - apply List.Forall_forall. intros c Hc.
    apply in_map_iff in Hc as (n & <- & Hn).
    pose proof (sextets_range l Hl) as Hs.
    rewrite List.Forall_forall in Hs.
    by rewrite sextetChar_not_whitespace by by apply Hs.
  - destruct (padding_cases (length l)) as [-> | [-> | ->]];
      repeat constructor.
Qed.

Lemma encoded_length (l : list Z) : (length (encoded l) mod 4 = 0)%nat.
Proof.
  unfold encoded.
  induction l as [|a|a b|a b c l IH] using list_ind3; try reflexivity.
  cbn [sextets map length app]. rewrite padding_add3.
  rewrite length_app in IH |- *. cbn [length].
  replace (S (S (S (S (length (map sextetChar (sextets l))
                        + length (padding (length l)))))))
    with (length (map sextetChar (sextets l))
          + length (padding (length l)) + 1 * 4)%nat by lia.
  by rewrite Nat.Div0.mod_add.
Qed.

Lemma sextets_length (l : list Z) :
  (length (map sextetChar (sextets l)) mod 4 =? 1)%nat = false.
Proof.
  induction l as [|a|a b|a b c l IH] using list_ind3; try reflexivity.
  cbn [sextets map length].
  replace (S (S (S (S (length (map sextetChar (sextets l)))))))
    with (length (map sextetChar (sextets l)) + 1 * 4)%nat by lia.
  by rewrite Nat.Div0.mod_add.
Qed.

Lemma isPadding_cons (c : ascii) (l : list ascii) :
  Ascii.eqb c "=" = false -> isPadding (c :: l) = false.
Proof.
  intros Hc. destruct l as [|d [|e l]]; cbn; by rewrite ?Hc.
Qed.

Lemma stripPadding_encoded (ss : list Z) (n : nat) :
  Forall isSextet ss ->
  stripPadding (map sextetChar ss ++ padding n) = map sextetChar ss.
Proof.
  induction 1 as [|s ss Hs _ IH].
  - destruct (padding_cases n) as [-> | [-> | ->]]; reflexivity.
  - cbn [map app stripPadding].
    rewrite isPadding_cons by by apply sextetChar_not_pad.
    by rewrite IH.
Qed.

Lemma mapM_sextetOfChar (ss : list Z) :
  Forall isSextet ss -> mapM sextetOfChar (map sextetChar ss) = Some ss.
Proof.
  intros Hss. apply mapM_fmap_Forall_Some.
  eapply List.Forall_impl; [|exact Hss]. apply sextetOfChar_sextetChar.
Qed.

Lemma byteValues_range (l : list byte) : Forall isByte (map byteValue l).
Proof.
  apply List.Forall_forall. intros z Hz.
  apply in_map_iff in Hz as (b & <- & _). apply byteValue_range.
Qed.

Lemma toUint8_byteValues (l : list byte) : map toUint8 (map byteValue l) = l.
Proof.
  induction l as [|b l IH]; cbn; [done|]. by rewrite toUint8_byteValue, IH.
Qed.

(** [atob] undoes [btoa]. *)
Lemma atob_btoa (binary : string) : atob (btoa binary) = Some binary.
Proof.
  unfold atob, btoa.
  rewrite list_ascii_of_string_of_list_ascii.
  rewrite <- (length_map byteValue (charCodes binary)).
  fold (encoded (map byteValue (charCodes binary))).
  pose proof (byteValues_range (charCodes binary)) as Hb.
  rewrite filter_all by by apply encoded_no_whitespace.
  rewrite encoded_length. cbn [Nat.eqb].
  unfold encoded.
  rewrite stripPadding_encoded by by apply sextets_range.
  rewrite sextets_length.
  rewrite mapM_sextetOfChar by by apply sextets_range.
  rewrite decodeSextets_sextets by done.
  rewrite toUint8_byteValues.
  unfold String_fromCharCode, charCodes.
  by rewrite string_of_list_byte_of_string.
Qed.

Lemma lor_mul_pow2_small (x y k : Z) :
  0 <= k -> 0 <= y < 2 ^ k -> Z.lor (x * 2 ^ k) y = x * 2 ^ k + y.
Proof.
  intros Hk Hy. symmetry. apply Z.add_nocarry_lor.
  apply Z.bits_inj'. intros i Hi.
  rewrite Z.land_spec, Z.bits_0.
  destruct (Z.lt_ge_cases i k) as [Hlt|Hge].
  - by rewrite Z.mul_pow2_bits_low by lia.
  - destruct (Z.eq_dec y 0) as [->|Hne].
    + rewrite Z.bits_0. apply andb_false_r.
    + rewrite (Z.bits_above_log2 y i); [apply andb_false_r|lia|].
      apply Z.log2_lt_pow2; [lia|].
      eapply Z.lt_le_trans; [apply Hy|]. apply Z.pow_le_mono_r; lia.
Qed.

(** The [bitmap] of an iteration is the number whose base-256 digits are
    [a], [b], [c]. *)
Lemma bitmap_value (a b c : Z) :
  isByte a -> isByte b -> isByte c ->
  Z.lor (Z.lor (Z.shiftl a 16) (Z.shiftl b 8)) c = a * 65536 + b * 256 + c.
Proof.
  unfold isByte. intros Ha Hb Hc.
  rewrite !Z.shiftl_mul_pow2 by lia.
  rewrite (lor_mul_pow2_small a (b * 2 ^ 8) 16) by lia.
  replace (a * 2 ^ 16 + b * 2 ^ 8) with ((a * 2 ^ 8 + b) * 2 ^ 8) by lia.
  rewrite lor_mul_pow2_small by lia. lia.
Qed.

Lemma land_63 (x : Z) : Z.land x 63 = x mod 64.
Proof. change 63 with (Z.ones 6). by rewrite Z.land_ones by lia. Qed.

Lemma group_arith (a b c : Z) :
  isByte a -> isByte b -> isByte c ->
  let n := a * 65536 + b * 256 + c in
  (n / 2 ^ 18) mod 64 = a / 4 /\
  (n / 2 ^ 12) mod 64 = a mod 4 * 16 + b / 16 /\
  (n / 2 ^ 6) mod 64 = b mod 16 * 4 + c / 64 /\
  n mod 64 = c mod 64.
Proof.
  unfold isByte. intros Ha Hb Hc. cbv zeta.
  change (2 ^ 18) with 262144. change (2 ^ 12) with 4096.
  change (2 ^ 6) with 64.
  repeat split; Z.div_mod_to_equations; lia.
Qed.

Lemma fallbackGroup_chars (a b c : Z) (ob oc : option Z) :
  isByte a -> isByte b -> isByte c ->
  default 0 ob = b -> default 0 oc = c ->
  fallbackGroup a ob oc =
  String (sextetChar (a / 4))
    (String (sextetChar (a mod 4 * 16 + b / 16))
       ((if ob is Some _
         then String (sextetChar (b mod 16 * 4 + c / 64)) EmptyString
         else "=")
        +:+ (if oc is Some _ then String (sextetChar (c mod 64)) EmptyString
             else "="))).
Proof.
  intros Ha Hb Hc Eb Ec. unfold fallbackGroup. rewrite Eb, Ec.
  rewrite bitmap_value by done.
  rewrite !land_63, !Z.shiftr_div_pow2 by lia.
  destruct (group_arith a b c Ha Hb Hc) as (-> & -> & -> & ->).
  rewrite !charAt_base64chars by auto with b64.
  by destruct ob, oc.
Qed.

Lemma byteValue_isByte (b : byte) : isByte (byteValue b).
Proof. apply byteValue_range. Qed.

Lemma isByte_0 : isByte 0.
Proof. unfold isByte. lia. Qed.

(** The manual encoder computes what [btoa] computes. *)
Lemma fallbackEncode_btoa (combined : Uint8Array) :
  fallbackEncode combined = btoa (String_fromCharCode combined).
Proof.
  unfold btoa, String_fromCharCode, charCodes.
  rewrite list_byte_of_string_of_list_byte.
  induction combined as [|a|a b|a b c l IH] using list_ind3.
  - reflexivity.
  - cbn [fallbackEncode].
    rewrite (fallbackGroup_chars _ 0 0) by
      (auto using byteValue_isByte, isByte_0).
    cbn. by rewrite Z.add_0_r.
  - cbn [fallbackEncode].
    rewrite (fallbackGroup_chars _ (byteValue b) 0) by
      (auto using byteValue_isByte, isByte_0).
    cbn. by rewrite Z.add_0_r.
  - cbn [fallbackEncode].
    rewrite (fallbackGroup_chars _ (byteValue b) (byteValue c)) by
      (auto using byteValue_isByte).
    rewrite IH. cbn [map sextets length app string_of_list_ascii].
    rewrite padding_add3. reflexivity.
Qed.

End Base64Facts.

(** ** Encryption, decryption and the stored vault *)

Section CryptoFacts.

Context `{P : Platform}.
Import CryptoUtils.

Lemma getRandomValues_ok (n : nat) (w : World) :
  Z.of_nat n <= 65536 ->
  getRandomValues n w
  = (Ok (randomBytes w (randomUsed w) n), setRandomUsed (randomUsed w + n) w).
Proof.
  intros Hn. unfold getRandomValues.
  destruct (65536 <? Z.of_nat n) eqn:E; [lia|]. reflexivity.
Qed.

Lemma randomBytes_length (w : World) (from n : nat) :
  length (randomBytes w from n) = n.
Proof. unfold randomBytes. by rewrite length_map, length_seq. Qed.

Lemma typedArraySet_app (pre mid post source : Uint8Array) (offset : nat) :
  length pre = offset -> length mid = length source ->
  typedArraySet (pre ++ mid ++ post) source offset
  = Ok (pre ++ source ++ post).
Proof.
  intros Hpre Hmid. unfold typedArraySet.
  rewrite !length_app.
  destruct (length pre + (length mid + length post) <? offset + length source)%nat
    eqn:E; [apply Nat.ltb_lt in E; lia|].
  rewrite take_app_length' by done.
  rewrite (app_assoc pre mid post).
  rewrite drop_app_length' by (rewrite length_app; lia).
  reflexivity.
Qed.

(** The three [combined.set] calls of [encryptData] lay the salt, the nonce
    and the ciphertext side by side. *)
Lemma combined_layout (salt iv encrypted : Uint8Array) :
  length salt = SALT_LENGTH -> length iv = IV_LENGTH ->
  let combined := newUint8Array (SALT_LENGTH + IV_LENGTH + length encrypted) in
  ∃ c1 c2,
    typedArraySet combined salt 0 = Ok c1 ∧
    typedArraySet c1 iv SALT_LENGTH = Ok c2 ∧
    typedArraySet c2 encrypted (SALT_LENGTH + IV_LENGTH)
    = Ok (salt ++ iv ++ encrypted).
Proof.
  intros Hs Hi combined. subst combined. unfold newUint8Array.
  rewrite !repeat_app.
  exists (salt ++ repeat x00 IV_LENGTH ++ repeat x00 (length encrypted)),
         (salt ++ iv ++ repeat x00 (length encrypted)).
  split; [|split].
  - rewrite <- (app_assoc (repeat x00 SALT_LENGTH)).
    apply (typedArraySet_app [] (repeat x00 SALT_LENGTH)); [done|].
    by rewrite repeat_length.
  - apply (typedArraySet_app salt); [done|]. by rewrite repeat_length.
  - pose proof (typedArraySet_app (salt ++ iv)
                  (repeat x00 (length encrypted)) [] encrypted
                  (SALT_LENGTH + IV_LENGTH)) as Hset.
    rewrite !app_nil_r, <- !app_assoc in Hset. apply Hset.
    + rewrite length_app. by rewrite Hs, Hi.
    + by rewrite repeat_length.
Qed.

Lemma String_fromCharCode_app (a b : Uint8Array) :
  String_fromCharCode (a ++ b) = String_fromCharCode a +:+ String_fromCharCode b.
Proof.
  unfold String_fromCharCode, string_of_list_byte.
  induction a as [|x a IH]; cbn; [done|]. by rewrite IH.
Qed.

Lemma chunkSize_pos : (0 < chunkSize)%nat.
Proof. unfold chunkSize. lia. Qed.

Lemma join_chunkStrings (fuel : nat) (combined : Uint8Array) :
  (length combined <= fuel)%nat ->
  join (chunkStrings fuel combined) = String_fromCharCode combined.
Proof.
  revert combined. induction fuel as [|fuel IH]; intros combined Hlen.
  - destruct combined; [done|]. cbn in Hlen. lia.
  - destruct combined as [|x rest]; [done|].
    cbn [chunkStrings join fold_right]. fold (join (chunkStrings fuel (drop chunkSize (x :: rest)))).
    rewrite IH.
    + rewrite <- String_fromCharCode_app. by rewrite take_drop.
    + rewrite length_drop. pose proof chunkSize_pos. cbn [length] in *. lia.
Qed.

Lemma toBase64_btoa (combined : Uint8Array) :
  toBase64 combined = Base64.btoa (String_fromCharCode combined).
Proof.
  unfold toBase64. destruct has_btoa.
  - destruct (65536 <? Z.of_nat (length combined)); [|done].
    by rewrite join_chunkStrings.
  - apply fallbackEncode_btoa.
Qed.

Lemma deriveKey_ok (password : string) (salt : Uint8Array) :
  has_crypto_subtle = true ->
  deriveKey password salt = Ok (derivedKey password salt).
Proof. intros Hc. unfold deriveKey. by rewrite Hc. Qed.

(** What [encryptData] returns and how it leaves the world. *)
Lemma encryptData_ok (data : JSString) (password : string) (w : World) :
  has_crypto_subtle = true ->
  encryptData data password w
  = (Ok (sealedBlob (drawnSalt w) (drawnIv w)
           (AES_GCM_encrypt (derivedKey password (drawnSalt w)) (drawnIv w)
                            (TextEncoder_encode data))),
     setRandomUsed (randomUsed w + (SALT_LENGTH + IV_LENGTH)) w).
Proof.
  intros Hc. unfold encryptData, tryCatch, bind, liftResult, ret.
  rewrite getRandomValues_ok by (unfold SALT_LENGTH; lia).
  rewrite getRandomValues_ok by (unfold IV_LENGTH; lia).
  cbn [randomUsed setRandomUsed randomSource].
  fold (drawnSalt w).
  change (randomBytes (setRandomUsed (randomUsed w + SALT_LENGTH) w)
            (randomUsed w + SALT_LENGTH) IV_LENGTH) with (drawnIv w).
  rewrite deriveKey_ok by done.
  destruct (combined_layout (drawnSalt w) (drawnIv w)
              (AES_GCM_encrypt (derivedKey password (drawnSalt w)) (drawnIv w)
                               (TextEncoder_encode data)))
    as (c1 & c2 & -> & -> & ->);
    [apply randomBytes_length | apply randomBytes_length |].
  rewrite toBase64_btoa. unfold sealedBlob.
  f_equal. unfold setRandomUsed. cbn [randomUsed]. f_equal.
  unfold SALT_LENGTH, IV_LENGTH. lia.
Qed.

Lemma charCodes_fromCharCode (bytes : Uint8Array) :
  charCodes (String_fromCharCode bytes) = bytes.
Proof. apply list_byte_of_string_of_list_byte. Qed.

(** What [decryptData] does with a sealed blob. *)
Lemma decryptData_sealed (salt iv encrypted : Uint8Array) (password : string) :
  has_atob = true -> has_crypto_subtle = true ->
  length salt = SALT_LENGTH -> length iv = IV_LENGTH ->
  decryptData (sealedBlob salt iv encrypted) password
  = match AES_GCM_decrypt (derivedKey password salt) iv encrypted with
    | Some decryptedBuffer => Ok (TextDecoder_decode decryptedBuffer)
    | None => Throw decryptionFailed
    end.
Proof.
  intros Ha Hc Hs Hi. unfold decryptData, sealedBlob.
  rewrite Ha, atob_btoa, charCodes_fromCharCode.
  unfold slice, sliceFrom. rewrite Nat.sub_0_r, drop_0.
  rewrite (take_app_length' salt) by done.
  rewrite (drop_app_length' salt) by done.
  replace (SALT_LENGTH + IV_LENGTH - SALT_LENGTH)%nat with IV_LENGTH by
    (unfold SALT_LENGTH, IV_LENGTH; lia).
  rewrite (take_app_length' iv) by done.
  rewrite (app_assoc salt iv encrypted).
  rewrite (drop_app_length' (salt ++ iv)) by (rewrite length_app; lia).
  rewrite deriveKey_ok by done.
  by destruct (AES_GCM_decrypt _ _ _).
Qed.

End CryptoFacts.

Lemma encryptData_decryptData `{P : Platform} {laws : PlatformLaws P}
  (p : JSString) (m : string) (w : World) :
  ∃ blob w',
    CryptoUtils.encryptData p m w = (Ok blob, w') ∧
    CryptoUtils.decryptData blob m
    = Ok (TextDecoder_decode (TextEncoder_encode p)).
Proof.
  eexists _, _. split.
  - apply encryptData_ok, crypto_subtle_available.
  - rewrite decryptData_sealed;
      try apply randomBytes_length;
      try apply atob_available; try apply crypto_subtle_available.
    by rewrite AES_GCM_decrypt_encrypt.
Qed.

(** C1, as amended.  Round trip: what [encryptData] seals under a password,
    [decryptData] opens under the same password, and returns the plaintext
    as [TextDecoder] reads back what [TextEncoder] wrote of it; that is the
    plaintext itself exactly when the text encoding carries it unchanged. *)
Theorem encryptData_decryptData_roundtrip
  (P : Platform) (laws : PlatformLaws P) (p : JSString) (m : string)
  (w : World) :
  ∃ blob w',
    CryptoUtils.encryptData p m w = (Ok blob, w') ∧
    CryptoUtils.decryptData blob m
    = Ok (TextDecoder_decode (TextEncoder_encode p)) ∧
    (CryptoUtils.decryptData blob m = Ok p
     <-> TextDecoder_decode (TextEncoder_encode p) = p).
Proof.
  assert (CryptoUtils.decryptData
            (sealedBlob (drawnSalt w) (drawnIv w)
               (AES_GCM_encrypt (derivedKey m (drawnSalt w)) (drawnIv w)
                                (TextEncoder_encode p)))
            m
          = Ok (TextDecoder_decode (TextEncoder_encode p))) as Hopen.
  { rewrite decryptData_sealed;
      try apply randomBytes_length;
      try apply atob_available; try apply crypto_subtle_available.
    by rewrite AES_GCM_decrypt_encrypt. }
  eexists _, _.
  split; [apply encryptData_ok, crypto_subtle_available|].
  split; [exact Hopen|].
  rewrite Hopen. split; [by intros [= ->] | by intros ->].
Qed.

Section StorageFacts.

Context `{P : Platform}.
Import CryptoUtils SecureStorage.

Lemma storeEncryptedVault_ok (username : string)
  (entries : list PasswordEntry.t) (masterPassword : string) (w : World) :
  has_crypto_subtle = true ->
  storeEncryptedVault username entries masterPassword w
  = (Ok tt, storedWorld username entries masterPassword w).
Proof.
  intros Hc. unfold storeEncryptedVault, tryCatch, bind, newDateISO.
  rewrite encryptData_ok by done. reflexivity.
Qed.

Lemma sealedBlob_bytes (salt iv encrypted : Uint8Array) :
  Base64.atob (sealedBlob salt iv encrypted)
  = Some (String_fromCharCode (salt ++ iv ++ encrypted)).
Proof. apply atob_btoa. Qed.

Lemma sealedBlob_nonempty (salt iv encrypted : Uint8Array) :
  length salt = SALT_LENGTH -> sealedBlob salt iv encrypted ≠ EmptyString.
Proof.
  intros Hs Hempty.
  pose proof (sealedBlob_bytes salt iv encrypted) as Hb.
  rewrite Hempty in Hb.
  assert (Base64.atob EmptyString = Some EmptyString) as Hatob by reflexivity.
  rewrite Hatob in Hb. injection Hb as Hb.
  apply (f_equal charCodes) in Hb. rewrite charCodes_fromCharCode in Hb.
  destruct salt; [discriminate Hs | discriminate Hb].
Qed.

Lemma sealedBlob_inj (salt iv encrypted salt' iv' encrypted' : Uint8Array) :
  length salt = length salt' -> length iv = length iv' ->
  sealedBlob salt iv encrypted = sealedBlob salt' iv' encrypted' ->
  salt = salt' ∧ iv = iv' ∧ encrypted = encrypted'.
Proof.
  intros Hs Hi Heq.
  pose proof (sealedBlob_bytes salt iv encrypted) as Hb.
  rewrite Heq, sealedBlob_bytes in Hb. injection Hb as Hb.
  apply (f_equal charCodes) in Hb. rewrite !charCodes_fromCharCode in Hb.
  apply app_inj_1 in Hb as [-> Hb]; [|done].
  apply app_inj_1 in Hb as [-> ->]; done.
Qed.

Lemma falsy_nonempty (s : string) :
  s ≠ EmptyString -> falsy (Some s) = false.
Proof. intros Hs. cbn. by apply String.eqb_neq. Qed.

(** Loading a sealed vault: the entries when the blob opens under the
    password, the error [Invalid master password] when it does not. *)
Lemma getEncryptedVault_sealed (username masterPassword : string) (w : World)
  (salt iv encrypted : Uint8Array) :
  has_atob = true -> has_crypto_subtle = true ->
  length salt = SALT_LENGTH -> length iv = IV_LENGTH ->
  secureStore w !! vaultKey username = Some (sealedBlob salt iv encrypted) ->
  getEncryptedVault username masterPassword w
  = match AES_GCM_decrypt (derivedKey masterPassword salt) iv encrypted with
    | Some decryptedBuffer =>
        match JSON_parse (TextDecoder_decode decryptedBuffer) with
        | Ok vaultData => (Ok (default [] (vd_entries vaultData)), w)
        | Throw e =>
            if includes (message e) "Decryption failed"
            then (Throw (Error "Invalid master password"), w)
            else (Throw (Error "Failed to retrieve vault data"), w)
        end
    | None => (Throw (Error "Invalid master password"), w)
    end.
Proof.
  intros Ha Hc Hs Hi Hstore.
  unfold getEncryptedVault, tryCatch, bind, SecureStore_getItemAsync,
    liftResult, ret, throw.
  fold (vaultKey username). rewrite Hstore.
  rewrite falsy_nonempty by by apply sealedBlob_nonempty.
  cbn [default from_option]. unfold Datatypes.id.
  rewrite decryptData_sealed by done.
  destruct (AES_GCM_decrypt _ _ _) as [buffer|]; [|reflexivity].
  destruct (JSON_parse _) as [vaultData|e]; [reflexivity|].
  by destruct (includes _ _).
Qed.

End StorageFacts.

Section VaultFacts.

Context `{P : Platform} {laws : PlatformLaws P}.
Import CryptoUtils SecureStorage.

Lemma storedWorld_lookup (username : string) (entries : list PasswordEntry.t)
  (masterPassword : string) (w : World) :
  secureStore (storedWorld username entries masterPassword w)
    !! vaultKey username
  = Some (storedBlob entries masterPassword w).
Proof. unfold storedWorld. cbn [secureStore setSecureStore]. apply lookup_insert_eq. Qed.

(** A world whose store holds the blob of a save loads it under the password
    of the save. *)
Lemma getEncryptedVault_storedBlob (username : string)
  (entries : list PasswordEntry.t) (masterPassword : string) (w w' : World) :
  secureStore w' !! vaultKey username
  = Some (storedBlob entries masterPassword w) ->
  getEncryptedVault username masterPassword w' = (Ok entries, w').
Proof.
  intros Hstore.
  rewrite (getEncryptedVault_sealed _ _ _ (drawnSalt w) (drawnIv w)
             (AES_GCM_encrypt (derivedKey masterPassword (drawnSalt w))
                (drawnIv w)
                (TextEncoder_encode
                   (JSON_stringify (storedVaultData entries w)))));
    try apply randomBytes_length;
    try apply atob_available; try apply crypto_subtle_available;
    try exact Hstore.
  by rewrite AES_GCM_decrypt_encrypt, JSON_text_roundtrip,
    JSON_parse_stringify.
Qed.

(** It loads it under every password that derives the same key. *)
Lemma getEncryptedVault_storedBlob_same_key (username : string)
  (entries : list PasswordEntry.t) (masterPassword other : string)
  (w w' : World) :
  derivedKey other (drawnSalt w) = derivedKey masterPassword (drawnSalt w) ->
  secureStore w' !! vaultKey username
  = Some (storedBlob entries masterPassword w) ->
  getEncryptedVault username other w' = (Ok entries, w').
Proof.
  intros Hkey Hstore.
  rewrite (getEncryptedVault_sealed _ _ _ (drawnSalt w) (drawnIv w)
             (AES_GCM_encrypt (derivedKey masterPassword (drawnSalt w))
                (drawnIv w)
                (TextEncoder_encode
                   (JSON_stringify (storedVaultData entries w)))));
    try apply randomBytes_length;
    try apply atob_available; try apply crypto_subtle_available;
    try exact Hstore.
  by rewrite Hkey, AES_GCM_decrypt_encrypt, JSON_text_roundtrip,
    JSON_parse_stringify.
Qed.

(** It does not load it under a password whose key the cipher rejects. *)
Lemma getEncryptedVault_storedBlob_wrong (username : string)
  (entries : list PasswordEntry.t) (masterPassword other : string)
  (w w' : World) :
  AES_GCM_decrypt (derivedKey other (drawnSalt w)) (drawnIv w)
    (storedCiphertext entries masterPassword w) = None ->
  secureStore w' !! vaultKey username
  = Some (storedBlob entries masterPassword w) ->
  getEncryptedVault username other w'
  = (Throw (Error "Invalid master password"), w').
Proof.
  intros Hwrong Hstore. unfold storedCiphertext in Hwrong.
  rewrite (getEncryptedVault_sealed _ _ _ (drawnSalt w) (drawnIv w)
             (AES_GCM_encrypt (derivedKey masterPassword (drawnSalt w))
                (drawnIv w)
                (TextEncoder_encode
                   (JSON_stringify (storedVaultData entries w)))));
    try apply randomBytes_length;
    try apply atob_available; try apply crypto_subtle_available;
    try exact Hstore.
  by rewrite Hwrong.
Qed.

Lemma getEncryptedVault_storedWorld (username : string)
  (entries : list PasswordEntry.t) (masterPassword : string) (w : World) :
  getEncryptedVault username masterPassword
    (storedWorld username entries masterPassword w)
  = (Ok entries, storedWorld username entries masterPassword w).
Proof.
  eapply getEncryptedVault_storedBlob, storedWorld_lookup.
Qed.

End VaultFacts.

(** C3.  Loading the vault of a user whose storage key holds nothing returns
    the empty entry list, without an error, whatever the master password. *)
Theorem getEncryptedVault_absent
  (P : Platform) (username masterPassword : string) (w : World) :
  secureStore w !! (SecureStorage.VAULT_PREFIX +:+ username) = None ->
  SecureStorage.getEncryptedVault username masterPassword w = (Ok [], w).
Proof.
  intros Hnone.
  unfold SecureStorage.getEncryptedVault, tryCatch, bind,
    SecureStore_getItemAsync.
  by rewrite Hnone.
Qed.

(** C4.  Whenever [decryptData] fails, whatever the cause, the error is the
    one generic decryption failure and there is no plaintext; loading a
    stored blob that fails to decrypt reports [Invalid master password]. *)
Theorem decryptData_failure_is_generic
  (P : Platform) (blob password : string) (e : Exception) :
  CryptoUtils.decryptData blob password = Throw e ->
  e = Error "Decryption failed - invalid password or corrupted data" ∧
  (∀ plaintext, CryptoUtils.decryptData blob password ≠ Ok plaintext) ∧
  (∀ username w,
     secureStore w !! (SecureStorage.VAULT_PREFIX +:+ username) = Some blob ->
     blob ≠ EmptyString ->
     SecureStorage.getEncryptedVault username password w
     = (Throw (Error "Invalid master password"), w)).
Proof.
  intros Hfail.
  assert (e = Error "Decryption failed - invalid password or corrupted data")
    as ->.
  { unfold CryptoUtils.decryptData in Hfail.
    repeat match type of Hfail with
           | context [match ?x with _ => _ end] => destruct x
           end; congruence. }
  split; [done|]. split; [congruence|].
  intros username w Hstore Hne.
  unfold SecureStorage.getEncryptedVault, tryCatch, bind,
    SecureStore_getItemAsync, liftResult.
  rewrite Hstore, falsy_nonempty by done.
  cbn [default from_option]. unfold Datatypes.id. by rewrite Hfail.
Qed.

(** C5.  Two saves of the same entries under the same master password both
    succeed; the first seals under the 32 + 12 bytes that the random source
    of the starting world holds next, the second under the 32 + 12 bytes
    after those, so no byte of the source is used twice; the two stored
    blobs differ as soon as those two stretches of the source differ; and
    each blob loads back to the entries that were saved. *)
Theorem storeEncryptedVault_twice_fresh
  (P : Platform) (laws : PlatformLaws P)
  (username : string) (p : list PasswordEntry.t) (m : string) (w : World) :
  let salt1 := randomBytes w (randomUsed w) 32 in
  let iv1 := randomBytes w (randomUsed w + 32) 12 in
  let salt2 := randomBytes w (randomUsed w + 44) 32 in
  let iv2 := randomBytes w (randomUsed w + 76) 12 in
  ∃ w1 w2 encrypted1 encrypted2,
    SecureStorage.storeEncryptedVault username p m w = (Ok tt, w1) ∧
    SecureStorage.storeEncryptedVault username p m w1 = (Ok tt, w2) ∧
    secureStore w1 !! (SecureStorage.VAULT_PREFIX +:+ username)
    = Some (sealedBlob salt1 iv1 encrypted1) ∧
    secureStore w2 !! (SecureStorage.VAULT_PREFIX +:+ username)
    = Some (sealedBlob salt2 iv2 encrypted2) ∧
    ((salt1, iv1) ≠ (salt2, iv2) ->
     sealedBlob salt1 iv1 encrypted1 ≠ sealedBlob salt2 iv2 encrypted2) ∧
    SecureStorage.getEncryptedVault username m w1 = (Ok p, w1) ∧
    SecureStorage.getEncryptedVault username m w2 = (Ok p, w2).
Proof.
  intros salt1 iv1 salt2 iv2.
  set (w1 := storedWorld username p m w).
  set (w2 := storedWorld username p m w1).
  assert (drawnSalt w = salt1) as Hs1 by reflexivity.
  assert (drawnIv w = iv1) as Hi1 by reflexivity.
  assert (drawnSalt w1 = salt2) as Hs2.
  { unfold drawnSalt, w1, storedWorld. cbn [randomUsed setSecureStore
      setRandomUsed setClockReads randomSource]. unfold randomBytes.
    apply map_ext. intros i. reflexivity. }
  assert (drawnIv w1 = iv2) as Hi2.
  { unfold drawnIv, w1, storedWorld. cbn [randomUsed setSecureStore
      setRandomUsed setClockReads randomSource]. unfold randomBytes.
    apply map_ext. intros i. f_equal.
    unfold CryptoUtils.SALT_LENGTH, CryptoUtils.IV_LENGTH. lia. }
  exists w1, w2, (storedCiphertext p m w), (storedCiphertext p m w1).
  split; [apply storeEncryptedVault_ok, crypto_subtle_available|].
  split; [apply storeEncryptedVault_ok, crypto_subtle_available|].
  split.
  { unfold w1. rewrite storedWorld_lookup. unfold storedBlob, storedCiphertext.
    by rewrite Hs1, Hi1. }
  split.
  { unfold w2. rewrite storedWorld_lookup. unfold storedBlob, storedCiphertext.
    by rewrite Hs2, Hi2. }
  split; [|split; apply getEncryptedVault_storedWorld].
  intros Hfresh Heq. apply Hfresh.
  apply sealedBlob_inj in Heq as (-> & -> & _);
    [done | by unfold salt1, salt2, iv1, iv2; rewrite !randomBytes_length ..].
Qed.

(** ** The password generator *)

Section GeneratorFacts.

Context `{P : Platform}.
Import CryptoUtils.

Lemma get_in_range (s : string) (k : nat) :
  (k < String.length s)%nat ->
  ∃ c, String.get k s = Some c ∧ In c (list_ascii_of_string s).
Proof.
  revert k. induction s as [|c s IH]; intros k Hk; cbn in Hk; [lia|].
  destruct k as [|k]; cbn.
  - exists c. auto.
  - destruct (IH k) as (c' & Hget & Hin); [lia|]. exists c'. auto.
Qed.

(** With a non-empty character set, every step of the loop appends one
    character of the set. *)
Lemma charsetAt_mod (charset : string) (x : byte) :
  (0 < String.length charset)%nat ->
  ∃ c, charsetAt charset (byteValue x mod Z.of_nat (String.length charset))
       = String c EmptyString
       ∧ In c (list_ascii_of_string charset).
Proof.
  intros Hlen. unfold charsetAt.
  pose proof (byteValue_range x) as Hx.
  pose proof (Z.mod_pos_bound (byteValue x) (Z.of_nat (String.length charset)))
    as Hmod.
  destruct (_ <? 0) eqn:E; [lia|].
  destruct (get_in_range charset
              (Z.to_nat (byteValue x mod Z.of_nat (String.length charset))))
    as (c & -> & Hin); [lia|].
  exists c. auto.
Qed.

Lemma pickChars_length (charset : string) (array : Uint8Array) :
  (0 < String.length charset)%nat ->
  String.length (pickChars charset array) = length array.
Proof.
  intros Hlen. induction array as [|x array IH]; [done|].
  cbn [pickChars]. destruct (charsetAt_mod charset x Hlen) as (c & -> & _).
  change (S (String.length (pickChars charset array)) = S (length array)).
  by rewrite IH.
Qed.

Lemma pickChars_in (charset : string) (array : Uint8Array) (c : ascii) :
  (0 < String.length charset)%nat ->
  In c (list_ascii_of_string (pickChars charset array)) ->
  In c (list_ascii_of_string charset).
Proof.
  intros Hlen. induction array as [|x array IH]; [done|].
  cbn [pickChars]. destruct (charsetAt_mod charset x Hlen) as (c' & -> & Hc').
  change (In c (c' :: list_ascii_of_string (pickChars charset array))
          -> In c (list_ascii_of_string charset)).
  intros [<- | Hin]; auto.
Qed.

(** The run of the generator with length 16 and all classes. *)
Lemma generateSecurePassword_16 (w : World) :
  generateSecurePassword 16 true true true true w
  = (Ok (mkGenerated (pickChars fullCharset (randomBytes w (randomUsed w) 16))
                     (LengthTimesLog2 16 89)),
     setRandomUsed (randomUsed w + 16) w).
Proof.
  unfold generateSecurePassword. cbn [buildCharset].
  pose proof typedArrays_of_65536 as Hmax.
  destruct (maxTypedArrayLength <? 16) eqn:E; [lia|]. reflexivity.
Qed.

Lemma fullCharset_length : String.length fullCharset = 88%nat.
Proof. reflexivity. Qed.

Lemma fullCharset_NoDup : NoDup (list_ascii_of_string fullCharset).
Proof. apply (bool_decide_unpack _). by vm_compute. Qed.

Local Open Scope R_scope.

Lemma ln_2_pos : 0 < ln 2.
Proof. rewrite <- ln_1. apply ln_increasing; lra. Qed.

(** [16 * log2 size < 104] as soon as [size ^ 2 < 2 ^ 13], and
    [104 < 16 * log2 size] as soon as [2 ^ 13 < size ^ 2]. *)
Lemma entropy_16_below_104 (size : R) :
  0 < size -> size ^ 2 < 2 ^ 13 -> 16 * log2 size < 104.
Proof.
  intros Hpos Hlt. unfold log2.
  assert (ln (size ^ 2) < ln (2 ^ 13)) as Hln.
  { apply ln_increasing; [apply pow_lt; lra | exact Hlt]. }
  rewrite !ln_pow in Hln by lra. cbn [INR] in Hln.
  pose proof ln_2_pos as H2.
  apply (Rmult_lt_reg_r (ln 2)); [exact H2|].
  replace (16 * (ln size / ln 2) * ln 2) with (16 * ln size) by (field; lra).
  lra.
Qed.

Lemma entropy_16_above_104 (size : R) :
  0 < size -> 2 ^ 13 < size ^ 2 -> 104 < 16 * log2 size.
Proof.
  intros Hpos Hlt. unfold log2.
  assert (ln (2 ^ 13) < ln (size ^ 2)) as Hln.
  { apply ln_increasing; [apply pow_lt; lra | exact Hlt]. }
  rewrite !ln_pow in Hln by lra. cbn [INR] in Hln.
  pose proof ln_2_pos as H2.
  apply (Rmult_lt_reg_r (ln 2)); [exact H2|].
  replace (16 * (ln size / ln 2) * ln 2) with (16 * ln size) by (field; lra).
  lra.
Qed.

Lemma log2_increasing (x y : R) : 0 < x -> x <= y -> log2 x <= log2 y.
Proof.
  intros Hx Hxy. unfold log2. pose proof ln_2_pos.
  apply Rmult_le_compat_r; [left; by apply Rinv_0_lt_compat|].
  destruct Hxy as [Hlt | ->]; [left; by apply ln_increasing | right; done].
Qed.

End GeneratorFacts.

(** C2, as amended.  With length 16 and all four classes, the generator
    returns a password of exactly 16 characters, each from the 88-character
    union of the lowercase letters (26), the uppercase letters (26), the
    digits (10) and the 26 symbols; the entropy it reports is 16 times the
    binary logarithm of a size between 88 and 89, hence below 104 bits. *)
Theorem generateSecurePassword_16_all_classes (P : Platform) (w : World) :
  ∃ r w',
    CryptoUtils.generateSecurePassword 16 true true true true w = (Ok r, w') ∧
    String.length (CryptoUtils.password r) = 16%nat ∧
    (∀ c, In c (list_ascii_of_string (CryptoUtils.password r)) ->
          In c (list_ascii_of_string fullCharset)) ∧
    String.length CryptoUtils.lowercaseChars = 26%nat ∧
    String.length CryptoUtils.uppercaseChars = 26%nat ∧
    String.length CryptoUtils.digitChars = 10%nat ∧
    String.length CryptoUtils.symbolChars = 26%nat ∧
    String.length fullCharset = 88%nat ∧
    NoDup (list_ascii_of_string fullCharset) ∧
    (∃ size, CryptoUtils.entropy r = CryptoUtils.LengthTimesLog2 16 size
             ∧ 88 <= size <= 89) ∧
    (CryptoUtils.entropyBits (CryptoUtils.entropy r) < 104)%R.
Proof.
  eexists _, _. split; [apply generateSecurePassword_16|].
  cbn [CryptoUtils.password CryptoUtils.entropy].
  split.
  { rewrite pickChars_length by (rewrite fullCharset_length; lia).
    apply randomBytes_length. }
  split.
  { intros c. apply pickChars_in. rewrite fullCharset_length. lia. }
  do 5 (split; [reflexivity|]).
  split; [apply fullCharset_NoDup|].
  split; [exists 89; split; [reflexivity | lia]|].
  cbn [CryptoUtils.entropyBits].
  apply entropy_16_below_104; lra.
Qed.

(** C2, as stated, fails: on the model world the reported entropy is not
    [16 * log2 95], the union of the classes does not have 95 characters and
    the symbol class does not have 27. *)
Lemma generateSecurePassword_16_not_95 :
  ∃ r w',
    @CryptoUtils.generateSecurePassword Model.platform 16 true true true true
      Model.world
    = (Ok r, w') ∧
    CryptoUtils.entropyBits (CryptoUtils.entropy r) ≠ (16 * log2 95)%R ∧
    String.length fullCharset ≠ 95%nat ∧
    String.length CryptoUtils.symbolChars ≠ 27%nat.
Proof.
  eexists _, _.
  split; [apply (@generateSecurePassword_16 Model.platform)|].
  split; [|split; [rewrite fullCharset_length; lia | cbn; lia]].
  cbn [CryptoUtils.entropy CryptoUtils.entropyBits].
  pose proof (entropy_16_below_104 89) as Hlow.
  pose proof (entropy_16_above_104 95) as Hhigh.
  lra.
Qed.

Section ScreenFacts.

Context `{P : Platform}.

Lemma lengthRejected_outside (n : option Z) (lo hi : Z) :
  outsideRange n lo hi -> lengthRejected n lo hi = true.
Proof.
  destruct n as [z|]; cbn; [|done].
  intros [Hlo | Hhi]; apply orb_true_iff; [left | right]; lia.
Qed.

Lemma noneSelected_none (c : Classes) :
  noClassSelected c -> noneSelected c = true.
Proof. intros (Hs & Hn & Hu & Hl). unfold noneSelected. by rewrite Hs, Hn, Hu, Hl. Qed.

Lemma generateSecurePassword_no_class (length : Z) (w : World) :
  CryptoUtils.generateSecurePassword length false false false false w
  = (Throw (Error "At least one character type must be selected"), w).
Proof. reflexivity. Qed.

Lemma PasswordGeneratorScreen_rejects (s : PasswordGeneratorScreen.t)
  (w : World) :
  outsideRange (parseInt (PasswordGeneratorScreen.length s)) 4 128
  ∨ noClassSelected (PasswordGeneratorScreen.classes s) ->
  ∃ reason,
    PasswordGeneratorScreen.generatePassword s w
    = (Ok (PasswordGeneratorScreen.mk
             (PasswordGeneratorScreen.length s)
             (PasswordGeneratorScreen.classes s)
             (PasswordGeneratorScreen.generatedPassword s)
             (PasswordGeneratorScreen.entropy s)
             (Some (Alert_alert "Invalid Settings" reason))),
       w).
Proof.
  intros Hbad.
  unfold PasswordGeneratorScreen.generatePassword,
    PasswordGeneratorScreen.validateSettings.
  destruct (lengthRejected _ 4 128) eqn:Hlen; [by eexists|].
  destruct Hbad as [Hout | Hnone].
  - apply lengthRejected_outside in Hout. congruence.
  - rewrite noneSelected_none by done. by eexists.
Qed.

Lemma AddEntryScreen_rejects (s : AddEntryScreen.t) (w : World) :
  outsideRange (parseInt (AddEntryScreen.generatorLength s)) 8 128
  ∨ noClassSelected (AddEntryScreen.classes s) ->
  ∃ reason,
    AddEntryScreen.generatePassword s w
    = (Ok (AddEntryScreen.mk
             (AddEntryScreen.password s)
             (AddEntryScreen.generatorLength s)
             (AddEntryScreen.classes s)
             (Some (Alert_alert "Error" reason))
             (AddEntryScreen.reported s)),
       w).
Proof.
  intros Hbad.
  unfold AddEntryScreen.generatePassword, tryCatch.
  destruct (lengthRejected _ 8 128) eqn:Hlen; [by eexists|].
  destruct Hbad as [Hout | Hnone].
  - apply lengthRejected_outside in Hout. congruence.
  - rewrite noneSelected_none by done. by eexists.
Qed.

End ScreenFacts.

(** C8.  The generator fails when no character class is selected — the
    function itself throws, each screen shows its validation alert — and
    each screen fails when the requested length is not a number or lies
    outside its range, 4 to 128 on the generator screen and 8 to 128 on the
    add-entry screen; in every such case the screen keeps the password it
    had and no password is produced. *)
Theorem generator_rejects_invalid_settings (P : Platform) (w : World) :
  (∀ length,
     CryptoUtils.generateSecurePassword length false false false false w
     = (Throw (Error "At least one character type must be selected"), w)) ∧
  (∀ s : PasswordGeneratorScreen.t,
     outsideRange (parseInt (PasswordGeneratorScreen.length s)) 4 128
     ∨ noClassSelected (PasswordGeneratorScreen.classes s) ->
     ∃ s' reason,
       PasswordGeneratorScreen.generatePassword s w = (Ok s', w) ∧
       PasswordGeneratorScreen.generatedPassword s'
       = PasswordGeneratorScreen.generatedPassword s ∧
       PasswordGeneratorScreen.entropy s' = PasswordGeneratorScreen.entropy s ∧
       PasswordGeneratorScreen.alert s'
       = Some (Alert_alert "Invalid Settings" reason)) ∧
  (∀ s : AddEntryScreen.t,
     outsideRange (parseInt (AddEntryScreen.generatorLength s)) 8 128
     ∨ noClassSelected (AddEntryScreen.classes s) ->
     ∃ s' reason,
       AddEntryScreen.generatePassword s w = (Ok s', w) ∧
       AddEntryScreen.password s' = AddEntryScreen.password s ∧
       AddEntryScreen.reported s' = AddEntryScreen.reported s ∧
       AddEntryScreen.alert s' = Some (Alert_alert "Error" reason)).
Proof.
  split; [intros; apply generateSecurePassword_no_class|]. split.
  - intros s Hbad.
    destruct (PasswordGeneratorScreen_rejects s w Hbad) as (reason & ->).
    by eexists _, _.
  - intros s Hbad.
    destruct (AddEntryScreen_rejects s w Hbad) as (reason & ->).
    by eexists _, _.
Qed.

(** ** The vault state and the vault operations *)

Section Frames.

Context `{P : Platform}.

Lemma frames_ret {A} (a : A) : framesReducer (ret a).
Proof. by intros w. Qed.

Lemma frames_throw {A} (e : Exception) : framesReducer (@throw A e).
Proof. by intros w. Qed.

Lemma frames_liftResult {A} (r : Result A) : framesReducer (liftResult r).
Proof. by intros w. Qed.

Lemma frames_bind {A B} (m : M A) (k : A -> M B) :
  framesReducer m -> (∀ a, framesReducer (k a)) -> framesReducer (bind m k).
Proof.
  intros Hm Hk w. unfold bind. specialize (Hm w).
  destruct (m w) as [[a|e] w']; cbn in *; [|done].
  by rewrite Hk.
Qed.

Lemma frames_tryCatch {A} (m : M A) (handler : Exception -> M A) :
  framesReducer m -> (∀ e, framesReducer (handler e)) ->
  framesReducer (tryCatch m handler).
Proof.
  intros Hm Hh w. unfold tryCatch. specialize (Hm w).
  destruct (m w) as [[a|e] w']; cbn in *; [done|].
  by rewrite Hh.
Qed.

Lemma frames_getRandomValues (n : nat) : framesReducer (getRandomValues n).
Proof. intros w. unfold getRandomValues. by destruct (_ <? _). Qed.

Lemma frames_newDateISO : framesReducer newDateISO.
Proof. by intros w. Qed.

Lemma frames_Date_now : framesReducer Date_now.
Proof. by intros w. Qed.

Lemma frames_Math_random_base36 : framesReducer Math_random_base36.
Proof. by intros w. Qed.

Lemma frames_setItemAsync (key value : string) :
  framesReducer (SecureStore_setItemAsync key value).
Proof. by intros w. Qed.

Lemma frames_getItemAsync (key : string) :
  framesReducer (SecureStore_getItemAsync key).
Proof. by intros w. Qed.

Create HintDb frames.
#[local] Hint Resolve frames_ret frames_throw frames_liftResult
  frames_getRandomValues frames_newDateISO frames_Date_now
  frames_Math_random_base36 frames_setItemAsync frames_getItemAsync : frames.

(** Decompose a computation along its binds and handlers. *)
Ltac frames :=
  repeat first
    [ apply frames_bind; [|intros ?]
    | apply frames_tryCatch; [|intros ?]
    | progress auto with frames
    | match goal with
      | |- framesReducer (if ?b then _ else _) => destruct b
      | |- framesReducer (match ?x with _ => _ end) => destruct x
      end ].

Lemma frames_encryptData (data : JSString) (password : string) :
  framesReducer (CryptoUtils.encryptData data password).
Proof. unfold CryptoUtils.encryptData. frames. Qed.

Lemma frames_storeEncryptedVault (username : string)
  (entries : list PasswordEntry.t) (masterPassword : string) :
  framesReducer
    (SecureStorage.storeEncryptedVault username entries masterPassword).
Proof.
  unfold SecureStorage.storeEncryptedVault.
  pose proof frames_encryptData. frames.
Qed.

Lemma frames_getEncryptedVault (username masterPassword : string) :
  framesReducer (SecureStorage.getEncryptedVault username masterPassword).
Proof. unfold SecureStorage.getEncryptedVault. frames. Qed.

Lemma frames_generateUniqueId : framesReducer SecureStorage.generateUniqueId.
Proof. unfold SecureStorage.generateUniqueId. frames. Qed.

Lemma frames_updateEntries (id : string) (updates : PartialEntry.t)
  (entries : list PasswordEntry.t) :
  framesReducer (updateEntries id updates entries).
Proof.
  induction entries as [|entry rest IH]; cbn [updateEntries]; frames.
Qed.

Lemma frames_saveVault (currentUser : option User.t) (state : VaultState) :
  framesReducer (VaultProvider.saveVault currentUser state).
Proof.
  unfold VaultProvider.saveVault.
  pose proof frames_storeEncryptedVault. frames.
Qed.


Lemma setReducerState_eta (w : World) :
  setReducerState
    (mkVaultState (entries (reducerState w)) (isLocked (reducerState w))
                  (masterPassword (reducerState w)))
    w
  = w.
Proof. by destruct w as [? ? ? ? ? ? ? []]. Qed.

(** The [UPDATE_ENTRY] map and the [DELETE_ENTRY] filter on an [id] that no
    entry has. *)
Lemma updateEntries_absent (id : string) (updates : PartialEntry.t)
  (entries : list PasswordEntry.t) (w : World) :
  idAbsent id entries -> updateEntries id updates entries w = (Ok entries, w).
Proof.
  induction 1 as [|entry rest Hne _ IH]; [done|].
  cbn [updateEntries]. unfold bind.
  apply String.eqb_neq in Hne. rewrite Hne. cbn. by rewrite IH.
Qed.

Lemma filter_absent (id : string) (entries : list PasswordEntry.t) :
  idAbsent id entries ->
  List.filter (fun entry => negb (String.eqb (PasswordEntry.id entry) id))
              entries
  = entries.
Proof.
  intros Habsent. apply filter_all.
  eapply List.Forall_impl; [|exact Habsent].
  intros entry Hne. cbn. apply String.eqb_neq in Hne. by rewrite Hne.
Qed.

Lemma updateEntries_ok (id : string) (updates : PartialEntry.t)
  (entries : list PasswordEntry.t) (w : World) :
  ∃ entries' w',
    updateEntries id updates entries w = (Ok entries', w') ∧
    (entries = [] -> entries' = []).
Proof.
  revert w. induction entries as [|entry rest IH]; intros w.
  - by eexists _, _.
  - cbn [updateEntries]. unfold bind.
    destruct (String.eqb _ _); cbn.
    + destruct (IH (setClockReads (S (clockReads w)) w))
        as (rest' & w' & -> & _).
      by eexists _, _.
    + destruct (IH w) as (rest' & w' & -> & _). by eexists _, _.
Qed.

(** What a dispatched action does to the state that the reducer holds. *)
Lemma dispatch_state (action : VaultAction) (w : World) :
  ∃ state',
    reducerState (dispatch action w).2 = state' ∧
    match action with
    | UNLOCK_VAULT entries masterPassword =>
        state' = mkVaultState entries false (Some masterPassword)
    | LOCK_VAULT => state' = mkVaultState [] true None
    | SET_ENTRIES _ | ADD_ENTRY _ =>
        isLocked state' = isLocked (reducerState w) ∧
        masterPassword state' = masterPassword (reducerState w)
    | UPDATE_ENTRY _ _ | DELETE_ENTRY _ =>
        isLocked state' = isLocked (reducerState w) ∧
        masterPassword state' = masterPassword (reducerState w) ∧
        (entries (reducerState w) = [] -> entries state' = [])
    end.
Proof.
  eexists. split; [reflexivity|].
  unfold dispatch.
  destruct action as [es mp| |es|e|id updates|id]; cbn; try done.
  - unfold bind.
    destruct (updateEntries_ok id updates (entries (reducerState w)) w)
      as (entries' & w' & -> & Hnil).
    cbn. auto.
  - split; [done|]. split; [done|]. by intros ->.
Qed.

Lemma keeps_frames {A} (I : VaultState -> Prop) (m : M A) :
  framesReducer m -> keeps I m.
Proof. intros Hm w HI. by rewrite Hm. Qed.

Lemma keeps_bind {A B} (I : VaultState -> Prop) (m : M A) (k : A -> M B) :
  keeps I m -> (∀ a, keeps I (k a)) -> keeps I (bind m k).
Proof.
  intros Hm Hk w HI. unfold bind. specialize (Hm w HI).
  destruct (m w) as [[a|e] w']; cbn in *; [|done].
  by apply Hk.
Qed.

Lemma keeps_tryCatch {A} (I : VaultState -> Prop) (m : M A)
  (handler : Exception -> M A) :
  keeps I m -> (∀ e, keeps I (handler e)) -> keeps I (tryCatch m handler).
Proof.
  intros Hm Hh w HI. unfold tryCatch. specialize (Hm w HI).
  destruct (m w) as [[a|e] w']; cbn in *; [done|].
  by apply Hh.
Qed.

(** Every action keeps "fully unlocked", except [LOCK_VAULT]; every action
    keeps "fully locked or fully unlocked", except [ADD_ENTRY] and
    [SET_ENTRIES]. *)
Lemma dispatch_keeps_unlocked (action : VaultAction) :
  action ≠ LOCK_VAULT -> keeps fullyUnlocked (dispatch action).
Proof.
  intros Hne w [Hl Hm]. unfold fullyUnlocked.
  destruct (dispatch_state action w) as (state' & -> & Hstate).
  destruct action; try done;
    try (destruct Hstate as (-> & -> & _)); try (destruct Hstate as (-> & ->));
    try done.
  subst state'. cbn. eauto.
Qed.

Lemma dispatch_keeps_consistent (action : VaultAction) :
  match action with
  | ADD_ENTRY _ | SET_ENTRIES _ => False
  | _ => True
  end ->
  keeps consistent (dispatch action).
Proof.
  intros Haction w Hw. unfold consistent, fullyLocked, fullyUnlocked in *.
  destruct (dispatch_state action w) as (state' & -> & Hstate).
  destruct action; try done.
  - subst state'. right. cbn. eauto.
  - subst state'. by left.
  - destruct Hstate as (-> & -> & Hnil).
    destruct Hw as [(? & ? & ?) | ?]; [left | right]; auto.
  - destruct Hstate as (-> & -> & Hnil).
    destruct Hw as [(? & ? & ?) | ?]; [left | right]; auto.
Qed.

End Frames.

Section OperationFacts.

Context `{P : Platform}.

Lemma unlockVault_keeps (currentUser : option User.t) (password : string) :
  keeps consistent (VaultProvider.unlockVault currentUser password).
Proof.
  unfold VaultProvider.unlockVault. destruct currentUser as [user|].
  - apply keeps_tryCatch; [|intros e; apply keeps_frames, frames_throw].
    apply keeps_bind; [apply keeps_frames, frames_getEncryptedVault|].
    intros es. by apply dispatch_keeps_consistent.
  - apply keeps_frames, frames_throw.
Qed.

Lemma addEntry_keeps (currentUser : option User.t) (state : VaultState)
  (site username password : string) :
  keeps fullyUnlocked
    (VaultProvider.addEntry currentUser state site username password).
Proof.
  unfold VaultProvider.addEntry.
  apply keeps_tryCatch; [|intros e; apply keeps_frames, frames_throw].
  apply keeps_bind; [apply keeps_frames, frames_newDateISO|]. intros now.
  apply keeps_bind; [apply keeps_frames, frames_generateUniqueId|]. intros id.
  apply keeps_bind; [by apply dispatch_keeps_unlocked|]. intros _.
  apply keeps_frames, frames_saveVault.
Qed.

Lemma updateEntry_keeps (currentUser : option User.t) (state : VaultState)
  (id : string) (updates : PartialEntry.t) :
  keeps consistent (VaultProvider.updateEntry currentUser state id updates).
Proof.
  unfold VaultProvider.updateEntry.
  apply keeps_bind; [by apply dispatch_keeps_consistent|]. intros _.
  apply keeps_frames, frames_saveVault.
Qed.

Lemma deleteEntry_keeps (currentUser : option User.t) (state : VaultState)
  (id : string) :
  keeps consistent (VaultProvider.deleteEntry currentUser state id).
Proof.
  unfold VaultProvider.deleteEntry.
  apply keeps_bind; [by apply dispatch_keeps_consistent|]. intros _.
  apply keeps_frames, frames_saveVault.
Qed.

Lemma changeMasterPassword_keeps (currentUser : option User.t)
  (state : VaultState) (oldPassword newPassword : string) :
  keeps consistent
    (VaultProvider.changeMasterPassword currentUser state
                                        oldPassword newPassword).
Proof.
  unfold VaultProvider.changeMasterPassword.
  destruct currentUser as [user|]; [|apply keeps_frames, frames_throw].
  destruct (negb _); [apply keeps_frames, frames_throw|].
  apply keeps_bind; [apply keeps_frames, frames_storeEncryptedVault|].
  intros _. by apply dispatch_keeps_consistent.
Qed.

(** In every state that the reducer can reach, the vault is locked exactly
    when it holds no master password. *)
Lemma reachable_unlocked (state : VaultState) :
  reachable state ->
  isLocked state = true <-> masterPassword state = None.
Proof.
  induction 1 as [|state state' action w w' _ IH Hstep]; [done|].
  destruct action as [entries' mp| |entries'|entry|id updates|id];
    cbn [vaultReducer] in Hstep.
  - injection Hstep as <- _. cbn. split; discriminate.
  - injection Hstep as <- _. done.
  - injection Hstep as <- _. exact IH.
  - injection Hstep as <- _. exact IH.
  - unfold bind in Hstep.
    destruct (updateEntries id updates (entries state) w) as [[es|e] w''];
      [|discriminate].
    injection Hstep as <- _. exact IH.
  - injection Hstep as <- _. exact IH.
Qed.

End OperationFacts.

(** C6, as amended.  Unlocking, locking, updating, deleting and changing
    the master password keep the vault state fully locked or fully
    unlocked, and so does adding an entry to an unlocked vault; locking
    succeeds from every state and leaves no entries and no master
    password. *)
Theorem operations_keep_vault_consistent
  (P : Platform) (currentUser : option User.t) (state : VaultState)
  (op : Operation) (w : World) :
  consistent (reducerState w) ->
  (isAddEntry op = true -> fullyUnlocked (reducerState w)) ->
  consistent (reducerState (runOperation currentUser state op w).2) ∧
  VaultProvider.lockVault w
  = (Ok tt, setReducerState (mkVaultState [] true None) w).
Proof.
  intros Hw Hadd. split; [|reflexivity].
  destruct op as [mp| |site username password|id updates|id|old new];
    cbn [runOperation].
  - by apply unlockVault_keeps.
  - by apply (dispatch_keeps_consistent LOCK_VAULT).
  - right. apply addEntry_keeps. by apply Hadd.
  - by apply updateEntry_keeps.
  - by apply deleteEntry_keeps.
  - by apply changeMasterPassword_keeps.
Qed.

(** C6, as stated, fails: adding an entry while the vault is locked is
    refused by [saveVault] only after the entry is in the list, which leaves
    a locked vault that holds an entry. *)
Lemma addEntry_on_locked_vault_breaks_invariant :
  let w := Model.world in
  let after :=
    @VaultProvider.addEntry Model.platform (Some Model.alice) initialState
      "example.com" "alice" "p@ss" w in
  consistent (reducerState w) ∧
  after.1 = Throw (Error "Vault is locked") ∧
  isLocked (reducerState after.2) = true ∧
  length (entries (reducerState after.2)) = 1%nat ∧
  ¬ consistent (reducerState after.2).
Proof.
  cbv zeta.
  assert (reducerState
            (@VaultProvider.addEntry Model.platform (Some Model.alice)
               initialState "example.com" "alice" "p@ss" Model.world).2
          = mkVaultState
              [PasswordEntry.mk
                 (pretty 1700000000001 +:+ pretty 0%nat)
                 "example.com" "alice" "p@ss"
                 (pretty 1700000000000) (pretty 1700000000000)]
              true None) as Hstate by reflexivity.
  split; [left; done|]. split; [reflexivity|].
  rewrite Hstate. cbn. split; [done|]. split; [done|].
  intros [(_ & _ & Hnil) | (Hl & _)]; discriminate.
Qed.

(** The run of [changeMasterPassword] for a logged-in user and the master
    secret of the session. *)
Lemma changeMasterPassword_unlocked `{P : Platform} {laws : PlatformLaws P}
  (user : User.t) (state : VaultState) (old new : string) (w : World) :
  masterPassword state = Some old ->
  VaultProvider.changeMasterPassword (Some user) state old new w
  = (Ok tt,
     setReducerState (mkVaultState (entries state) false (Some new))
       (storedWorld (User.username user) (entries state) new w)).
Proof.
  intros Hold. unfold VaultProvider.changeMasterPassword.
  rewrite (bool_decide_eq_true_2 _ Hold). cbn [negb]. unfold bind.
  by rewrite storeEncryptedVault_ok by apply crypto_subtle_available.
Qed.

(** C7, as amended.  [changeMasterPassword(old, new)] succeeds only for a
    logged-in user and with [old] as the master secret of the session, which
    in every state that the reducer can reach means that the vault is
    unlocked; otherwise it throws and changes nothing.  When it succeeds,
    the vault is unlocked, with [new] as the master secret and with the same
    entries, and the stored vault then loads under [new], with those
    entries.  Under [old] the load fails whenever the cipher rejects the key
    that [old] derives, and succeeds whenever [old] derives the key of
    [new]. *)
Theorem changeMasterPassword_reseals
  (P : Platform) (laws : PlatformLaws P) (currentUser : option User.t)
  (state : VaultState) (old new : string) (w : World) :
  match VaultProvider.changeMasterPassword currentUser state old new w with
  | (Ok _, w') =>
      ∃ user,
        currentUser = Some user ∧
        masterPassword state = Some old ∧
        (reachable state -> isLocked state = false) ∧
        reducerState w' = mkVaultState (entries state) false (Some new) ∧
        secureStore w' !! (SecureStorage.VAULT_PREFIX +:+ User.username user)
        = Some (storedBlob (entries state) new w) ∧
        SecureStorage.getEncryptedVault (User.username user) new w'
        = (Ok (entries state), w') ∧
        (AES_GCM_decrypt (derivedKey old (drawnSalt w)) (drawnIv w)
           (storedCiphertext (entries state) new w) = None ->
         SecureStorage.getEncryptedVault (User.username user) old w'
         = (Throw (Error "Invalid master password"), w')) ∧
        (derivedKey old (drawnSalt w) = derivedKey new (drawnSalt w) ->
         SecureStorage.getEncryptedVault (User.username user) old w'
         = (Ok (entries state), w'))
  | (Throw e, w') =>
      e = Error "Invalid current master password" ∧ w' = w ∧
      (currentUser = None ∨ masterPassword state ≠ Some old)
  end.
Proof.
  unfold VaultProvider.changeMasterPassword.
  destruct currentUser as [user|]; [|cbn; auto].
  destruct (bool_decide (masterPassword state = Some old)) eqn:Hold; cbn [negb].
  - apply bool_decide_eq_true_1 in Hold.
    unfold bind.
    rewrite storeEncryptedVault_ok by apply crypto_subtle_available.
    cbn. exists user. split; [done|]. split; [done|]. split.
    { intros Hreach. apply reachable_unlocked in Hreach.
      destruct (isLocked state); [|done].
      destruct Hreach as [Hnone _]. rewrite Hnone in Hold by done.
      discriminate. }
    split; [done|].
    assert (<[vaultKey (User.username user)
              := storedBlob (entries state) new w]> (secureStore w)
            !! vaultKey (User.username user)
            = Some (storedBlob (entries state) new w)) as Hstored
      by apply lookup_insert_eq.
    split; [exact Hstored|]. split; [|split].
    + by apply (getEncryptedVault_storedBlob _ (entries state) new w).
    + intros Hreject.
      by apply (getEncryptedVault_storedBlob_wrong _ (entries state) new old w).
    + intros Hkey.
      by apply (getEncryptedVault_storedBlob_same_key _ (entries state) new old
                  w).
  - apply bool_decide_eq_false_1 in Hold. cbn. auto.
Qed.

(** C10.  On an unlocked vault, [updateEntry] and [deleteEntry] with an [id]
    that no entry has do exactly what [saveVault] alone does: they succeed,
    the entry list in memory is unchanged, and the unchanged list is stored
    again. *)
Theorem update_delete_absent_id
  (P : Platform) (laws : PlatformLaws P) (user : User.t)
  (state : VaultState) (m id : string) (updates : PartialEntry.t) (w : World) :
  reducerState w = state ->
  isLocked state = false ->
  masterPassword state = Some m ->
  m ≠ EmptyString ->
  idAbsent id (entries state) ->
  let saved := storedWorld (User.username user) (entries state) m w in
  VaultProvider.updateEntry (Some user) state id updates w = (Ok tt, saved) ∧
  VaultProvider.deleteEntry (Some user) state id w = (Ok tt, saved) ∧
  VaultProvider.saveVault (Some user) state w = (Ok tt, saved) ∧
  reducerState saved = state ∧
  SecureStorage.getEncryptedVault (User.username user) m saved
  = (Ok (entries state), saved).
Proof.
  intros Hrender Hunlocked Hm Hne Habsent saved.
  assert (VaultProvider.saveVault (Some user) state w = (Ok tt, saved))
    as Hsave.
  { unfold VaultProvider.saveVault, tryCatch. rewrite Hm.
    rewrite falsy_nonempty by done. cbn [default from_option].
    unfold Datatypes.id.
    by rewrite storeEncryptedVault_ok by apply crypto_subtle_available. }
  assert (dispatch (UPDATE_ENTRY id updates) w = (Ok tt, w)) as Hupdate.
  { unfold dispatch. cbn [vaultReducer]. unfold bind.
    rewrite updateEntries_absent by by rewrite Hrender.
    cbn. by rewrite setReducerState_eta. }
  assert (dispatch (DELETE_ENTRY id) w = (Ok tt, w)) as Hdelete.
  { unfold dispatch. cbn [vaultReducer ret].
    rewrite filter_absent by by rewrite Hrender.
    by rewrite setReducerState_eta. }
  split; [|split; [|split; [done|split]]].
  - unfold VaultProvider.updateEntry, bind. by rewrite Hupdate.
  - unfold VaultProvider.deleteEntry, bind. by rewrite Hdelete.
  - done.
  - apply getEncryptedVault_storedWorld.
Qed.

(** ** The model platform and the unlock screen *)

Section ModelFacts.

Import Model.

Lemma unseal_seal (key iv data : Uint8Array) :
  unseal key (seal key iv data) = Some data.
Proof.
  unfold seal. induction key as [|b key IH]; [done|].
  cbn. by rewrite (Byte.byte_dec_lb (eq_refl b)).
Qed.

Lemma unseal_seal_other (key other iv data : Uint8Array) :
  key ≠ other -> unseal other (seal key iv data) = None.
Proof.
  unfold seal. revert key.
  induction other as [|b' other IH]; intros [|b key] Hne; try done.
  cbn. destruct (Byte.eqb b' b) eqn:Hb; [|done].
  apply Byte.byte_dec_bl in Hb as ->.
  apply IH. congruence.
Qed.

Lemma readText_writeText (s rest : string) :
  readText (writeText s rest) = Some (s, rest).
Proof. induction s as [|c s IH]; cbn; [done|]. by rewrite IH. Qed.

Lemma readEntry_writeEntry (e : PasswordEntry.t) (rest : string) :
  readEntry (writeEntry e rest) = Some (e, rest).
Proof.
  destruct e. unfold readEntry, writeEntry.
  cbn [PasswordEntry.id PasswordEntry.site PasswordEntry.username
       PasswordEntry.password PasswordEntry.createdAt PasswordEntry.updatedAt].
  by repeat (rewrite readText_writeText; cbn [mbind option_bind]).
Qed.

Lemma writeText_length (s rest : string) :
  (String.length rest < String.length (writeText s rest))%nat.
Proof. induction s as [|c s IH]; cbn; lia. Qed.

Lemma writeEntry_length (e : PasswordEntry.t) (rest : string) :
  (String.length rest < String.length (writeEntry e rest))%nat.
Proof.
  destruct e as [i s u p c m]. unfold writeEntry.
  cbn [PasswordEntry.id PasswordEntry.site PasswordEntry.username
       PasswordEntry.password PasswordEntry.createdAt PasswordEntry.updatedAt].
  pose proof (writeText_length m rest) as H6.
  pose proof (writeText_length c (writeText m rest)) as H5.
  pose proof (writeText_length p (writeText c (writeText m rest))) as H4.
  pose proof (writeText_length u _ : (String.length
    (writeText p (writeText c (writeText m rest))) < _)%nat) as H3.
  pose proof (writeText_length s _ : (String.length
    (writeText u (writeText p (writeText c (writeText m rest)))) < _)%nat)
    as H2.
  pose proof (writeText_length i _ : (String.length
    (writeText s (writeText u (writeText p (writeText c (writeText m rest)))))
    < _)%nat) as H1.
  lia.
Qed.

Lemma writeEntries_length (es : list PasswordEntry.t) (rest : string) :
  (length es + String.length rest < String.length (writeEntries es rest))%nat.
Proof.
  induction es as [|e es IH]; cbn; [lia|].
  pose proof (writeEntry_length e (writeEntries es rest)). lia.
Qed.

Lemma readEntries_writeEntries (fuel : nat) (es : list PasswordEntry.t)
  (rest : string) :
  (length es < fuel)%nat ->
  readEntries fuel (writeEntries es rest) = Some (es, rest).
Proof.
  revert fuel. induction es as [|e es IH]; intros [|fuel] Hfuel;
    cbn in Hfuel; try lia; [done|].
  cbn [writeEntries readEntries]. rewrite readEntry_writeEntry. cbn.
  by rewrite IH by lia.
Qed.

Lemma parse_stringify (v : VaultData) : parse (stringify v) = Ok v.
Proof.
  destruct v as [es lm ver]. unfold parse, stringify. cbn [vd_entries vd_lastModified vd_version].
  assert (∀ (o : option string) rest,
            readOption readText (writeOption writeText o rest)
            = Some (o, rest)) as Htext.
  { intros [s|] rest; cbn; [|done]. by rewrite readText_writeText. }
  destruct es as [es|].
  - cbn [writeOption readOption].
    rewrite readEntries_writeEntries.
    + cbn. by repeat (rewrite Htext; cbn).
    + cbn [String.length].
      pose proof (writeEntries_length es
        (writeOption writeText lm (writeOption writeText ver EmptyString))).
      lia.
  - cbn [writeOption readOption]. cbn. by repeat (rewrite Htext; cbn).
Qed.
(** *** The text encoding on 8-bit characters *)

Lemma codeUnit_range (c : ascii) : 0 <= Z.of_N (N_of_ascii c) < 256.
Proof. pose proof (N_ascii_bounded c). lia. Qed.

Lemma codeUnits_range (s : string) :
  Forall (fun u => 0 <= u < 256) (codeUnits s).
Proof.
  unfold codeUnits. induction s as [|c s IH]; cbn; constructor;
    [apply codeUnit_range | exact IH].
Qed.

Lemma scalarValues_8bit (units : JSString) :
  Forall (fun u => 0 <= u < 256) units -> UTF8.scalarValues units = units.
Proof.
  induction 1 as [|u units Hu _ IH]; [done|].
  cbn [UTF8.scalarValues]. unfold UTF8.isLeadSurrogate, UTF8.isTrailSurrogate.
  destruct (55296 <=? u) eqn:E1; [lia|]. cbn [andb].
  destruct (56320 <=? u) eqn:E2; [lia|]. cbn [andb].
  by rewrite IH.
Qed.

Lemma byteValue_toUint8 (z : Z) : 0 <= z < 256 -> byteValue (toUint8 z) = z.
Proof.
  intros Hz. unfold byteValue, toUint8.
  rewrite Z.mod_small by done.
  destruct (Byte.of_N (Z.to_N z)) as [b|] eqn:Hb.
  - cbn. apply Byte.to_of_N in Hb. rewrite Hb. lia.
  - apply Byte.of_N_None_iff in Hb. lia.
Qed.

Lemma bytesOf_range (u : Z) :
  0 <= u < 256 -> Forall (fun b => 0 <= b < 256) (UTF8.bytesOf u).
Proof.
  intros Hu. unfold UTF8.bytesOf.
  pose proof (Z.div_mod u 64 ltac:(lia)) as Hdiv.
  pose proof (Z.mod_pos_bound u 64 ltac:(lia)) as Hmod.
  destruct (u <? 128) eqn:E1; [repeat constructor; lia|].
  destruct (u <? 2048) eqn:E2; [|lia].
  repeat constructor; lia.
Qed.

Lemma codePoints_bytesOf (u : Z) (rest : list Z) :
  0 <= u < 256 ->
  UTF8.codePoints (UTF8.bytesOf u ++ rest) = u :: UTF8.codePoints rest.
Proof.
  intros Hu. unfold UTF8.bytesOf.
  pose proof (Z.div_mod u 64 ltac:(lia)) as Hdiv.
  pose proof (Z.mod_pos_bound u 64 ltac:(lia)) as Hmod.
  destruct (u <? 128) eqn:E1.
  { cbn [app UTF8.codePoints]. by rewrite E1. }
  destruct (u <? 2048) eqn:E2; [|lia].
  cbn [app UTF8.codePoints]. unfold UTF8.within.
  destruct (192 + u / 64 <? 128) eqn:E3; [lia|].
  destruct (194 <=? 192 + u / 64) eqn:E4; [|lia].
  destruct (192 + u / 64 <=? 223) eqn:E5; [|lia].
  destruct (128 <=? 128 + u mod 64) eqn:E6; [|lia].
  destruct (128 + u mod 64 <=? 191) eqn:E7; [|lia].
  cbn [andb]. f_equal. lia.
Qed.

Lemma codePoints_8bit (units : JSString) :
  Forall (fun u => 0 <= u < 256) units ->
  UTF8.codePoints (flat_map UTF8.bytesOf units) = units.
Proof.
  induction 1 as [|u units Hu _ IH]; [done|].
  cbn [flat_map]. by rewrite codePoints_bytesOf, IH.
Qed.

Lemma stripBOM_8bit (units : JSString) :
  Forall (fun u => 0 <= u < 256) units ->
  UTF8.stripBOM (flat_map UTF8.bytesOf units) = flat_map UTF8.bytesOf units.
Proof.
  intros Hunits. destruct Hunits as [|u units Hu _]; [done|].
  cbn [flat_map].
  pose proof (Z.div_mod u 64 ltac:(lia)) as Hdiv.
  pose proof (Z.mod_pos_bound u 64 ltac:(lia)) as Hmod.
  assert (∀ b0 l, b0 ≠ 239 -> UTF8.stripBOM (b0 :: l) = b0 :: l) as Hstrip.
  { intros b0 [|b1 [|b2 l]] Hb0; try done. cbn [UTF8.stripBOM].
    destruct (b0 =? 239) eqn:E; [lia|]. done. }
  unfold UTF8.bytesOf at 1 3.
  destruct (u <? 128) eqn:E1; [apply Hstrip; lia|].
  destruct (u <? 2048) eqn:E2; [|lia].
  apply Hstrip. lia.
Qed.

Lemma unitsOf_8bit (units : JSString) :
  Forall (fun u => 0 <= u < 256) units -> flat_map UTF8.unitsOf units = units.
Proof.
  induction 1 as [|u units Hu _ IH]; [done|].
  cbn [flat_map]. rewrite IH. unfold UTF8.unitsOf.
  by destruct (u <? 65536) eqn:E; [|lia].
Qed.

(** A string of 8-bit characters survives the encoding and the decoding. *)
Lemma decode_encode_8bit (s : string) :
  UTF8.decode (UTF8.encode (codeUnits s)) = codeUnits s.
Proof.
  pose proof (codeUnits_range s) as Hunits.
  unfold UTF8.decode, UTF8.encode.
  rewrite scalarValues_8bit by done.
  rewrite map_map.
  assert (Forall (fun b => 0 <= b < 256) (flat_map UTF8.bytesOf (codeUnits s)))
    as Hbytes.
  { apply Forall_flat_map. eapply Forall_impl; [exact Hunits|].
    intros u Hu. by apply bytesOf_range. }
  rewrite (map_ext_Forall _ Datatypes.id).
  - rewrite map_id, stripBOM_8bit, codePoints_8bit, unitsOf_8bit; done.
  - eapply Forall_impl; [exact Hbytes|]. intros b Hb. by apply byteValue_toUint8.
Qed.

Lemma toLatin1_codeUnits (s : string) : UTF8.toLatin1 (codeUnits s) = Some s.
Proof.
  unfold UTF8.toLatin1, codeUnits.
  assert (mapM (fun u => if UTF8.within 0 255 u
                         then Some (ascii_of_N (Z.to_N u)) else None)
               (map (fun c => Z.of_N (N_of_ascii c)) (list_ascii_of_string s))
          = Some (list_ascii_of_string s)) as ->.
  { induction s as [|c s IH]; [done|].
    cbn [list_ascii_of_string map mapM]. rewrite IH.
    pose proof (codeUnit_range c) as Hc. unfold UTF8.within.
    destruct (0 <=? Z.of_N (N_of_ascii c)) eqn:E1; [|lia].
    destruct (Z.of_N (N_of_ascii c) <=? 255) eqn:E2; [|lia].
    cbn. by rewrite N2Z.id, ascii_N_embedding. }
  cbn. by rewrite string_of_list_ascii_of_string.
Qed.

Lemma model_laws : PlatformLaws platform.
Proof.
  split.
  - reflexivity.
  - reflexivity.
  - intros key iv data. apply unseal_seal.
  - intros v. cbn [JSON_parse JSON_stringify platform].
    unfold parseUnits, stringifyUnits.
    rewrite toLatin1_codeUnits. apply parse_stringify.
  - intros v. apply decode_encode_8bit.
Qed.

(** The model cipher opens only under the key it sealed with. *)
Lemma model_rejects_other_key (password other : string)
  (salt iv data : Uint8Array) :
  hmacKey (UTF8.encode (codeUnits other))
  ≠ hmacKey (UTF8.encode (codeUnits password)) ->
  @AES_GCM_decrypt platform (@derivedKey platform other salt) iv
    (@AES_GCM_encrypt platform (@derivedKey platform password salt) iv data)
  = None.
Proof.
  intros Hne. apply (unseal_seal_other _ _ iv).
  unfold derivedKey.
  cbn [PBKDF2_deriveBits TextEncoder_encode platform]. unfold deriveBits.
  intros Heq. apply app_inv_tail in Heq. by apply Hne.
Qed.

End ModelFacts.


Section UnlockFacts.

Import UnlockScreen.

(** [handleUnlock] when [unlockVault] throws and when it returns. *)
Lemma handleUnlock_rejected (unlockVault : string -> M unit) (s : t)
  (e : Exception) (w w' : World) :
  trimsToEmpty (masterPassword s) = false ->
  unlockVault (masterPassword s) w = (Throw e, w') ->
  handleUnlock unlockVault s w
  = (Ok (mk EmptyString false (attempts s + 1)
            (Some (if 3 <=? attempts s + 1
                   then mkAlert "Too Many Failed Attempts"
                          "For security reasons, you will be logged out."
                          [mkButton "OK" RunHandleLogout]
                   else Alert_alert "Incorrect Password"
                          ("Invalid master password. "
                           +:+ pretty (3 - (attempts s + 1))
                           +:+ " attempts remaining.")))
            (route s) (loggedOut s)),
     w').
Proof.
  intros Hblank Hthrow. unfold handleUnlock, tryCatch, bind.
  by rewrite Hblank, Hthrow.
Qed.

Lemma handleUnlock_accepted (unlockVault : string -> M unit) (s : t)
  (w w' : World) :
  trimsToEmpty (masterPassword s) = false ->
  unlockVault (masterPassword s) w = (Ok tt, w') ->
  handleUnlock unlockVault s w
  = (Ok (mk EmptyString false (attempts s) (alert s) Vault (loggedOut s)), w').
Proof.
  intros Hblank Hok. unfold handleUnlock, tryCatch, bind.
  by rewrite Hblank, Hok.
Qed.

(** The session of the unlock screen, for any [unlockVault] that rejects the
    four guesses and accepts the right password. *)
Lemma unlockSession_after_three_failures
  (unlockVault : string -> M unit) (right : string) (e : Exception)
  (w w' : World) :
  (∀ guess, In guess ["a"; "b"; "c"; "d"] ->
            unlockVault guess w = (Throw e, w)) ->
  unlockVault right w = (Ok tt, w') ->
  trimsToEmpty right = false ->
  let tooMany := mkAlert "Too Many Failed Attempts"
                         "For security reasons, you will be logged out."
                         [mkButton "OK" RunHandleLogout] in
  let confirmation := mkAlert "Logout" "Are you sure you want to logout?"
                        [mkButton "Cancel" Dismiss;
                         mkButton "Logout" RunLogout] in
  let s3 := mk EmptyString false 3 (Some tooMany) Unlock false in
  let s4 := mk EmptyString false 3 (Some confirmation) Unlock false in
  let s5 := mk EmptyString false 4 None Vault false in
  unlockSession unlockVault
    (failedAttempt "a" ++ failedAttempt "b" ++ [TypePassword "c"; PressUnlock])
    mounted w
  = (Ok s3, w) ∧
  unlockSession unlockVault [PressAlertButton "OK"] s3 w = (Ok s4, w) ∧
  unlockSession unlockVault
    ([PressAlertButton "Cancel"] ++ failedAttempt "d"
     ++ [PressAlertButton "Cancel"; TypePassword right; PressUnlock])
    s4 w
  = (Ok s5, w').
Proof.
  intros Hwrong Hright Hblank. cbv zeta.
  pose proof (Hwrong "a" ltac:(cbn; auto)) as Ha.
  pose proof (Hwrong "b" ltac:(cbn; auto)) as Hb.
  pose proof (Hwrong "c" ltac:(cbn; auto)) as Hc.
  pose proof (Hwrong "d" ltac:(cbn; auto)) as Hd.
  split; [|split].
  - lazy. rewrite Ha. lazy. rewrite Hb. lazy. by rewrite Hc.
  - reflexivity.
  - lazy -[handleUnlock].
    erewrite handleUnlock_rejected; [|reflexivity|exact Hd].
    lazy -[handleUnlock].
    erewrite handleUnlock_accepted; [|exact Hblank|exact Hright].
    reflexivity.
Qed.

End UnlockFacts.

Section ModelVaultFacts.

Lemma worldWithVault_stored :
  worldWithVault
  = @storedWorld Model.platform "alice" [] "correct horse" Model.world.
Proof.
  unfold worldWithVault.
  by rewrite (@storeEncryptedVault_ok Model.platform).
Qed.

Lemma unlockVault_wrong_password (guess : string) :
  Model.hmacKey (UTF8.encode (codeUnits guess))
  ≠ Model.hmacKey (UTF8.encode (codeUnits "correct horse")) ->
  @VaultProvider.unlockVault Model.platform (Some Model.alice) guess
    worldWithVault
  = (Throw (Error "Invalid master password"), worldWithVault).
Proof.
  intros Hne. unfold VaultProvider.unlockVault, tryCatch, bind.
  change (User.username Model.alice) with "alice".
  rewrite (@getEncryptedVault_storedBlob_wrong Model.platform model_laws
             "alice" [] "correct horse" guess Model.world worldWithVault);
    [done | by apply model_rejects_other_key |].
  rewrite worldWithVault_stored. apply storedWorld_lookup.
Qed.

Lemma unlockVault_right_password :
  @VaultProvider.unlockVault Model.platform (Some Model.alice) "correct horse"
    worldWithVault
  = (Ok tt,
     setReducerState (mkVaultState [] false (Some "correct horse"))
                     worldWithVault).
Proof.
  unfold VaultProvider.unlockVault, tryCatch, bind.
  change (User.username Model.alice) with "alice".
  rewrite (@getEncryptedVault_storedBlob Model.platform model_laws
             "alice" [] "correct horse" Model.world worldWithVault); [done|].
  rewrite worldWithVault_stored. apply storedWorld_lookup.
Qed.

End ModelVaultFacts.

(** C9, on the code: three failed unlocks do not end the session.  On the
    model platform, with a vault stored under [correct horse]: after three
    wrong passwords the counter is 3 and the alert [Too Many Failed
    Attempts] is up, but its [OK] only opens the logout confirmation;
    [Cancel] there leaves the user logged in on the unlock screen, where a
    fourth wrong password is tried like the others and the right password
    then unlocks the vault. *)
Theorem failed_unlocks_do_not_end_session :
  let unlockVault := @VaultProvider.unlockVault Model.platform
                       (Some Model.alice) in
  let tooMany := mkAlert "Too Many Failed Attempts"
                         "For security reasons, you will be logged out."
                         [mkButton "OK" RunHandleLogout] in
  let confirmation := mkAlert "Logout" "Are you sure you want to logout?"
                        [mkButton "Cancel" Dismiss;
                         mkButton "Logout" RunLogout] in
  let s3 := UnlockScreen.mk EmptyString false 3 (Some tooMany)
                            UnlockScreen.Unlock false in
  let s4 := UnlockScreen.mk EmptyString false 3 (Some confirmation)
                            UnlockScreen.Unlock false in
  let s5 := UnlockScreen.mk EmptyString false 4 None UnlockScreen.Vault false in
  unlockSession unlockVault
    (failedAttempt "a" ++ failedAttempt "b" ++ [TypePassword "c"; PressUnlock])
    UnlockScreen.mounted worldWithVault
  = (Ok s3, worldWithVault) ∧
  unlockSession unlockVault [PressAlertButton "OK"] s3 worldWithVault
  = (Ok s4, worldWithVault) ∧
  unlockSession unlockVault
    ([PressAlertButton "Cancel"] ++ failedAttempt "d"
     ++ [PressAlertButton "Cancel"; TypePassword "correct horse"; PressUnlock])
    s4 worldWithVault
  = (Ok s5,
     setReducerState (mkVaultState [] false (Some "correct horse"))
                     worldWithVault).
Proof.
  apply unlockSession_after_three_failures
    with (e := Error "Invalid master password").
  - intros guess Hin. apply unlockVault_wrong_password.
    cbn in Hin. intuition (subst; vm_compute; discriminate).
  - apply unlockVault_right_password.
  - reflexivity.
Qed.

(** ** Concrete runs on the model platform *)

(** The round trip of C1 on the model platform, under the password
    [correct horse]: a plaintext of one, two, three and four bytes per
    character, [h], e acute, the euro sign and a surrogate pair. *)
Lemma encryptData_decryptData_roundtrip_witness :
  let p := [104; 233; 8364; 55357; 56832] in
  PlatformLaws Model.platform ∧
  ∃ blob w',
    @CryptoUtils.encryptData Model.platform p "correct horse" Model.world
    = (Ok blob, w') ∧
    @CryptoUtils.decryptData Model.platform blob "correct horse" = Ok p.
Proof.
  cbv zeta. split; [exact model_laws|].
  destruct (encryptData_decryptData_roundtrip Model.platform model_laws
              [104; 233; 8364; 55357; 56832] "correct horse" Model.world)
    as (blob & w' & Hseal & _ & Hsame).
  exists blob, w'. split; [exact Hseal|].
  apply Hsame. vm_compute. reflexivity.
Defined.

(** C1, as stated, fails: a plaintext that holds a surrogate without its
    partner comes back with the replacement character U+FFFD in its place,
    and a plaintext that starts with U+FEFF comes back without it. *)
Lemma encryptData_decryptData_changes_the_plaintext :
  let lone := [104; 55357; 105] in
  let marked := [65279; 104; 105] in
  (∃ blob w',
     @CryptoUtils.encryptData Model.platform lone "correct horse" Model.world
     = (Ok blob, w') ∧
     @CryptoUtils.decryptData Model.platform blob "correct horse"
     = Ok [104; 65533; 105] ∧
     @CryptoUtils.decryptData Model.platform blob "correct horse" ≠ Ok lone) ∧
  (∃ blob w',
     @CryptoUtils.encryptData Model.platform marked "correct horse" Model.world
     = (Ok blob, w') ∧
     @CryptoUtils.decryptData Model.platform blob "correct horse"
     = Ok [104; 105] ∧
     @CryptoUtils.decryptData Model.platform blob "correct horse" ≠ Ok marked).
Proof.
  cbv zeta. split.
  - destruct (@encryptData_decryptData Model.platform model_laws
                [104; 55357; 105] "correct horse" Model.world)
      as (blob & w' & Hseal & Hopen).
    exists blob, w'. split; [exact Hseal|]. rewrite Hopen.
    split; [vm_compute; reflexivity|].
    intros Heq. vm_compute in Heq. discriminate Heq.
  - destruct (@encryptData_decryptData Model.platform model_laws
                [65279; 104; 105] "correct horse" Model.world)
      as (blob & w' & Hseal & Hopen).
    exists blob, w'. split; [exact Hseal|]. rewrite Hopen.
    split; [vm_compute; reflexivity|].
    intros Heq. vm_compute in Heq. discriminate Heq.
Qed.

(** C3 on the model world, whose store is empty. *)
Lemma getEncryptedVault_absent_witness :
  secureStore Model.world !! (SecureStorage.VAULT_PREFIX +:+ "alice") = None ∧
  @SecureStorage.getEncryptedVault Model.platform "alice" "any password"
    Model.world = (Ok [], Model.world).
Proof.
  split; [vm_compute; reflexivity|].
  apply (getEncryptedVault_absent Model.platform).
  vm_compute. reflexivity.
Defined.

(** C4 on a blob that is not base64. *)
Lemma decryptData_failure_is_generic_witness :
  let e := Error "Decryption failed - invalid password or corrupted data" in
  @CryptoUtils.decryptData Model.platform "not base64 !" "correct horse"
  = Throw e ∧
  (e = Error "Decryption failed - invalid password or corrupted data" ∧
   (∀ plaintext,
      @CryptoUtils.decryptData Model.platform "not base64 !" "correct horse"
      ≠ Ok plaintext) ∧
   (∀ username w,
      secureStore w !! (SecureStorage.VAULT_PREFIX +:+ username)
      = Some "not base64 !" ->
      "not base64 !" ≠ EmptyString ->
      @SecureStorage.getEncryptedVault Model.platform username
        "correct horse" w
      = (Throw (Error "Invalid master password"), w))).
Proof.
  cbv zeta. split; [vm_compute; reflexivity|].
  apply (decryptData_failure_is_generic Model.platform).
  vm_compute. reflexivity.
Defined.

(** C5 on the model world: two saves of the sample entry; the random
    source of the model hands out different bytes to the second save. *)
Lemma storeEncryptedVault_twice_fresh_witness :
  let store := @SecureStorage.storeEncryptedVault Model.platform "alice"
                 [sampleEntry] "correct horse" in
  PlatformLaws Model.platform ∧
  ∃ w1 w2 blob1 blob2,
    store Model.world = (Ok tt, w1) ∧
    store w1 = (Ok tt, w2) ∧
    secureStore w1 !! (SecureStorage.VAULT_PREFIX +:+ "alice") = Some blob1 ∧
    secureStore w2 !! (SecureStorage.VAULT_PREFIX +:+ "alice") = Some blob2 ∧
    blob1 ≠ blob2 ∧
    @SecureStorage.getEncryptedVault Model.platform "alice" "correct horse" w1
    = (Ok [sampleEntry], w1) ∧
    @SecureStorage.getEncryptedVault Model.platform "alice" "correct horse" w2
    = (Ok [sampleEntry], w2).
Proof.
  cbv zeta. split; [exact model_laws|].
  destruct (storeEncryptedVault_twice_fresh Model.platform model_laws "alice"
              [sampleEntry] "correct horse" Model.world)
    as (w1 & w2 & encrypted1 & encrypted2
        & Hfirst & Hsecond & Hblob1 & Hblob2 & Hfresh & Hload1 & Hload2).
  exists w1, w2. eexists _, _.
  split; [exact Hfirst|]. split; [exact Hsecond|].
  split; [exact Hblob1|]. split; [exact Hblob2|].
  split; [|split; [exact Hload1 | exact Hload2]].
  apply Hfresh. intros Heq. vm_compute in Heq. discriminate Heq.
Defined.

(** C6, as amended, for adding an entry to the unlocked sample vault. *)
Lemma operations_keep_vault_consistent_witness :
  let op := OpAddEntry "example.org" "bob" "s3cret" in
  consistent (reducerState unlockedWorld) ∧
  (isAddEntry op = true -> fullyUnlocked (reducerState unlockedWorld)) ∧
  (consistent
     (reducerState
        (@runOperation Model.platform (Some Model.alice) unlockedState op
           unlockedWorld).2) ∧
   @VaultProvider.lockVault Model.platform unlockedWorld
   = (Ok tt, setReducerState (mkVaultState [] true None) unlockedWorld)).
Proof.
  cbv zeta.
  assert (fullyUnlocked (reducerState unlockedWorld)) as Hunlocked.
  { split; [reflexivity|]. exists "correct horse". reflexivity. }
  split; [right; exact Hunlocked|]. split; [intros _; exact Hunlocked|].
  apply (operations_keep_vault_consistent Model.platform).
  - right. exact Hunlocked.
  - intros _. exact Hunlocked.
Defined.

(** C7 on the unlocked sample vault: from [correct horse] to
    [battery staple]; the model cipher rejects the key of [correct horse]
    afterwards. *)
Lemma changeMasterPassword_reseals_witness :
  PlatformLaws Model.platform ∧
  ∃ w',
    @VaultProvider.changeMasterPassword Model.platform (Some Model.alice)
      unlockedState "correct horse" "battery staple" unlockedWorld
    = (Ok tt, w') ∧
    reducerState w'
    = mkVaultState [sampleEntry] false (Some "battery staple") ∧
    @SecureStorage.getEncryptedVault Model.platform "alice" "battery staple" w'
    = (Ok [sampleEntry], w') ∧
    @SecureStorage.getEncryptedVault Model.platform "alice" "correct horse" w'
    = (Throw (Error "Invalid master password"), w').
Proof.
  split; [exact model_laws|].
  pose proof (changeMasterPassword_reseals Model.platform model_laws
                (Some Model.alice) unlockedState "correct horse"
                "battery staple" unlockedWorld) as Hchange.
  rewrite (@changeMasterPassword_unlocked Model.platform model_laws)
    in Hchange by reflexivity.
  destruct Hchange as (user & [= <-] & _ & _ & Hstate & _ & Hnew & Hold & _).
  eexists. split; [reflexivity|].
  split; [exact Hstate|]. split; [exact Hnew|].
  apply Hold. apply model_rejects_other_key.
  intros Heq. vm_compute in Heq. discriminate Heq.
Defined.

(** C7, as stated, fails for two passwords that derive the same key: the
    same password twice, and a password and that password followed by a
    character with code 0, which the key derivation fills up to the same
    block.  The change succeeds and the old password still opens the
    vault. *)
Lemma old_password_still_opens_the_vault :
  let old := "correct horse" in
  let padded := "correct horse" +:+ String "000" EmptyString in
  let change := @VaultProvider.changeMasterPassword Model.platform
                  (Some Model.alice) unlockedState old in
  let load := @SecureStorage.getEncryptedVault Model.platform "alice" in
  (∃ w', change old unlockedWorld = (Ok tt, w') ∧
         load old w' = (Ok [sampleEntry], w')) ∧
  old ≠ padded ∧
  (∃ w', change padded unlockedWorld = (Ok tt, w') ∧
         load padded w' = (Ok [sampleEntry], w') ∧
         load old w' = (Ok [sampleEntry], w')).
Proof.
  cbv zeta. split; [|split; [discriminate|]].
  - eexists. split.
    + by apply (@changeMasterPassword_unlocked Model.platform model_laws).
    + apply (@getEncryptedVault_storedBlob Model.platform model_laws "alice"
               [sampleEntry] "correct horse" unlockedWorld).
      apply lookup_insert_eq.
  - eexists. split; [|split].
    + by apply (@changeMasterPassword_unlocked Model.platform model_laws).
    + apply (@getEncryptedVault_storedBlob Model.platform model_laws "alice"
               [sampleEntry] ("correct horse" +:+ String "000" EmptyString)
               unlockedWorld).
      apply lookup_insert_eq.
    + apply (@getEncryptedVault_storedBlob_same_key Model.platform model_laws
               "alice" [sampleEntry]
               ("correct horse" +:+ String "000" EmptyString) "correct horse"
               unlockedWorld).
      * vm_compute. reflexivity.
      * apply lookup_insert_eq.
Qed.

(** C8 on the model platform: the length [2] on the generator screen and no
    class on the add-entry screen. *)
Lemma generator_rejects_invalid_settings_witness :
  let tooShort := PasswordGeneratorScreen.mk "2" (mkClasses true true true true)
                    EmptyString None None in
  let noClass := AddEntryScreen.mk EmptyString "16"
                   (mkClasses false false false false) None None in
  outsideRange (@parseInt Model.platform "2") 4 128 ∧
  noClassSelected (AddEntryScreen.classes noClass) ∧
  @CryptoUtils.generateSecurePassword Model.platform 16 false false false
    false Model.world
  = (Throw (Error "At least one character type must be selected"),
     Model.world) ∧
  (∃ s' reason,
     @PasswordGeneratorScreen.generatePassword Model.platform tooShort
       Model.world = (Ok s', Model.world) ∧
     PasswordGeneratorScreen.generatedPassword s' = EmptyString ∧
     PasswordGeneratorScreen.entropy s' = None ∧
     PasswordGeneratorScreen.alert s'
     = Some (Alert_alert "Invalid Settings" reason)) ∧
  (∃ s' reason,
     @AddEntryScreen.generatePassword Model.platform noClass Model.world
     = (Ok s', Model.world) ∧
     AddEntryScreen.password s' = EmptyString ∧
     AddEntryScreen.reported s' = None ∧
     AddEntryScreen.alert s' = Some (Alert_alert "Error" reason)).
Proof.
  cbv zeta.
  destruct (generator_rejects_invalid_settings Model.platform Model.world)
    as (Hfunction & Hgenerator & Hadd).
  assert (outsideRange (@parseInt Model.platform "2") 4 128) as Hshort.
  { vm_compute. left. reflexivity. }
  assert (noClassSelected (mkClasses false false false false)) as Hnone.
  { repeat split. }
  split; [exact Hshort|]. split; [exact Hnone|].
  split; [apply Hfunction|]. split.
  - apply (Hgenerator (PasswordGeneratorScreen.mk "2"
                         (mkClasses true true true true) EmptyString None None)).
    left. exact Hshort.
  - apply (Hadd (AddEntryScreen.mk EmptyString "16"
                   (mkClasses false false false false) None None)).
    right. exact Hnone.
Defined.

(** C10 on the unlocked sample vault, for an [id] that its entry does not
    have. *)
Lemma update_delete_absent_id_witness :
  let saved := @storedWorld Model.platform "alice" [sampleEntry]
                 "correct horse" unlockedWorld in
  let noUpdates := PartialEntry.mk None (Some "example.net") None None None
                                   None in
  PlatformLaws Model.platform ∧
  reducerState unlockedWorld = unlockedState ∧
  isLocked unlockedState = false ∧
  masterPassword unlockedState = Some "correct horse" ∧
  "correct horse" ≠ EmptyString ∧
  idAbsent "no-such-id" (entries unlockedState) ∧
  (@VaultProvider.updateEntry Model.platform (Some Model.alice) unlockedState
     "no-such-id" noUpdates unlockedWorld = (Ok tt, saved) ∧
   @VaultProvider.deleteEntry Model.platform (Some Model.alice) unlockedState
     "no-such-id" unlockedWorld = (Ok tt, saved) ∧
   @VaultProvider.saveVault Model.platform (Some Model.alice) unlockedState
     unlockedWorld = (Ok tt, saved) ∧
   reducerState saved = unlockedState ∧
   @SecureStorage.getEncryptedVault Model.platform "alice" "correct horse"
     saved = (Ok (entries unlockedState), saved)).
Proof.
  cbv zeta.
  assert ("correct horse" ≠ EmptyString) as Hne by discriminate.
  assert (idAbsent "no-such-id" (entries unlockedState)) as Habsent.
  { repeat constructor. discriminate. }
  split; [exact model_laws|]. split; [reflexivity|]. split; [reflexivity|].
  split; [reflexivity|]. split; [exact Hne|]. split; [exact Habsent|].
  exact (update_delete_absent_id Model.platform model_laws Model.alice
           unlockedState "correct horse" "no-such-id"
           (PartialEntry.mk None (Some "example.net") None None None None)
           unlockedWorld eq_refl eq_refl eq_refl Hne Habsent).
Defined.

(** * Properties of the remaining code *)

(** ** The manual encoder, the blob and a platform without Web Crypto *)

Section EncoderFacts.

Import Base64.

Lemma length_string_of_list_ascii (l : list ascii) :
  String.length (string_of_list_ascii l) = length l.
Proof. induction l as [|a l IH]; [reflexivity|]. cbn. by rewrite IH. Qed.

Lemma encoded_length_exact (l : list Z) :
  length (encoded l) = (4 * ((length l + 2) / 3))%nat.
Proof.
  unfold encoded. induction l as [| a | a b | a b c l IH] using list_ind3;
    try reflexivity.
  cbn [sextets map length app]. rewrite padding_add3.
  replace (S (S (S (length l))) + 2)%nat with (length l + 2 + 1 * 3)%nat by lia.
  rewrite Nat.div_add by lia.
  cbn [map length app] in IH. lia.
Qed.

Lemma length_list_byte_of_string (s : string) :
  length (list_byte_of_string s) = String.length s.
Proof.
  unfold list_byte_of_string. rewrite length_map.
  rewrite <- (length_string_of_list_ascii (list_ascii_of_string s)),
    string_of_list_ascii_of_string. reflexivity.
Qed.

Lemma btoa_length (binary : string) :
  String.length (btoa binary)
  = (4 * ((String.length binary + 2) / 3))%nat.
Proof.
  unfold btoa. rewrite length_string_of_list_ascii.
  pose proof (encoded_length_exact (map byteValue (charCodes binary))) as H.
  unfold encoded in H. rewrite !length_map in H. rewrite H.
  unfold charCodes. rewrite length_list_byte_of_string. reflexivity.
Qed.

Lemma length_fromCharCode (bytes : Uint8Array) :
  String.length (String_fromCharCode bytes) = length bytes.
Proof.
  unfold String_fromCharCode, string_of_list_byte.
  rewrite length_string_of_list_ascii, length_map. reflexivity.
Qed.

End EncoderFacts.

(** X1. The manual encoder that [encryptData] falls back to produces, for
    every byte array, exactly the text of [btoa]: [atob] decodes it back to
    the bytes, and its length is four characters for every started group of
    three bytes. *)
Theorem fallbackEncode_is_base64 (combined : Uint8Array) :
  Base64.fallbackEncode combined
  = Base64.btoa (String_fromCharCode combined) ∧
  Base64.atob (Base64.fallbackEncode combined)
  = Some (String_fromCharCode combined) ∧
  String.length (Base64.fallbackEncode combined)
  = (4 * ((length combined + 2) / 3))%nat.
Proof.
  rewrite fallbackEncode_btoa, atob_btoa, btoa_length, length_fromCharCode.
  auto.
Qed.

Section LayoutFacts.

Context `{P : Platform}.
Import CryptoUtils.

Lemma deriveKey_unavailable (password : string) (salt : Uint8Array) :
  has_crypto_subtle = false ->
  deriveKey password salt
  = Throw (Error "Web Crypto API not available on this platform").
Proof. intros Hc. unfold deriveKey. rewrite Hc. reflexivity. Qed.

Lemma encryptData_unavailable (data : JSString) (password : string)
  (w : World) :
  has_crypto_subtle = false ->
  encryptData data password w
  = (Throw (Error "Web Crypto API not available on this platform"),
     setRandomUsed (randomUsed w + (SALT_LENGTH + IV_LENGTH)) w).
Proof.
  intros Hc. unfold encryptData, tryCatch, bind, liftResult, ret, throw.
  rewrite getRandomValues_ok by (unfold SALT_LENGTH; lia).
  rewrite getRandomValues_ok by (unfold IV_LENGTH; lia).
  rewrite deriveKey_unavailable by done.
  f_equal. unfold setRandomUsed. cbn [randomUsed]. f_equal.
  unfold SALT_LENGTH, IV_LENGTH. lia.
Qed.

Lemma storeEncryptedVault_unavailable (username : string)
  (entries : list PasswordEntry.t) (masterPassword : string) (w : World) :
  has_crypto_subtle = false ->
  SecureStorage.storeEncryptedVault username entries masterPassword w
  = (Throw (Error ("Failed to store encrypted vault: "
                   +:+ "Web Crypto API not available on this platform")),
     setRandomUsed (randomUsed w + 44) (setClockReads (S (clockReads w)) w)).
Proof.
  intros Hc.
  unfold SecureStorage.storeEncryptedVault, tryCatch, bind, newDateISO, throw.
  rewrite encryptData_unavailable by done. reflexivity.
Qed.

End LayoutFacts.

(** X2. Where the Web Crypto API is there, [encryptData] returns the base64
    text of salt, nonce and ciphertext in this order: the salt is the next 32
    bytes of the random source, the nonce the 12 bytes after them, the key is
    derived with PBKDF2 (600000 iterations, SHA-256, 256 bits) from the
    password and that salt; exactly 44 random bytes are consumed and nothing
    else of the world changes. *)
Theorem encryptData_layout
  (P : Platform) (data : JSString) (password : string) (w : World) :
  has_crypto_subtle = true ->
  let salt := randomBytes w (randomUsed w) 32 in
  let iv := randomBytes w (randomUsed w + 32) 12 in
  let key :=
    PBKDF2_deriveBits (TextEncoder_encode (codeUnits password)) salt 600000
                      "SHA-256" 256 in
  let encrypted := AES_GCM_encrypt key iv (TextEncoder_encode data) in
  ∃ blob,
    CryptoUtils.encryptData data password w
    = (Ok blob, setRandomUsed (randomUsed w + 44) w) ∧
    Base64.atob blob = Some (String_fromCharCode (salt ++ iv ++ encrypted)) ∧
    String.length blob = (4 * ((44 + length encrypted + 2) / 3))%nat.
Proof.
  intros Hc. cbv zeta. eexists. split; [|split].
  - rewrite encryptData_ok by done. reflexivity.
  - apply sealedBlob_bytes.
  - unfold sealedBlob. rewrite btoa_length, length_fromCharCode.
    rewrite !length_app.
    change (drawnSalt w) with (randomBytes w (randomUsed w) 32).
    change (drawnIv w) with (randomBytes w (randomUsed w + 32) 12).
    rewrite !randomBytes_length. do 3 f_equal.
Qed.

Lemma encryptData_layout_witness :
  let w := Model.world in
  let salt := randomBytes w (randomUsed w) 32 in
  let iv := randomBytes w (randomUsed w + 32) 12 in
  let key :=
    @PBKDF2_deriveBits Model.platform
      (@TextEncoder_encode Model.platform (codeUnits "correct horse")) salt
      600000 "SHA-256" 256 in
  let encrypted :=
    @AES_GCM_encrypt Model.platform key iv
      (@TextEncoder_encode Model.platform (codeUnits "hunter2")) in
  @has_crypto_subtle Model.platform = true ∧
  ∃ blob,
    @CryptoUtils.encryptData Model.platform (codeUnits "hunter2")
      "correct horse" w
    = (Ok blob, setRandomUsed (randomUsed w + 44) w) ∧
    Base64.atob blob = Some (String_fromCharCode (salt ++ iv ++ encrypted)) ∧
    String.length blob = (4 * ((44 + length encrypted + 2) / 3))%nat.
Proof.
  split; [reflexivity|].
  apply (encryptData_layout Model.platform (codeUnits "hunter2")
           "correct horse" Model.world).
  reflexivity.
Defined.

(** X3. Without the Web Crypto API, saving a vault fails with the message
    [Failed to store encrypted vault: Web Crypto API not available on this
    platform] and writes nothing to the store (the clock has been read and 44
    random bytes have been drawn), and every decryption fails with the generic
    error. *)
Theorem storeEncryptedVault_without_web_crypto
  (P : Platform) (username : string) (entries : list PasswordEntry.t)
  (masterPassword blob : string) (w : World) :
  has_crypto_subtle = false ->
  SecureStorage.storeEncryptedVault username entries masterPassword w
  = (Throw (Error ("Failed to store encrypted vault: "
                   +:+ "Web Crypto API not available on this platform")),
     setRandomUsed (randomUsed w + 44) (setClockReads (S (clockReads w)) w)) ∧
  secureStore
    (SecureStorage.storeEncryptedVault username entries masterPassword w).2
  = secureStore w ∧
  CryptoUtils.decryptData blob masterPassword
  = Throw (Error "Decryption failed - invalid password or corrupted data").
Proof.
  intros Hc.
  assert (Hstore :
    SecureStorage.storeEncryptedVault username entries masterPassword w
    = (Throw (Error ("Failed to store encrypted vault: "
                     +:+ "Web Crypto API not available on this platform")),
       setRandomUsed (randomUsed w + 44)
                     (setClockReads (S (clockReads w)) w))).
  { unfold SecureStorage.storeEncryptedVault, tryCatch, bind, newDateISO, throw.
    rewrite encryptData_unavailable by done. reflexivity. }
  rewrite Hstore. split; [reflexivity|]. split; [reflexivity|].
  unfold CryptoUtils.decryptData.
  destruct has_atob; [|reflexivity].
  destruct (Base64.atob blob); [|reflexivity].
  rewrite deriveKey_unavailable by done. reflexivity.
Qed.

Lemma storeEncryptedVault_without_web_crypto_witness :
  let P := platformWithoutWebCrypto in
  let w := Model.world in
  @has_crypto_subtle P = false ∧
  (@SecureStorage.storeEncryptedVault P "alice" [sampleEntry] "correct horse" w
   = (Throw (Error ("Failed to store encrypted vault: "
                    +:+ "Web Crypto API not available on this platform")),
      setRandomUsed (randomUsed w + 44)
                    (setClockReads (S (clockReads w)) w)) ∧
   secureStore
     (@SecureStorage.storeEncryptedVault P "alice" [sampleEntry]
        "correct horse" w).2
   = secureStore w ∧
   @CryptoUtils.decryptData P "AAAA" "correct horse"
   = Throw (Error "Decryption failed - invalid password or corrupted data")).
Proof.
  split; [reflexivity|].
  apply (storeEncryptedVault_without_web_crypto platformWithoutWebCrypto
           "alice" [sampleEntry] "correct horse" "AAAA" Model.world).
  reflexivity.
Defined.

(** ** The password generator and the strength rules *)

Section SelectionFacts.

Context `{P : Platform}.
Import CryptoUtils.

Lemma buildCharset_selected (c : Classes) :
  buildCharset (includeSymbols c) (includeNumbers c) (includeUppercase c)
               (includeLowercase c)
  = (selectedCharset c,
     Z.of_nat (String.length (selectedCharset c))
     + (if includeSymbols c then 1 else 0)).
Proof. by destruct c as [[] [] [] []]. Qed.

Lemma selectedCharset_nonempty (c : Classes) :
  noneSelected c = false -> (0 < String.length (selectedCharset c))%nat.
Proof.
  destruct c as [[] [] [] []]; intros H; try discriminate H;
    apply Nat.ltb_lt; reflexivity.
Qed.

Lemma nonempty_eqb (s : string) :
  (0 < String.length s)%nat -> String.eqb s EmptyString = false.
Proof. destruct s; [cbn; lia | reflexivity]. Qed.

Lemma generateSecurePassword_selected (length : Z) (c : Classes) (w : World) :
  noneSelected c = false -> 0 <= length <= 65536 ->
  generateSecurePassword length (includeSymbols c) (includeNumbers c)
                         (includeUppercase c) (includeLowercase c) w
  = (Ok (mkGenerated
           (pickChars (selectedCharset c)
                      (randomBytes w (randomUsed w) (Z.to_nat length)))
           (LengthTimesLog2 length
              (Z.of_nat (String.length (selectedCharset c))
               + (if includeSymbols c then 1 else 0)))),
     setRandomUsed (randomUsed w + Z.to_nat length) w).
Proof.
  intros Hsel Hlen. unfold generateSecurePassword.
  rewrite buildCharset_selected.
  rewrite nonempty_eqb by by apply selectedCharset_nonempty.
  pose proof typedArrays_of_65536 as Hmax.
  replace (length <? 0) with false by lia.
  replace (maxTypedArrayLength <? length) with false by lia.
  unfold bind, ret. cbn [orb]. rewrite getRandomValues_ok by lia. reflexivity.
Qed.

Lemma generateSecurePassword_length_errors (length : Z) (c : Classes)
  (w : World) :
  noneSelected c = false ->
  generateSecurePassword length (includeSymbols c) (includeNumbers c)
                         (includeUppercase c) (includeLowercase c) w
  = if (length <? 0) || (maxTypedArrayLength <? length)
    then (Throw (RangeError (invalidTypedArrayLength length)), w)
    else if 65536 <? length
    then (Throw (DOMException "QuotaExceededError"), w)
    else generateSecurePassword length (includeSymbols c) (includeNumbers c)
           (includeUppercase c) (includeLowercase c) w.
Proof.
  intros Hsel.
  destruct ((length <? 0) || (maxTypedArrayLength <? length)) eqn:Hrange.
  - unfold generateSecurePassword. rewrite buildCharset_selected.
    rewrite nonempty_eqb by by apply selectedCharset_nonempty.
    rewrite Hrange. reflexivity.
  - destruct (65536 <? length) eqn:Hbig; [|reflexivity].
    unfold generateSecurePassword. rewrite buildCharset_selected.
    rewrite nonempty_eqb by by apply selectedCharset_nonempty.
    rewrite Hrange. unfold bind, getRandomValues.
    apply orb_false_elim in Hrange as [Hneg _].
    rewrite Z2Nat.id by lia. rewrite Hbig. reflexivity.
Qed.

Lemma biasHolds_selected (c : Classes) :
  noneSelected c = false ->
  biasHolds (Z.of_nat (String.length (selectedCharset c))) = true.
Proof.
  destruct c as [[] [] [] []]; intros H; try discriminate H;
    vm_compute; reflexivity.
Qed.

End SelectionFacts.

(** X4. For every selection of at least one class, [generateSecurePassword]
    throws the [RangeError] of [new Uint8Array(length)] for a negative length
    and for a length beyond the typed-array limit of the platform, and a
    [QuotaExceededError] for a length above 65536 within that limit, in both
    cases without drawing random bytes; for every other length it returns a
    password of exactly that length whose characters all come from the
    selected classes, draws one random byte per character, and reports the
    entropy for a character count that is the real count plus one when the
    symbols are selected. *)
Theorem generateSecurePassword_any_selection
  (P : Platform) (length : Z) (c : Classes) (w : World) :
  noneSelected c = false ->
  let call :=
    CryptoUtils.generateSecurePassword length
      (includeSymbols c) (includeNumbers c) (includeUppercase c)
      (includeLowercase c) w in
  (length < 0 ∨ maxTypedArrayLength < length ->
   call = (Throw (RangeError (invalidTypedArrayLength length)), w)) ∧
  (65536 < length <= maxTypedArrayLength ->
   ∃ e, call = (Throw e, w) ∧ name e = "QuotaExceededError") ∧
  (0 <= length <= 65536 ->
   ∃ r,
     call = (Ok r, setRandomUsed (randomUsed w + Z.to_nat length) w) ∧
     Z.of_nat (String.length (CryptoUtils.password r)) = length ∧
     (∀ ch, In ch (list_ascii_of_string (CryptoUtils.password r)) ->
            In ch (list_ascii_of_string (selectedCharset c))) ∧
     CryptoUtils.entropy r
     = CryptoUtils.LengthTimesLog2 length
         (Z.of_nat (String.length (selectedCharset c))
          + (if includeSymbols c then 1 else 0))).
Proof.
  intros Hsel. cbv zeta. split; [|split].
  - intros Hrange. rewrite generateSecurePassword_length_errors by done.
    replace ((length <? 0) || (maxTypedArrayLength <? length)) with true;
      [reflexivity|].
    symmetry. apply orb_true_iff. lia.
  - intros Hbig. rewrite generateSecurePassword_length_errors by done.
    replace (length <? 0) with false by lia.
    replace (maxTypedArrayLength <? length) with false by lia.
    replace (65536 <? length) with true by lia. by eexists.
  - intros Hlen. eexists.
    split; [by apply generateSecurePassword_selected|].
    cbn [CryptoUtils.password CryptoUtils.entropy].
    pose proof (selectedCharset_nonempty c Hsel) as Hpos.
    split; [|split; [|reflexivity]].
    + rewrite pickChars_length, randomBytes_length by done. lia.
    + intros ch. by apply pickChars_in.
Qed.

(** On the model platform, whose typed arrays hold at most 4294967295
    elements, for the digits and the lowercase letters: the lengths [-1] and
    [9007199254740992], the length [70000] and the length [20]. *)
Lemma generateSecurePassword_any_selection_witness :
  let c := mkClasses false true false true in
  let call length :=
    @CryptoUtils.generateSecurePassword Model.platform length
      (includeSymbols c) (includeNumbers c) (includeUppercase c)
      (includeLowercase c) Model.world in
  noneSelected c = false ∧
  call (-1)
  = (Throw (RangeError "Invalid typed array length: -1"), Model.world) ∧
  call 9007199254740992
  = (Throw (RangeError "Invalid typed array length: 9007199254740992"),
     Model.world) ∧
  (∃ e, call 70000 = (Throw e, Model.world) ∧ name e = "QuotaExceededError") ∧
  (∃ r,
     call 20 = (Ok r, setRandomUsed 20 Model.world) ∧
     String.length (CryptoUtils.password r) = 20%nat ∧
     (∀ ch, In ch (list_ascii_of_string (CryptoUtils.password r)) ->
            In ch (list_ascii_of_string (selectedCharset c))) ∧
     CryptoUtils.entropy r = CryptoUtils.LengthTimesLog2 20 36).
Proof.
  cbv zeta. split; [reflexivity|].
  pose proof (fun length =>
                generateSecurePassword_any_selection Model.platform length
                  (mkClasses false true false true) Model.world eq_refl)
    as Hcall.
  cbv zeta in Hcall.
  split; [|split; [|split]].
  - destruct (Hcall (-1)) as (Hrange & _ & _).
    apply Hrange. left. reflexivity.
  - destruct (Hcall 9007199254740992) as (Hrange & _ & _).
    apply Hrange. right. reflexivity.
  - destruct (Hcall 70000) as (_ & Hquota & _).
    apply Hquota. split; [reflexivity | discriminate].
  - destruct (Hcall 20) as (_ & _ & Hok).
    destruct Hok as (r & Hrun & Hlength & Hchars & Hentropy);
      [split; discriminate|].
    exists r. split; [exact Hrun|]. split; [|split; [exact Hchars|]].
    + apply Nat2Z.inj. exact Hlength.
    + exact Hentropy.
Defined.

(** X5. The generator picks the character at index [byte mod size] of the
    selected character set. For every selection of classes the 256 byte values
    do not spread evenly: the character at index [k] is picked by [256 / size]
    byte values, and by one more when [k < 256 mod size], which is never zero;
    the first characters of the set are more likely than the last ones. *)
Theorem pickChars_modulo_bias (c : Classes) (k : Z) :
  noneSelected c = false ->
  let size := Z.of_nat (String.length (selectedCharset c)) in
  0 <= k < size ->
  (∀ x, CryptoUtils.pickChars (selectedCharset c) [x]
        = CryptoUtils.charsetAt (selectedCharset c) (byteValue x mod size)) ∧
  (∀ x, In (byteValue x) (bytesSelecting size k) <-> byteValue x mod size = k) ∧
  Z.of_nat (length (bytesSelecting size k))
  = 256 / size + (if k <? 256 mod size then 1 else 0) ∧
  0 < 256 mod size.
Proof.
  intros Hsel size Hk. pose proof (biasHolds_selected c Hsel) as Hbias.
  fold size in Hbias. unfold biasHolds in Hbias.
  apply andb_prop in Hbias as [Hall Hpos].
  rewrite forallb_forall in Hall.
  split; [|split; [|split]].
  - intros x. subst size. cbn [CryptoUtils.pickChars].
    unfold CryptoUtils.charsetAt.
    match goal with |- context [match ?o with Some _ => _ | None => _ end] =>
      destruct o end; reflexivity.
  - intros x. unfold bytesSelecting. rewrite List.filter_In, Z.eqb_eq.
    split; [tauto|]. intros Hmod. split; [|exact Hmod].
    pose proof (byteValue_range x) as Hx.
    apply in_map_iff. exists (Z.to_nat (byteValue x)).
    split; [lia | apply in_seq; lia].
  - apply Z.eqb_eq, Hall, in_map_iff. exists (Z.to_nat k).
    split; [lia | apply in_seq; lia].
  - lia.
Qed.

Lemma pickChars_modulo_bias_witness :
  let c := mkClasses true true true true in
  let size := Z.of_nat (String.length (selectedCharset c)) in
  noneSelected c = false ∧ 0 <= 0 < size ∧
  ((∀ x, CryptoUtils.pickChars (selectedCharset c) [x]
         = CryptoUtils.charsetAt (selectedCharset c) (byteValue x mod size)) ∧
   (∀ x, In (byteValue x) (bytesSelecting size 0)
         <-> byteValue x mod size = 0) ∧
   Z.of_nat (length (bytesSelecting size 0))
   = 256 / size + (if 0 <? 256 mod size then 1 else 0) ∧
   0 < 256 mod size).
Proof.
  cbv zeta. split; [reflexivity|]. split; [vm_compute; split; [discriminate | reflexivity]|].
  apply (pickChars_modulo_bias (mkClasses true true true true) 0);
    [reflexivity | vm_compute; split; [discriminate | reflexivity]].
Defined.

Section TextFacts.

Lemma ascii_cases (f : ascii -> bool) :
  forallb f (map ascii_of_nat (seq 0 256)) = true -> ∀ c, f c = true.
Proof.
  intros Hall c. rewrite forallb_forall in Hall.
  rewrite <- (ascii_nat_embedding c). apply Hall.
  apply in_map, in_seq. pose proof (nat_ascii_bounded c). lia.
Qed.

Lemma trimStart_blank (s : string) :
  trimsToEmpty (trimStart s) = trimsToEmpty s.
Proof.
  induction s as [|c s IH]; [reflexivity|]. cbn [trimStart trimsToEmpty].
  destruct (isWhiteSpace c) eqn:Hc; [exact IH|].
  cbn [trimsToEmpty]. rewrite Hc. reflexivity.
Qed.

Lemma trimEnd_blank (s : string) :
  String.eqb (trimEnd s) EmptyString = trimsToEmpty s.
Proof.
  induction s as [|c s IH]; [reflexivity|]. cbn [trimEnd trimsToEmpty].
  rewrite IH. destruct (isWhiteSpace c), (trimsToEmpty s); reflexivity.
Qed.

Lemma trim_blank (s : string) :
  String.eqb (trim s) EmptyString = trimsToEmpty s.
Proof. unfold trim. rewrite trimEnd_blank. apply trimStart_blank. Qed.

Lemma lowerChar_whitespace (c : ascii) :
  isWhiteSpace (lowerChar c) = isWhiteSpace c.
Proof.
  apply Bool.eqb_prop.
  apply (ascii_cases (fun c => Bool.eqb (isWhiteSpace (lowerChar c))
                                        (isWhiteSpace c))).
  vm_compute. reflexivity.
Qed.

Lemma toLowerCase_blank (s : string) :
  trimsToEmpty (toLowerCase s) = trimsToEmpty s.
Proof.
  induction s as [|c s IH]; [reflexivity|]. cbn [toLowerCase trimsToEmpty].
  rewrite lowerChar_whitespace, IH. reflexivity.
Qed.

Lemma filter_filter_same {A} (f : A -> bool) (l : list A) :
  List.filter f (List.filter f l) = List.filter f l.
Proof.
  induction l as [|a l IH]; [reflexivity|]. cbn [List.filter].
  destruct (f a) eqn:Ha; [|exact IH]. cbn [List.filter]. rewrite Ha, IH.
  reflexivity.
Qed.

Lemma filter_sublist {A} (f : A -> bool) (l : list A) :
  sublist (List.filter f l) l.
Proof.
  induction l as [|a l IH]; [constructor|]. cbn [List.filter].
  destruct (f a); by constructor.
Qed.

Lemma testClass_In (class : ascii -> bool) (s : string) :
  testClass class s = true
  <-> ∃ c, In c (list_ascii_of_string s) ∧ class c = true.
Proof.
  induction s as [|a s IH]; cbn [testClass list_ascii_of_string].
  - split; [discriminate | intros (c & [] & _)].
  - rewrite Bool.orb_true_iff, IH. split.
    + intros [Ha | (c & Hin & Hc)]; [exists a | exists c]; cbn; auto.
    + intros (c & [<- | Hin] & Hc); [left | right; exists c]; auto.
Qed.

Lemma pushIf_nil (condition : bool) (m : string) (l : list string) :
  pushIf condition m l = [] <-> l = [] ∧ condition = false.
Proof.
  unfold pushIf. destruct condition.
  - split; [|intros [_ ?]; discriminate].
    intros Happ. apply app_eq_nil in Happ as [_ ?]. discriminate.
  - intuition.
Qed.

Lemma In_pushed (b1 b2 b3 b4 b5 : bool) (m1 m2 m3 m4 m5 m : string) :
  In m (pushIf b5 m5 (pushIf b4 m4 (pushIf b3 m3 (pushIf b2 m2
          (pushIf b1 m1 [])))))
  <-> (b1 = true ∧ m = m1) ∨ (b2 = true ∧ m = m2) ∨ (b3 = true ∧ m = m3)
      ∨ (b4 = true ∧ m = m4) ∨ (b5 = true ∧ m = m5).
Proof.
  destruct b1, b2, b3, b4, b5; cbn; intuition (try discriminate; auto).
Qed.

Lemma isValid_errors (password : string) :
  isValid (validatePasswordStrength password) = true
  <-> errors (validatePasswordStrength password) = [].
Proof.
  unfold validatePasswordStrength. cbn [isValid errors].
  rewrite Nat.eqb_eq. split.
  - apply nil_length_inv.
  - intros ->. reflexivity.
Qed.

Lemma errors_nil (password : string) :
  errors (validatePasswordStrength password) = []
  <-> (8 <= String.length password)%nat
      ∧ testClass isLowercaseLetter password = true
      ∧ testClass isUppercaseLetter password = true
      ∧ testClass isDigit password = true
      ∧ testClass isSpecialCharacter password = true.
Proof.
  unfold validatePasswordStrength. cbn [errors].
  rewrite !pushIf_nil, !Bool.negb_false_iff, Nat.ltb_ge. intuition.
Qed.

Lemma valid_not_empty (password : string) :
  isValid (validatePasswordStrength password) = true ->
  String.eqb password EmptyString = false.
Proof.
  unfold validatePasswordStrength. cbn [isValid].
  destruct password; [|reflexivity]. intros H. vm_compute in H. discriminate.
Qed.

Lemma existsb_eqb_In (c : ascii) (l : list ascii) :
  existsb (Ascii.eqb c) l = true <-> In c l.
Proof.
  rewrite existsb_exists. split.
  - intros (x & Hin & Heq). apply Ascii.eqb_eq in Heq. congruence.
  - intros Hin. exists c. split; [exact Hin | apply Ascii.eqb_refl].
Qed.

Lemma class_is_charset (class : ascii -> bool) (charset : string) :
  forallb (fun c => Bool.eqb (class c)
                      (existsb (Ascii.eqb c) (list_ascii_of_string charset)))
          (map ascii_of_nat (seq 0 256)) = true ->
  ∀ c, class c = true <-> In c (list_ascii_of_string charset).
Proof.
  intros Hall c. rewrite <- existsb_eqb_In.
  pose proof (ascii_cases _ Hall c) as Hc. apply Bool.eqb_prop in Hc.
  rewrite Hc. reflexivity.
Qed.

End TextFacts.

(** X6. [validatePasswordStrength] accepts a password exactly when it reports
    no error, and exactly when the password has at least eight characters and
    contains a lowercase letter, an uppercase letter, a digit and a special
    character; each of the five messages is reported exactly when its rule is
    broken. *)
Theorem validatePasswordStrength_rules (password : string) :
  let v := validatePasswordStrength password in
  (isValid v = true <-> errors v = []) ∧
  (isValid v = true
   <-> (8 <= String.length password)%nat
       ∧ (∃ c, In c (list_ascii_of_string password)
               ∧ isLowercaseLetter c = true)
       ∧ (∃ c, In c (list_ascii_of_string password)
               ∧ isUppercaseLetter c = true)
       ∧ (∃ c, In c (list_ascii_of_string password) ∧ isDigit c = true)
       ∧ (∃ c, In c (list_ascii_of_string password)
               ∧ isSpecialCharacter c = true)) ∧
  (In "Password must be at least 8 characters long" (errors v)
   <-> (String.length password < 8)%nat) ∧
  (In "Password must contain at least one lowercase letter" (errors v)
   <-> testClass isLowercaseLetter password = false) ∧
  (In "Password must contain at least one uppercase letter" (errors v)
   <-> testClass isUppercaseLetter password = false) ∧
  (In "Password must contain at least one digit" (errors v)
   <-> testClass isDigit password = false) ∧
  (In "Password must contain at least one special character" (errors v)
   <-> testClass isSpecialCharacter password = false).
Proof.
  cbv zeta. split; [apply isValid_errors|].
  split.
  { etransitivity; [apply isValid_errors|].
    etransitivity; [apply errors_nil|].
    pose proof (testClass_In isLowercaseLetter password).
    pose proof (testClass_In isUppercaseLetter password).
    pose proof (testClass_In isDigit password).
    pose proof (testClass_In isSpecialCharacter password).
    tauto. }
  unfold validatePasswordStrength. cbn [errors].
  pose proof (Nat.ltb_lt (String.length password) 8) as H1.
  pose proof (Bool.negb_true_iff (testClass isLowercaseLetter password)) as H2.
  pose proof (Bool.negb_true_iff (testClass isUppercaseLetter password)) as H3.
  pose proof (Bool.negb_true_iff (testClass isDigit password)) as H4.
  pose proof (Bool.negb_true_iff (testClass isSpecialCharacter password))
    as H5.
  split; [|split; [|split; [|split]]];
    (etransitivity; [apply In_pushed|]); intuition (try discriminate).
Qed.

(** X7. The four character classes of the strength rules are the four
    character sets of the generator: a character is a lowercase letter, an
    uppercase letter, a digit or a special character for
    [validatePasswordStrength] exactly when [generateSecurePassword] draws it
    from the corresponding set. *)
Theorem validator_classes_are_generator_classes (c : ascii) :
  (isLowercaseLetter c = true
   <-> In c (list_ascii_of_string CryptoUtils.lowercaseChars)) ∧
  (isUppercaseLetter c = true
   <-> In c (list_ascii_of_string CryptoUtils.uppercaseChars)) ∧
  (isDigit c = true <-> In c (list_ascii_of_string CryptoUtils.digitChars)) ∧
  (isSpecialCharacter c = true
   <-> In c (list_ascii_of_string CryptoUtils.symbolChars)).
Proof.
  repeat split; revert c; apply class_is_charset; vm_compute; reflexivity.
Qed.

(** ** The secure store: vaults, users and the current user *)

Section KeyFacts.

Lemma append_inj_r (prefix s t : string) :
  prefix +:+ s = prefix +:+ t -> s = t.
Proof.
  induction prefix as [|c prefix IH]; [auto|].
  change (String c prefix +:+ s) with (String c (prefix +:+ s)).
  change (String c prefix +:+ t) with (String c (prefix +:+ t)).
  intros [=]. auto.
Qed.

Lemma vaultKey_inj (username username' : string) :
  vaultKey username = vaultKey username' -> username = username'.
Proof. apply append_inj_r. Qed.

Lemma USERS_KEY_not_CURRENT_USER_KEY : USERS_KEY ≠ CURRENT_USER_KEY.
Proof. discriminate. Qed.

Lemma deleteVaults_ok (users : list User.t) (w : World) :
  ∃ w',
    deleteVaults users w = (Ok tt, w') ∧
    ∀ key,
      secureStore w' !! key
      = if bool_decide (key ∈ map (fun user => vaultKey (User.username user))
                                  users)
        then None else secureStore w !! key.
Proof.
  revert w. induction users as [|user users IH]; intros w.
  - exists w. split; [reflexivity|]. intros key.
    rewrite bool_decide_eq_false_2; [reflexivity | apply not_elem_of_nil].
  - cbn [deleteVaults]. unfold bind at 1.
    unfold deleteVault, tryCatch, SecureStore_deleteItemAsync.
    fold (vaultKey (User.username user)).
    destruct (IH (setSecureStore
                    (delete (vaultKey (User.username user)) (secureStore w))
                    w)) as (w' & -> & Hlookup).
    exists w'. split; [reflexivity|]. intros key. rewrite Hlookup.
    cbn [secureStore setSecureStore map].
    destruct (decide (key = vaultKey (User.username user))) as [->|Hne].
    + rewrite lookup_delete_eq.
      rewrite (bool_decide_eq_true_2 (_ ∈ _ :: _)) by apply list_elem_of_here.
      by destruct (bool_decide _).
    + rewrite lookup_delete_ne by done.
      destruct (bool_decide (key ∈ map _ users)) eqn:Hin.
      * apply bool_decide_eq_true_1 in Hin.
        rewrite bool_decide_eq_true_2; [reflexivity|].
        by apply list_elem_of_further.
      * apply bool_decide_eq_false_1 in Hin.
        rewrite bool_decide_eq_false_2; [reflexivity|].
        intros Hin'. apply elem_of_cons in Hin' as [?|?]; done.
Qed.

End KeyFacts.

Section LifecycleFacts.

Context `{P : Platform}.

Lemma vaultExists_lookup (username : string) (w : World) :
  vaultExists username w
  = (Ok (match secureStore w !! vaultKey username with
         | None => false
         | Some _ => true
         end), w).
Proof. reflexivity. Qed.

Lemma decryptData_throws (blob password : string) (e : Exception) :
  CryptoUtils.decryptData blob password = Throw e -> e = decryptionFailed.
Proof.
  intros Hfail. unfold CryptoUtils.decryptData in Hfail.
  unfold decryptionFailed.
  repeat match type of Hfail with
         | context [match ?x with _ => _ end] => destruct x
         end; congruence.
Qed.

Lemma getEncryptedVault_falsy (username masterPassword : string) (w : World) :
  SecureStorage.falsy (secureStore w !! vaultKey username) = true ->
  SecureStorage.getEncryptedVault username masterPassword w = (Ok [], w).
Proof.
  intros Hfalsy.
  unfold SecureStorage.getEncryptedVault, tryCatch, bind,
    SecureStore_getItemAsync, ret.
  fold (vaultKey username). rewrite Hfalsy. reflexivity.
Qed.

End LifecycleFacts.

(** X8. [getEncryptedVault] never changes the world, and its result is the
    empty list when the key holds nothing or the empty text; otherwise the
    error [Invalid master password] when the blob does not decrypt;
    otherwise the entries of the parsed vault (the empty list when the vault
    has none) when the decrypted text parses; otherwise the error [Failed to
    retrieve vault data], or [Invalid master password] should the message of
    the parser contain [Decryption failed]. *)
Theorem getEncryptedVault_reads_only
  (P : Platform) (username masterPassword : string) (w : World) :
  SecureStorage.getEncryptedVault username masterPassword w
  = (match secureStore w !! vaultKey username with
     | None => Ok []
     | Some blob =>
         if String.eqb blob EmptyString then Ok []
         else
           match CryptoUtils.decryptData blob masterPassword with
           | Throw _ => Throw (Error "Invalid master password")
           | Ok text =>
               match JSON_parse text with
               | Ok vaultData => Ok (default [] (vd_entries vaultData))
               | Throw e =>
                   Throw (Error (if includes (message e) "Decryption failed"
                                 then "Invalid master password"
                                 else "Failed to retrieve vault data"))
               end
           end
     end,
     w).
Proof.
  unfold SecureStorage.getEncryptedVault, tryCatch, bind,
    SecureStore_getItemAsync, liftResult, ret, throw.
  fold (vaultKey username).
  destruct (secureStore w !! vaultKey username) as [blob|] eqn:Hstore;
    [|reflexivity].
  cbn [SecureStorage.falsy].
  destruct (String.eqb blob EmptyString) eqn:Hblob; [reflexivity|].
  cbn [default from_option]. unfold Datatypes.id.
  destruct (CryptoUtils.decryptData blob masterPassword) as [text|e] eqn:Hd.
  - destruct (JSON_parse text) as [vaultData|e] eqn:Hp; [reflexivity|].
    by destruct (includes (message e) "Decryption failed").
  - apply decryptData_throws in Hd as ->. reflexivity.
Qed.

(** X9. After a vault has been saved for a user, [vaultExists] is true; after
    [deleteVault] it is false and [getEncryptedVault] returns the empty list
    for every master password; neither the save nor the deletion touches the
    vault of another user. *)
Theorem vault_lifecycle (P : Platform) (username : string)
  (entries : list PasswordEntry.t) (masterPassword : string) (w : World) :
  has_crypto_subtle = true ->
  ∃ w1 w2,
    SecureStorage.storeEncryptedVault username entries masterPassword w
    = (Ok tt, w1) ∧
    vaultExists username w1 = (Ok true, w1) ∧
    deleteVault username w1 = (Ok tt, w2) ∧
    vaultExists username w2 = (Ok false, w2) ∧
    (∀ password,
       SecureStorage.getEncryptedVault username password w2 = (Ok [], w2)) ∧
    (∀ other, other ≠ username ->
       secureStore w1 !! vaultKey other = secureStore w !! vaultKey other ∧
       secureStore w2 !! vaultKey other = secureStore w !! vaultKey other).
Proof.
  intros Hc. eexists _, _. split; [by apply storeEncryptedVault_ok|].
  split; [|split; [reflexivity|]].
  - rewrite vaultExists_lookup, storedWorld_lookup. reflexivity.
  - assert (Hgone :
      secureStore
        (setSecureStore
           (delete (SecureStorage.VAULT_PREFIX +:+ username)
              (secureStore
                 (storedWorld username entries masterPassword w)))
           (storedWorld username entries masterPassword w))
        !! vaultKey username = None).
    { cbn [secureStore setSecureStore]. apply lookup_delete_eq. }
    split; [|split].
    + rewrite vaultExists_lookup, Hgone. reflexivity.
    + intros password. apply getEncryptedVault_falsy. by rewrite Hgone.
    + intros other Hother.
      assert (vaultKey other ≠ vaultKey username)
        by (intros Heq; by apply vaultKey_inj in Heq).
      unfold storedWorld. cbn [secureStore setSecureStore].
      fold (vaultKey username).
      rewrite lookup_delete_ne by done. rewrite !lookup_insert_ne by done.
      done.
Qed.

Lemma vault_lifecycle_witness :
  @has_crypto_subtle Model.platform = true ∧
  ∃ w1 w2,
    @SecureStorage.storeEncryptedVault Model.platform "alice" [sampleEntry]
      "correct horse" Model.world
    = (Ok tt, w1) ∧
    vaultExists "alice" w1 = (Ok true, w1) ∧
    deleteVault "alice" w1 = (Ok tt, w2) ∧
    vaultExists "alice" w2 = (Ok false, w2) ∧
    (∀ password,
       @SecureStorage.getEncryptedVault Model.platform "alice" password w2
       = (Ok [], w2)) ∧
    (∀ other, other ≠ "alice" ->
       secureStore w1 !! vaultKey other
       = secureStore Model.world !! vaultKey other ∧
       secureStore w2 !! vaultKey other
       = secureStore Model.world !! vaultKey other).
Proof.
  split; [reflexivity|].
  apply (vault_lifecycle Model.platform "alice" [sampleEntry] "correct horse"
           Model.world).
  reflexivity.
Defined.

Section UsersFacts.

Context `{J : UsersJSON}.

Lemma getUsers_frame (w : World) :
  ∃ users, getUsers w = (Ok users, w).
Proof.
  unfold getUsers, tryCatch, bind, SecureStore_getItemAsync, liftResult, ret.
  destruct (SecureStorage.falsy _); [by eexists|].
  destruct (JSON_parse_users _); by eexists.
Qed.

Lemma getUsers_stored (users : list User.t) (store : gmap string string)
  (w : World) :
  store !! USERS_KEY = Some (JSON_stringify_users users) ->
  JSON_parse_users (JSON_stringify_users users) = Ok users ->
  JSON_stringify_users users ≠ EmptyString ->
  getUsers (setSecureStore store w) = (Ok users, setSecureStore store w).
Proof.
  intros Hstore Hparse Hne.
  unfold getUsers, tryCatch, bind, SecureStore_getItemAsync, liftResult.
  cbn [secureStore setSecureStore]. rewrite Hstore.
  rewrite falsy_nonempty by done.
  cbn [default from_option]. unfold Datatypes.id. by rewrite Hparse.
Qed.

End UsersFacts.

(** X10. [getUsers] and [getCurrentUser] never throw and never change the
    world: they return the empty list, respectively no user, when the key
    holds nothing or the empty text and when the stored text does not parse. *)
Theorem stored_users_reads_never_fail (J : UsersJSON) (w : World) :
  (∃ users,
     getUsers w = (Ok users, w) ∧
     (SecureStorage.falsy (secureStore w !! USERS_KEY) = true -> users = []) ∧
     (∀ text e, secureStore w !! USERS_KEY = Some text ->
                JSON_parse_users text = Throw e -> users = [])) ∧
  (∃ user,
     getCurrentUser w = (Ok user, w) ∧
     (SecureStorage.falsy (secureStore w !! CURRENT_USER_KEY) = true ->
      user = None) ∧
     (∀ text e, secureStore w !! CURRENT_USER_KEY = Some text ->
                JSON_parse_user text = Throw e -> user = None)).
Proof.
  unfold getUsers, getCurrentUser, tryCatch, bind, SecureStore_getItemAsync,
    liftResult, ret.
  split.
  - destruct (secureStore w !! USERS_KEY) as [text|] eqn:Hstore.
    + destruct (SecureStorage.falsy (Some text)) eqn:Hfalsy.
      * exists []. auto.
      * cbn [default from_option]. unfold Datatypes.id.
        destruct (JSON_parse_users text) as [users|e] eqn:Hparse.
        -- exists users. split; [reflexivity|]. split; [discriminate|].
           intros text' e' [= <-]. congruence.
        -- exists []. auto.
    + exists []. auto.
  - destruct (secureStore w !! CURRENT_USER_KEY) as [text|] eqn:Hstore.
    + destruct (SecureStorage.falsy (Some text)) eqn:Hfalsy.
      * exists None. auto.
      * cbn [default from_option]. unfold Datatypes.id.
        destruct (JSON_parse_user text) as [user|e] eqn:Hparse.
        -- exists user. split; [reflexivity|]. split; [discriminate|].
           intros text' e' [= <-]. congruence.
        -- exists None. auto.
    + exists None. auto.
Qed.

(** X11. Round trip of the users: after [storeUsers], [getUsers] returns the
    list that was stored, for every list that [JSON] carries unchanged, and no
    other key of the store has changed. *)
Theorem storeUsers_getUsers (J : UsersJSON) (users : list User.t) (w : World) :
  JSON_parse_users (JSON_stringify_users users) = Ok users ->
  JSON_stringify_users users ≠ EmptyString ->
  ∃ w',
    storeUsers users w = (Ok tt, w') ∧
    getUsers w' = (Ok users, w') ∧
    (∀ key, key ≠ USERS_KEY -> secureStore w' !! key = secureStore w !! key).
Proof.
  intros Hparse Hne.
  exists (setSecureStore (<[USERS_KEY := JSON_stringify_users users]>
                            (secureStore w)) w).
  split; [reflexivity|]. split.
  - unfold getUsers, tryCatch, bind, SecureStore_getItemAsync, liftResult.
    cbn [secureStore setSecureStore]. rewrite lookup_insert_eq.
    rewrite falsy_nonempty by done.
    cbn [default from_option]. unfold Datatypes.id. by rewrite Hparse.
  - intros key Hkey. cbn [secureStore setSecureStore].
    by rewrite lookup_insert_ne.
Qed.

Lemma storeUsers_getUsers_witness :
  let users := [Model.alice; User.mk "bob" "vault_bob.dat"] in
  @JSON_parse_users modelUsersJSON (@JSON_stringify_users modelUsersJSON users)
  = Ok users ∧
  @JSON_stringify_users modelUsersJSON users ≠ EmptyString ∧
  ∃ w',
    @storeUsers modelUsersJSON users Model.world = (Ok tt, w') ∧
    @getUsers modelUsersJSON w' = (Ok users, w') ∧
    (∀ key, key ≠ USERS_KEY ->
            secureStore w' !! key = secureStore Model.world !! key).
Proof.
  cbv zeta. split; [reflexivity|]. split; [discriminate|].
  apply (storeUsers_getUsers modelUsersJSON
           [Model.alice; User.mk "bob" "vault_bob.dat"] Model.world);
    [reflexivity | discriminate].
Defined.

(** X12. Round trip of the current user: after [storeCurrentUser],
    [getCurrentUser] returns that user; after [clearCurrentUser] it returns no
    user; no other key of the store has changed. *)
Theorem storeCurrentUser_getCurrentUser (J : UsersJSON) (user : User.t)
  (w : World) :
  JSON_parse_user (JSON_stringify_user user) = Ok (Some user) ->
  JSON_stringify_user user ≠ EmptyString ->
  ∃ w1 w2,
    storeCurrentUser user w = (Ok tt, w1) ∧
    getCurrentUser w1 = (Ok (Some user), w1) ∧
    clearCurrentUser w1 = (Ok tt, w2) ∧
    getCurrentUser w2 = (Ok None, w2) ∧
    (∀ key, key ≠ CURRENT_USER_KEY ->
            secureStore w1 !! key = secureStore w !! key
            ∧ secureStore w2 !! key = secureStore w !! key).
Proof.
  intros Hparse Hne.
  exists (setSecureStore (<[CURRENT_USER_KEY := JSON_stringify_user user]>
                            (secureStore w)) w).
  eexists. split; [reflexivity|]. split; [|split; [reflexivity|split]].
  - unfold getCurrentUser, tryCatch, bind, SecureStore_getItemAsync,
      liftResult.
    cbn [secureStore setSecureStore]. rewrite lookup_insert_eq.
    rewrite falsy_nonempty by done.
    cbn [default from_option]. unfold Datatypes.id. by rewrite Hparse.
  - unfold getCurrentUser, tryCatch, bind, SecureStore_getItemAsync, ret.
    cbn [secureStore setSecureStore]. rewrite lookup_delete_eq. reflexivity.
  - intros key Hkey. cbn [secureStore setSecureStore].
    rewrite lookup_delete_ne by done. by rewrite lookup_insert_ne.
Qed.

Lemma storeCurrentUser_getCurrentUser_witness :
  @JSON_parse_user modelUsersJSON
    (@JSON_stringify_user modelUsersJSON Model.alice) = Ok (Some Model.alice) ∧
  @JSON_stringify_user modelUsersJSON Model.alice ≠ EmptyString ∧
  ∃ w1 w2,
    @storeCurrentUser modelUsersJSON Model.alice Model.world = (Ok tt, w1) ∧
    @getCurrentUser modelUsersJSON w1 = (Ok (Some Model.alice), w1) ∧
    clearCurrentUser w1 = (Ok tt, w2) ∧
    @getCurrentUser modelUsersJSON w2 = (Ok None, w2) ∧
    (∀ key, key ≠ CURRENT_USER_KEY ->
            secureStore w1 !! key = secureStore Model.world !! key
            ∧ secureStore w2 !! key = secureStore Model.world !! key).
Proof.
  split; [reflexivity|]. split; [discriminate|].
  apply (storeCurrentUser_getCurrentUser modelUsersJSON Model.alice
           Model.world); [reflexivity | discriminate].
Defined.

(** X13. [clearAllData] succeeds and leaves no users list, no current user and
    no vault of a listed user; every other key of the store, the vault of a
    user who is not in the list included, stays as it was. *)
Theorem clearAllData_clears (J : UsersJSON) (w : World) (users : list User.t) :
  getUsers w = (Ok users, w) ->
  ∃ w',
    clearAllData w = (Ok tt, w') ∧
    secureStore w' !! USERS_KEY = None ∧
    secureStore w' !! CURRENT_USER_KEY = None ∧
    (∀ user, In user users ->
             secureStore w' !! vaultKey (User.username user) = None) ∧
    (∀ key,
       key ≠ USERS_KEY -> key ≠ CURRENT_USER_KEY ->
       (∀ user, In user users -> key ≠ vaultKey (User.username user)) ->
       secureStore w' !! key = secureStore w !! key) ∧
    getUsers w' = (Ok [], w') ∧
    getCurrentUser w' = (Ok None, w').
Proof.
  intros Husers. unfold clearAllData, tryCatch at 1. unfold bind at 1.
  rewrite Husers. unfold bind at 1.
  unfold clearCurrentUser, tryCatch at 1, SecureStore_deleteItemAsync at 1.
  unfold bind at 1. unfold SecureStore_deleteItemAsync at 1.
  cbn [secureStore setSecureStore].
  match goal with
  | |- context [deleteVaults users ?w0] =>
      destruct (deleteVaults_ok users w0) as (w' & -> & Hlookup)
  end.
  cbn [secureStore setSecureStore] in Hlookup.
  assert (Hlisted : ∀ user, In user users ->
            vaultKey (User.username user)
            ∈ map (fun user => vaultKey (User.username user)) users).
  { intros user Hin. apply list_elem_of_In, in_map_iff. by exists user. }
  assert (Hu : secureStore w' !! USERS_KEY = None).
  { rewrite Hlookup. destruct (bool_decide _); [reflexivity|].
    apply lookup_delete_eq. }
  assert (Hc : secureStore w' !! CURRENT_USER_KEY = None).
  { rewrite Hlookup. destruct (bool_decide _); [reflexivity|].
    rewrite lookup_delete_ne by apply USERS_KEY_not_CURRENT_USER_KEY.
    apply lookup_delete_eq. }
  exists w'. split; [reflexivity|]. repeat split.
  - exact Hu.
  - exact Hc.
  - intros user Hin. rewrite Hlookup.
    rewrite bool_decide_eq_true_2 by by apply Hlisted. reflexivity.
  - intros key Hk1 Hk2 Hk3. rewrite Hlookup.
    rewrite bool_decide_eq_false_2.
    + rewrite !lookup_delete_ne by done. reflexivity.
    + intros Hin. apply list_elem_of_In, in_map_iff in Hin
        as (user & <- & Hin). by apply (Hk3 user).
  - unfold getUsers, tryCatch, bind, SecureStore_getItemAsync.
    rewrite Hu. reflexivity.
  - unfold getCurrentUser, tryCatch, bind, SecureStore_getItemAsync.
    rewrite Hc. reflexivity.
Qed.

Lemma clearAllData_clears_witness :
  let users := [Model.alice] in
  let w := (@storeUsers modelUsersJSON users worldWithVault).2 in
  @getUsers modelUsersJSON w = (Ok users, w) ∧
  ∃ w',
    @clearAllData modelUsersJSON w = (Ok tt, w') ∧
    secureStore w' !! USERS_KEY = None ∧
    secureStore w' !! CURRENT_USER_KEY = None ∧
    (∀ user, In user users ->
             secureStore w' !! vaultKey (User.username user) = None) ∧
    (∀ key,
       key ≠ USERS_KEY -> key ≠ CURRENT_USER_KEY ->
       (∀ user, In user users -> key ≠ vaultKey (User.username user)) ->
       secureStore w' !! key = secureStore w !! key) ∧
    @getUsers modelUsersJSON w' = (Ok [], w') ∧
    @getCurrentUser modelUsersJSON w' = (Ok None, w').
Proof.
  cbv zeta.
  assert (Husers :
    @getUsers modelUsersJSON
      (@storeUsers modelUsersJSON [Model.alice] worldWithVault).2
    = (Ok [Model.alice],
       (@storeUsers modelUsersJSON [Model.alice] worldWithVault).2)).
  { apply (@getUsers_stored modelUsersJSON);
      [apply lookup_insert_eq | reflexivity | discriminate]. }
  split; [exact Husers|].
  apply (clearAllData_clears modelUsersJSON _ [Model.alice] Husers).
Defined.

(** ** The vault context *)

(** X14. [searchEntries] returns entries of the vault only, in their order; a
    query that is blank once trimmed returns them all; every entry whose site
    or user name contains the query, letter case aside, is returned; searching
    the results again with the same query changes nothing; and two queries
    that differ in letter case only return the same entries. *)
Theorem searchEntries_results (state : VaultState) (query : string) :
  let results := searchEntries state query in
  sublist results (entries state) ∧
  (trim query = EmptyString -> results = entries state) ∧
  (∀ entry, In entry (entries state) ->
     includes (toLowerCase (PasswordEntry.site entry)) (toLowerCase query)
     = true
     ∨ includes (toLowerCase (PasswordEntry.username entry))
                (toLowerCase query) = true ->
     In entry results) ∧
  searchEntries (mkVaultState results (isLocked state) (masterPassword state))
                query
  = results ∧
  (∀ query', toLowerCase query' = toLowerCase query ->
             searchEntries state query' = results).
Proof.
  cbv zeta. split; [|split; [|split; [|split]]].
  - unfold searchEntries.
    destruct (String.eqb (trim query) EmptyString); [done|].
    apply filter_sublist.
  - intros Hblank. unfold searchEntries. by rewrite Hblank.
  - intros entry Hin Hmatch. unfold searchEntries.
    destruct (String.eqb (trim query) EmptyString); [done|].
    apply List.filter_In. split; [exact Hin|].
    apply Bool.orb_true_iff. exact Hmatch.
  - unfold searchEntries. cbn [entries].
    destruct (String.eqb (trim query) EmptyString); [done|].
    apply filter_filter_same.
  - intros query' Hq. unfold searchEntries.
    rewrite !trim_blank, <- (toLowerCase_blank query),
      <- (toLowerCase_blank query'), Hq.
    reflexivity.
Qed.

Section SaveFacts.

Context `{P : Platform}.

Lemma saveVault_ok (user : User.t) (state : VaultState) (m : string)
  (w : World) :
  has_crypto_subtle = true ->
  masterPassword state = Some m -> m ≠ EmptyString ->
  VaultProvider.saveVault (Some user) state w
  = (Ok tt, storedWorld (User.username user) (entries state) m w).
Proof.
  intros Hc Hm Hne. unfold VaultProvider.saveVault, tryCatch. rewrite Hm.
  rewrite falsy_nonempty by done. cbn [default from_option].
  unfold Datatypes.id. by rewrite storeEncryptedVault_ok.
Qed.

Lemma updateEntries_total (id : string) (updates : PartialEntry.t)
  (entries : list PasswordEntry.t) (w : World) :
  ∃ entries' reads,
    updateEntries id updates entries w
    = (Ok entries', setClockReads (clockReads w + reads) w) ∧
    length entries' = length entries ∧
    (PartialEntry.id updates = None -> ids entries' = ids entries) ∧
    Forall2
      (fun entry entry' =>
         if String.eqb (PasswordEntry.id entry) id
         then ∃ now, entry' = mergeEntry entry updates now
         else entry' = entry)
      entries entries'.
Proof.
  revert w. induction entries as [|entry rest IH]; intros w.
  - exists [], 0%nat. split; [|by repeat split; constructor].
    cbn. unfold ret. f_equal. destruct w; cbn. unfold setClockReads; cbn.
    f_equal. lia.
  - cbn [updateEntries]. unfold bind at 1.
    destruct (String.eqb (PasswordEntry.id entry) id) eqn:Hid.
    + unfold bind at 1, newDateISO, ret at 1. unfold bind at 1.
      destruct (IH (setClockReads (S (clockReads w)) w))
        as (rest' & reads & -> & Hlen & Hids & Hall).
      exists (mergeEntry entry updates
                (toISOString (clock w (clockReads w))) :: rest'),
        (S reads).
      split; [|split; [|split]].
      * unfold ret. f_equal. unfold setClockReads. cbn. f_equal. lia.
      * cbn. by rewrite Hlen.
      * intros Hnone. unfold ids in *. cbn [map]. rewrite Hids by done.
        unfold mergeEntry. rewrite Hnone. reflexivity.
      * constructor; [|exact Hall]. rewrite Hid. by eexists.
    + unfold ret at 1. unfold bind at 1.
      destruct (IH w) as (rest' & reads & -> & Hlen & Hids & Hall).
      exists (entry :: rest'), reads.
      split; [reflexivity|]. split; [cbn; by rewrite Hlen|]. split.
      * intros Hnone. unfold ids in *. cbn [map]. by rewrite Hids.
      * constructor; [|exact Hall]. by rewrite Hid.
Qed.

End SaveFacts.

Section MutationFacts.

Context `{P : Platform} {laws : PlatformLaws P}.

Lemma addEntry_unlocked (user : User.t) (state : VaultState) (m : string)
  (site username password : string) (w : World) :
  masterPassword state = Some m -> m ≠ EmptyString ->
  let w1 :=
    setReducerState
      (mkVaultState
         (entries (reducerState w) ++ [addedEntry site username password w])
         (isLocked (reducerState w)) (masterPassword (reducerState w)))
      (setMathRandomUsed (S (mathRandomUsed w))
         (setClockReads (S (S (clockReads w))) w)) in
  VaultProvider.addEntry (Some user) state site username password w
  = (Ok tt, storedWorld (User.username user) (entries state) m w1).
Proof.
  intros Hm Hne w1.
  unfold VaultProvider.addEntry, tryCatch. unfold bind at 1.
  unfold newDateISO at 1. unfold bind at 1.
  unfold SecureStorage.generateUniqueId, bind at 1, Date_now at 1.
  unfold bind at 1, Math_random_base36 at 1. unfold ret at 1.
  unfold bind at 1, dispatch at 1. cbn [vaultReducer]. unfold ret at 1.
  cbn [reducerState setClockReads setMathRandomUsed clock clockReads
       mathRandom mathRandomUsed].
  rewrite (saveVault_ok user state m) by
    (try apply crypto_subtle_available; done).
  reflexivity.
Qed.

Lemma deleteEntry_unlocked (user : User.t) (state : VaultState) (m : string)
  (id : string) (w : World) :
  masterPassword state = Some m -> m ≠ EmptyString ->
  let w1 :=
    setReducerState
      (mkVaultState
         (List.filter
            (fun entry => negb (String.eqb (PasswordEntry.id entry) id))
            (entries (reducerState w)))
         (isLocked (reducerState w)) (masterPassword (reducerState w)))
      w in
  VaultProvider.deleteEntry (Some user) state id w
  = (Ok tt, storedWorld (User.username user) (entries state) m w1).
Proof.
  intros Hm Hne w1.
  unfold VaultProvider.deleteEntry. unfold bind at 1, dispatch at 1.
  cbn [vaultReducer]. unfold ret at 1.
  rewrite (saveVault_ok user state m) by
    (try apply crypto_subtle_available; done).
  reflexivity.
Qed.

Lemma updateEntry_unlocked (user : User.t) (state : VaultState) (m : string)
  (id : string) (updates : PartialEntry.t) (w : World) :
  masterPassword state = Some m -> m ≠ EmptyString ->
  ∃ entries' reads,
    updateEntries id updates (entries (reducerState w)) w
    = (Ok entries', setClockReads (clockReads w + reads) w) ∧
    VaultProvider.updateEntry (Some user) state id updates w
    = (Ok tt,
       storedWorld (User.username user) (entries state) m
         (setReducerState
            (mkVaultState entries' (isLocked (reducerState w))
                          (masterPassword (reducerState w)))
            (setClockReads (clockReads w + reads) w))).
Proof.
  intros Hm Hne.
  destruct (updateEntries_total id updates (entries (reducerState w)) w)
    as (entries' & reads & Hupdate & _).
  exists entries', reads. split; [exact Hupdate|].
  unfold VaultProvider.updateEntry. unfold bind at 1, dispatch at 1.
  cbn [vaultReducer]. unfold bind at 1. rewrite Hupdate. unfold ret at 1.
  rewrite (saveVault_ok user state m) by
    (try apply crypto_subtle_available; done).
  reflexivity.
Qed.

Lemma mutation_stored (user : User.t) (state : VaultState) (m : string)
  (op : Operation) (w : World) :
  masterPassword state = Some m -> m ≠ EmptyString ->
  changesEntries op = true ->
  ∃ w1,
    runOperation (Some user) state op w
    = (Ok tt, storedWorld (User.username user) (entries state) m w1) ∧
    isLocked (reducerState w1) = isLocked (reducerState w) ∧
    masterPassword (reducerState w1) = masterPassword (reducerState w).
Proof.
  intros Hm Hne Hop.
  destruct op as [| |site username password|id updates|id|];
    try discriminate Hop; cbn [runOperation].
  - eexists. split; [by apply addEntry_unlocked|]. done.
  - destruct (updateEntry_unlocked user state m id updates w Hm Hne)
      as (entries' & reads & _ & ->).
    eexists. split; [reflexivity|]. done.
  - eexists. split; [by apply deleteEntry_unlocked|]. done.
Qed.

Lemma unlockVault_stored (user : User.t) (entries : list PasswordEntry.t)
  (m : string) (w0 w : World) :
  secureStore w !! vaultKey (User.username user)
  = Some (storedBlob entries m w0) ->
  VaultProvider.unlockVault (Some user) m w
  = (Ok tt, setReducerState (mkVaultState entries false (Some m)) w).
Proof.
  intros Hstore. unfold VaultProvider.unlockVault, tryCatch, bind.
  rewrite (getEncryptedVault_storedBlob _ entries m w0 w) by done.
  reflexivity.
Qed.

End MutationFacts.

(** X15. [addEntry], [updateEntry] and [deleteEntry] dispatch to the reducer
    and then save the entries of the render they were created in: on an
    unlocked vault each of them succeeds, the state of the reducer holds the
    new list, and the stored vault loads back to the list as it was before the
    operation. *)
Theorem entry_operations_store_the_render_entries
  (P : Platform) (laws : PlatformLaws P) (user : User.t) (state : VaultState)
  (m : string) (w : World) :
  reducerState w = state ->
  masterPassword state = Some m ->
  m ≠ EmptyString ->
  (∀ site username password,
     ∃ w',
       VaultProvider.addEntry (Some user) state site username password w
       = (Ok tt, w') ∧
       entries (reducerState w')
       = entries state ++ [addedEntry site username password w] ∧
       SecureStorage.getEncryptedVault (User.username user) m w'
       = (Ok (entries state), w')) ∧
  (∀ id,
     ∃ w',
       VaultProvider.deleteEntry (Some user) state id w = (Ok tt, w') ∧
       entries (reducerState w')
       = List.filter
           (fun entry => negb (String.eqb (PasswordEntry.id entry) id))
           (entries state) ∧
       SecureStorage.getEncryptedVault (User.username user) m w'
       = (Ok (entries state), w')) ∧
  (∀ id updates,
     ∃ w' entries',
       VaultProvider.updateEntry (Some user) state id updates w = (Ok tt, w') ∧
       (updateEntries id updates (entries state) w).1 = Ok entries' ∧
       entries (reducerState w') = entries' ∧
       SecureStorage.getEncryptedVault (User.username user) m w'
       = (Ok (entries state), w')).
Proof.
  intros Hrender Hm Hne. split; [|split].
  - intros site username password. eexists.
    split; [by apply addEntry_unlocked|].
    split; [cbn; by rewrite Hrender|].
    apply getEncryptedVault_storedWorld.
  - intros id. eexists. split; [by apply deleteEntry_unlocked|].
    split; [cbn; by rewrite Hrender|].
    apply getEncryptedVault_storedWorld.
  - intros id updates.
    destruct (updateEntry_unlocked user state m id updates w Hm Hne)
      as (entries' & reads & Hupdate & ->).
    eexists _, entries'. split; [reflexivity|].
    rewrite <- Hrender, Hupdate. split; [reflexivity|].
    split; [reflexivity|]. rewrite Hrender.
    apply getEncryptedVault_storedWorld.
Qed.

Lemma entry_operations_store_the_render_entries_witness :
  let user := Model.alice in
  let state := unlockedState in
  let m := "correct horse" in
  let w := unlockedWorld in
  PlatformLaws Model.platform ∧
  reducerState w = state ∧
  masterPassword state = Some m ∧
  m ≠ EmptyString ∧
  ((∀ site username password,
      ∃ w',
        @VaultProvider.addEntry Model.platform (Some user) state site username
          password w
        = (Ok tt, w') ∧
        entries (reducerState w')
        = entries state
          ++ [@addedEntry Model.platform site username password w] ∧
        @SecureStorage.getEncryptedVault Model.platform (User.username user) m
          w'
        = (Ok (entries state), w')) ∧
   (∀ id,
      ∃ w',
        @VaultProvider.deleteEntry Model.platform (Some user) state id w
        = (Ok tt, w') ∧
        entries (reducerState w')
        = List.filter
            (fun entry => negb (String.eqb (PasswordEntry.id entry) id))
            (entries state) ∧
        @SecureStorage.getEncryptedVault Model.platform (User.username user) m
          w'
        = (Ok (entries state), w')) ∧
   (∀ id updates,
      ∃ w' entries',
        @VaultProvider.updateEntry Model.platform (Some user) state id updates
          w
        = (Ok tt, w') ∧
        (@updateEntries Model.platform id updates (entries state) w).1
        = Ok entries' ∧
        entries (reducerState w') = entries' ∧
        @SecureStorage.getEncryptedVault Model.platform (User.username user) m
          w'
        = (Ok (entries state), w'))).
Proof.
  cbv zeta. split; [exact model_laws|]. split; [reflexivity|].
  split; [reflexivity|]. split; [discriminate|].
  apply (entry_operations_store_the_render_entries Model.platform model_laws
           Model.alice unlockedState "correct horse" unlockedWorld);
    [reflexivity | reflexivity | discriminate].
Defined.

(** X16. Consequently, locking the vault right after an [addEntry],
    [updateEntry] or [deleteEntry] and unlocking it again brings back the
    entries as they were before the operation: the addition, the update or the
    deletion is not in the stored vault. *)
Theorem relock_restores_the_render_entries
  (P : Platform) (laws : PlatformLaws P) (user : User.t) (state : VaultState)
  (m : string) (op : Operation) (w : World) :
  masterPassword state = Some m ->
  m ≠ EmptyString ->
  changesEntries op = true ->
  ∃ w1 w2 w3,
    runOperation (Some user) state op w = (Ok tt, w1) ∧
    VaultProvider.lockVault w1 = (Ok tt, w2) ∧
    reducerState w2 = initialState ∧
    VaultProvider.unlockVault (Some user) m w2 = (Ok tt, w3) ∧
    reducerState w3 = mkVaultState (entries state) false (Some m).
Proof.
  intros Hm Hne Hop.
  destruct (mutation_stored user state m op w Hm Hne Hop)
    as (w0 & Hrun & _).
  set (w1 := storedWorld (User.username user) (entries state) m w0) in *.
  exists w1, (setReducerState initialState w1),
    (setReducerState (mkVaultState (entries state) false (Some m))
                     (setReducerState initialState w1)).
  split; [exact Hrun|]. split; [reflexivity|].
  split; [reflexivity|]. split; [|reflexivity].
  apply (unlockVault_stored user (entries state) m w0).
  cbn [secureStore setReducerState]. apply storedWorld_lookup.
Qed.

Lemma relock_restores_the_render_entries_witness :
  let op := OpDeleteEntry "k3x9" in
  PlatformLaws Model.platform ∧
  masterPassword unlockedState = Some "correct horse" ∧
  "correct horse" ≠ EmptyString ∧
  changesEntries op = true ∧
  ∃ w1 w2 w3,
    @runOperation Model.platform (Some Model.alice) unlockedState op
      unlockedWorld = (Ok tt, w1) ∧
    @VaultProvider.lockVault Model.platform w1 = (Ok tt, w2) ∧
    reducerState w2 = initialState ∧
    @VaultProvider.unlockVault Model.platform (Some Model.alice)
      "correct horse" w2 = (Ok tt, w3) ∧
    reducerState w3
    = mkVaultState (entries unlockedState) false (Some "correct horse").
Proof.
  cbv zeta. split; [exact model_laws|]. split; [reflexivity|].
  split; [discriminate|]. split; [reflexivity|].
  apply (relock_restores_the_render_entries Model.platform model_laws
           Model.alice unlockedState "correct horse" (OpDeleteEntry "k3x9")
           unlockedWorld); [reflexivity | discriminate | reflexivity].
Defined.

Section ReducerFacts.

Lemma idAbsent_filter (id : string) (entries : list PasswordEntry.t) :
  idAbsent id
    (List.filter (fun entry => negb (String.eqb (PasswordEntry.id entry) id))
                 entries).
Proof.
  unfold idAbsent. apply List.Forall_forall. intros entry Hin.
  apply List.filter_In in Hin as [_ Hne].
  apply Bool.negb_true_iff, String.eqb_neq in Hne. exact Hne.
Qed.

End ReducerFacts.

(** X17. [DELETE_ENTRY] removes exactly the entries with the given identifier:
    none of them is left, every other entry stays, in the same order, distinct
    identifiers stay distinct, and a second dispatch of the same action
    changes nothing. *)
Theorem DELETE_ENTRY_removes_exactly (P : Platform) (id : string) (w : World) :
  let before := entries (reducerState w) in
  let after :=
    List.filter (fun entry => negb (String.eqb (PasswordEntry.id entry) id))
                before in
  let w' :=
    setReducerState
      (mkVaultState after (isLocked (reducerState w))
                    (masterPassword (reducerState w))) w in
  dispatch (DELETE_ENTRY id) w = (Ok tt, w') ∧
  dispatch (DELETE_ENTRY id) w' = (Ok tt, w') ∧
  idAbsent id after ∧
  sublist after before ∧
  (∀ entry, In entry before -> PasswordEntry.id entry ≠ id -> In entry after) ∧
  (NoDup (ids before) -> NoDup (ids after)).
Proof.
  cbv zeta. split; [reflexivity|]. split; [|split; [|split; [|split]]].
  - unfold dispatch. cbn [vaultReducer ret reducerState setReducerState
                          entries isLocked masterPassword].
    rewrite filter_filter_same. reflexivity.
  - apply idAbsent_filter.
  - apply filter_sublist.
  - intros entry Hin Hne. apply List.filter_In. split; [exact Hin|].
    apply Bool.negb_true_iff, String.eqb_neq. exact Hne.
  - unfold ids. intros Hnd.
    eapply sublist_NoDup; [exact Hnd | apply fmap_sublist, filter_sublist].
Qed.

(** X18. [UPDATE_ENTRY] always succeeds and keeps the number and the order of
    the entries: an entry with another identifier is unchanged, an entry with
    the given identifier takes the fields of the update and a new modification
    date, and the identifiers stay the same when the update carries none. *)
Theorem UPDATE_ENTRY_keeps_the_other_entries
  (P : Platform) (id : string) (updates : PartialEntry.t) (w : World) :
  ∃ after reads,
    dispatch (UPDATE_ENTRY id updates) w
    = (Ok tt,
       setReducerState
         (mkVaultState after (isLocked (reducerState w))
                       (masterPassword (reducerState w)))
         (setClockReads (clockReads w + reads) w)) ∧
    length after = length (entries (reducerState w)) ∧
    (PartialEntry.id updates = None ->
     ids after = ids (entries (reducerState w))) ∧
    Forall2
      (fun entry entry' =>
         if String.eqb (PasswordEntry.id entry) id
         then ∃ now, entry' = mergeEntry entry updates now
         else entry' = entry)
      (entries (reducerState w)) after.
Proof.
  destruct (updateEntries_total id updates (entries (reducerState w)) w)
    as (after & reads & Hupdate & Hlen & Hids & Hall).
  exists after, reads. split; [|done].
  unfold dispatch. cbn [vaultReducer]. unfold bind. rewrite Hupdate.
  reflexivity.
Qed.

(** X19. When the store holds no vault for the user (or the empty text),
    [unlockVault] accepts every master password: it succeeds and the vault is
    unlocked, empty, under the password that was typed. *)
Theorem unlockVault_without_vault
  (P : Platform) (user : User.t) (password : string) (w : World) :
  SecureStorage.falsy (secureStore w !! vaultKey (User.username user)) = true ->
  VaultProvider.unlockVault (Some user) password w
  = (Ok tt, setReducerState (mkVaultState [] false (Some password)) w).
Proof.
  intros Hfalsy. unfold VaultProvider.unlockVault, tryCatch, bind.
  unfold SecureStorage.getEncryptedVault, tryCatch, bind,
    SecureStore_getItemAsync, ret.
  fold (vaultKey (User.username user)). rewrite Hfalsy. reflexivity.
Qed.

Lemma unlockVault_without_vault_witness :
  SecureStorage.falsy
    (secureStore Model.world !! vaultKey (User.username Model.alice)) = true ∧
  @VaultProvider.unlockVault Model.platform (Some Model.alice) "anything"
    Model.world
  = (Ok tt,
     setReducerState (mkVaultState [] false (Some "anything")) Model.world).
Proof.
  split; [reflexivity|].
  apply (unlockVault_without_vault Model.platform Model.alice "anything"
           Model.world).
  reflexivity.
Defined.

(** ** The authentication context *)

Section AuthFacts.

Context `{P : Platform} `{D : Digest} `{J : UsersJSON}.
Import AuthContext.

Lemma hashPassword_cases (password : string) :
  (∃ e, ∀ p, hashPassword p = Throw e)
  ∨ (∀ p, ∃ h, hashPassword p = Ok h).
Proof.
  unfold hashPassword.
  destruct has_crypto_subtle; cbn [negb]; [|left; by eexists].
  destruct has_btoa; [right; intros p; by eexists | left; by eexists].
Qed.

Lemma hashPassword_ok (password : string) :
  has_crypto_subtle = true -> has_btoa = true ->
  hashPassword password
  = Ok (Base64.btoa
          (String_fromCharCode
             (SHA256_digest (TextEncoder_encode (codeUnits password))))).
Proof. intros Hc Hb. unfold hashPassword. by rewrite Hc, Hb. Qed.

Lemma login_unfold (username password : string) (users : list User.t)
  (s : Session) :
  getUsers (world s) = (Ok users, world s) ->
  let failed :=
    mkSession
      (mkAuthState (isLoggedIn (authState s)) (currentUser (authState s))
                   false)
      (world s) in
  login username password s
  = match findUser username users with
    | None => (Throw (Error "User not found"), failed)
    | Some user =>
        match hashPassword password with
        | Throw e => (Throw e, failed)
        | Ok _ =>
            (Ok tt,
             mkSession
               (mkAuthState true (Some user) false)
               (setSecureStore
                  (<[CURRENT_USER_KEY := JSON_stringify_user user]>
                     (secureStore (world s)))
                  (world s)))
        end
    end.
Proof.
  intros Husers. cbv zeta.
  unfold login, tryCatchA. unfold bindA at 1. unfold dispatch at 1.
  unfold bindA at 1, run at 1. cbn [world authState]. rewrite Husers.
  destruct (findUser username users) as [user|]; [|reflexivity].
  unfold bindA at 1, run at 1, liftResult.
  destruct (hashPassword password); reflexivity.
Qed.

Lemma findUser_app_new (username : string) (users : list User.t)
  (vault_file : string) :
  findUser username users = None ->
  findUser username (users ++ [User.mk username vault_file])
  = Some (User.mk username vault_file).
Proof.
  unfold findUser. induction users as [|u users IH]; cbn [app find].
  - intros _. cbn [User.username]. by rewrite String.eqb_refl.
  - destruct (String.eqb (User.username u) username); [discriminate|].
    exact IH.
Qed.

Lemma register_unfold (username password : string) (users : list User.t)
  (s : Session) :
  getUsers (world s) = (Ok users, world s) ->
  let failed :=
    mkSession
      (mkAuthState (isLoggedIn (authState s)) (currentUser (authState s))
                   false)
      (world s) in
  let newUser := User.mk username ("vault_" +:+ username +:+ ".dat") in
  register username password s
  = match findUser username users with
    | Some _ => (Throw (Error "Username already exists"), failed)
    | None =>
        if isValid (validatePasswordStrength password)
        then
          (Ok tt,
           mkSession
             (mkAuthState true (Some newUser) false)
             (setSecureStore
                (<[CURRENT_USER_KEY := JSON_stringify_user newUser]>
                   (<[USERS_KEY := JSON_stringify_users (users ++ [newUser])]>
                      (secureStore (world s))))
                (world s)))
        else
          (Throw (Error (joinWith ", "
                           (errors (validatePasswordStrength password)))),
           failed)
    end.
Proof.
  intros Husers. cbv zeta.
  unfold register, tryCatchA. unfold bindA at 1. unfold dispatch at 1.
  unfold bindA at 1, run at 1.
  cbn [world authState]. rewrite Husers.
  destruct (findUser username users) as [user|]; [reflexivity|].
  destruct (isValid (validatePasswordStrength password)); reflexivity.
Qed.

End AuthFacts.

(** X20. [login] does not depend on the password: for every platform, user
    name and session, two calls with different passwords return the same
    result and leave the same session. *)
Theorem login_ignores_the_password
  (P : Platform) (D : Digest) (J : UsersJSON)
  (username password password' : string) (s : AuthContext.Session) :
  AuthContext.login username password s
  = AuthContext.login username password' s.
Proof.
  destruct (getUsers_frame (AuthContext.world s)) as (users & Husers).
  rewrite !(login_unfold _ _ users) by done.
  destruct (AuthContext.findUser username users) as [user|]; [|reflexivity].
  destruct (hashPassword_cases password) as [(e & He) | Hok].
  - rewrite !He. reflexivity.
  - destruct (Hok password) as (h & ->). destruct (Hok password') as (h' & ->).
    reflexivity.
Qed.

(** X21. [register] throws [Username already exists] for a stored user name
    and the strength errors, joined by commas, for a weak password, leaving
    the store alone in both cases; otherwise it appends the user, with the
    vault file [vault_<name>.dat], to the stored users, stores it as the
    current user and logs it in. The password is not stored. *)
Theorem register_outcomes
  (J : UsersJSON) (username password : string) (users : list User.t)
  (s : AuthContext.Session) :
  getUsers (AuthContext.world s) = (Ok users, AuthContext.world s) ->
  let failed :=
    AuthContext.mkSession
      (AuthContext.mkAuthState
         (AuthContext.isLoggedIn (AuthContext.authState s))
         (AuthContext.currentUser (AuthContext.authState s)) false)
      (AuthContext.world s) in
  let newUser := User.mk username ("vault_" +:+ username +:+ ".dat") in
  AuthContext.register username password s
  = match AuthContext.findUser username users with
    | Some _ => (Throw (Error "Username already exists"), failed)
    | None =>
        if isValid (validatePasswordStrength password)
        then
          (Ok tt,
           AuthContext.mkSession
             (AuthContext.mkAuthState true (Some newUser) false)
             (setSecureStore
                (<[CURRENT_USER_KEY := JSON_stringify_user newUser]>
                   (<[USERS_KEY := JSON_stringify_users (users ++ [newUser])]>
                      (secureStore (AuthContext.world s))))
                (AuthContext.world s)))
        else
          (Throw (Error (joinWith ", "
                           (errors (validatePasswordStrength password)))),
           failed)
    end.
Proof.
  intros Husers. cbv zeta.
  unfold AuthContext.register, AuthContext.tryCatchA.
  unfold AuthContext.bindA at 1. unfold AuthContext.dispatch at 1.
  unfold AuthContext.bindA at 1, AuthContext.run at 1.
  cbn [AuthContext.world AuthContext.authState]. rewrite Husers.
  destruct (AuthContext.findUser username users) as [user|]; [reflexivity|].
  destruct (isValid (validatePasswordStrength password)); reflexivity.
Qed.

Lemma register_outcomes_witness :
  let s := AuthContext.mkSession AuthContext.initialState Model.world in
  @getUsers modelUsersJSON (AuthContext.world s)
  = (Ok [], AuthContext.world s) ∧
  let failed :=
    AuthContext.mkSession
      (AuthContext.mkAuthState
         (AuthContext.isLoggedIn (AuthContext.authState s))
         (AuthContext.currentUser (AuthContext.authState s)) false)
      (AuthContext.world s) in
  let newUser := User.mk "alice" ("vault_" +:+ "alice" +:+ ".dat") in
  @AuthContext.register modelUsersJSON "alice" "Tr0ub4dor&3" s
  = match AuthContext.findUser "alice" [] with
    | Some _ => (Throw (Error "Username already exists"), failed)
    | None =>
        if isValid (validatePasswordStrength "Tr0ub4dor&3")
        then
          (Ok tt,
           AuthContext.mkSession
             (AuthContext.mkAuthState true (Some newUser) false)
             (setSecureStore
                (<[CURRENT_USER_KEY
                   := @JSON_stringify_user modelUsersJSON newUser]>
                   (<[USERS_KEY
                      := @JSON_stringify_users modelUsersJSON
                           ([] ++ [newUser])]>
                      (secureStore (AuthContext.world s))))
                (AuthContext.world s)))
        else
          (Throw (Error (joinWith ", "
                           (errors (validatePasswordStrength "Tr0ub4dor&3")))),
           failed)
    end.
Proof.
  cbv zeta. split; [reflexivity|].
  apply (register_outcomes modelUsersJSON "alice" "Tr0ub4dor&3" []
           (AuthContext.mkSession AuthContext.initialState Model.world)).
  reflexivity.
Defined.

(** X22. After a successful [register], [login] with the registered name
    succeeds for every password, from every state of the provider, and logs
    the registered user in. *)
Theorem registered_user_logs_in_with_any_password
  (P : Platform) (D : Digest) (J : UsersJSON)
  (username password : string) (users : list User.t)
  (s : AuthContext.Session) :
  let newUser := User.mk username ("vault_" +:+ username +:+ ".dat") in
  has_crypto_subtle = true -> has_btoa = true ->
  getUsers (AuthContext.world s) = (Ok users, AuthContext.world s) ->
  AuthContext.findUser username users = None ->
  isValid (validatePasswordStrength password) = true ->
  JSON_parse_users (JSON_stringify_users (users ++ [newUser]))
  = Ok (users ++ [newUser]) ->
  JSON_stringify_users (users ++ [newUser]) ≠ EmptyString ->
  ∃ s1,
    AuthContext.register username password s = (Ok tt, s1) ∧
    AuthContext.currentUser (AuthContext.authState s1) = Some newUser ∧
    ∀ anyPassword auth,
      ∃ s2,
        AuthContext.login username anyPassword
          (AuthContext.mkSession auth (AuthContext.world s1))
        = (Ok tt, s2) ∧
        AuthContext.authState s2
        = AuthContext.mkAuthState true (Some newUser) false.
Proof.
  intros newUser Hc Hb Husers Hfresh Hvalid Hparse Hne.
  eexists. split.
  { rewrite (register_unfold _ _ users) by done.
    rewrite Hfresh, Hvalid. reflexivity. }
  split; [reflexivity|]. intros anyPassword auth. eexists.
  rewrite (login_unfold _ _ (users ++ [newUser])).
  - unfold newUser. rewrite findUser_app_new by done.
    rewrite hashPassword_ok by done. split; reflexivity.
  - cbn [AuthContext.world]. apply getUsers_stored; [|done|done].
    rewrite lookup_insert_ne by discriminate. apply lookup_insert_eq.
Qed.

Lemma registered_user_logs_in_with_any_password_witness :
  let s := AuthContext.mkSession AuthContext.initialState Model.world in
  let newUser := User.mk "alice" ("vault_" +:+ "alice" +:+ ".dat") in
  @has_crypto_subtle Model.platform = true ∧
  @has_btoa Model.platform = true ∧
  @getUsers modelUsersJSON (AuthContext.world s)
  = (Ok [], AuthContext.world s) ∧
  AuthContext.findUser "alice" [] = None ∧
  isValid (validatePasswordStrength "Tr0ub4dor&3") = true ∧
  @JSON_parse_users modelUsersJSON
    (@JSON_stringify_users modelUsersJSON ([] ++ [newUser]))
  = Ok ([] ++ [newUser]) ∧
  @JSON_stringify_users modelUsersJSON ([] ++ [newUser]) ≠ EmptyString ∧
  ∃ s1,
    @AuthContext.register modelUsersJSON "alice" "Tr0ub4dor&3" s = (Ok tt, s1) ∧
    AuthContext.currentUser (AuthContext.authState s1) = Some newUser ∧
    ∀ anyPassword auth,
      ∃ s2,
        @AuthContext.login Model.platform modelDigest modelUsersJSON "alice"
          anyPassword (AuthContext.mkSession auth (AuthContext.world s1))
        = (Ok tt, s2) ∧
        AuthContext.authState s2
        = AuthContext.mkAuthState true (Some newUser) false.
Proof.
  cbv zeta.
  split; [reflexivity|]. split; [reflexivity|]. split; [reflexivity|].
  split; [reflexivity|]. split; [reflexivity|]. split; [reflexivity|].
  split; [discriminate|].
  apply (registered_user_logs_in_with_any_password Model.platform modelDigest
           modelUsersJSON "alice" "Tr0ub4dor&3" []
           (AuthContext.mkSession AuthContext.initialState Model.world));
    try reflexivity.
  discriminate.
Defined.

(** X23. [logout] always succeeds: it removes the stored current user and
    resets the state of the provider, so that a later [checkAuthStatus] finds
    nobody logged in; the users list, every vault and the vault state in
    memory are left as they were. *)
Theorem logout_clears_only_the_session
  (J : UsersJSON) (s : AuthContext.Session) :
  let w' :=
    setSecureStore (delete CURRENT_USER_KEY (secureStore (AuthContext.world s)))
                   (AuthContext.world s) in
  let s' :=
    AuthContext.mkSession (AuthContext.mkAuthState false None false) w' in
  AuthContext.logout s = (Ok tt, s') ∧
  AuthContext.checkAuthStatus s' = (Ok tt, s') ∧
  reducerState w' = reducerState (AuthContext.world s) ∧
  (∀ key, key ≠ CURRENT_USER_KEY ->
          secureStore w' !! key = secureStore (AuthContext.world s) !! key) ∧
  getUsers w' = ((getUsers (AuthContext.world s)).1, w').
Proof.
  cbv zeta. split; [reflexivity|]. split; [|split; [reflexivity|split]].
  - unfold AuthContext.checkAuthStatus, AuthContext.tryCatchA.
    unfold AuthContext.bindA at 1, AuthContext.dispatch at 1.
    unfold AuthContext.bindA at 1, AuthContext.run at 1.
    unfold getCurrentUser, tryCatch, bind, SecureStore_getItemAsync.
    cbn [AuthContext.world AuthContext.authState secureStore setSecureStore].
    rewrite lookup_delete_eq. reflexivity.
  - intros key Hkey. cbn [secureStore setSecureStore].
    by rewrite lookup_delete_ne.
  - unfold getUsers, tryCatch, bind, SecureStore_getItemAsync, liftResult,
      ret.
    cbn [secureStore setSecureStore].
    rewrite lookup_delete_ne by discriminate.
    destruct (SecureStorage.falsy _); [reflexivity|].
    destruct (JSON_parse_users _); reflexivity.
Qed.

(** ** The screens *)

(** X24. The registration form calls [register], with the trimmed user name
    and the password as typed, only when the user name is not blank and has at
    least three characters as typed, the password passes the strength rules
    and the confirmation is equal to it; otherwise it shows an alert and
    leaves the session alone. *)
Theorem handleRegister_checks
  (register : string -> string -> AuthContext.A unit) (s : RegisterScreen.t)
  (session : AuthContext.Session) :
  let accepted :=
    trim (RegisterScreen.username s) ≠ EmptyString
    ∧ (3 <= String.length (RegisterScreen.username s))%nat
    ∧ isValid (validatePasswordStrength (RegisterScreen.password s)) = true
    ∧ RegisterScreen.password s = RegisterScreen.confirmPassword s in
  (accepted ->
   RegisterScreen.handleRegister register s session
   = match register (trim (RegisterScreen.username s))
                    (RegisterScreen.password s) session with
     | (Ok _, session') =>
         (Ok (RegisterScreen.mk
                (RegisterScreen.username s) (RegisterScreen.password s)
                (RegisterScreen.confirmPassword s)
                (Some (mkNotice "Success"
                         "Account created successfully! You can now log in."
                         NavigateToLogin))),
          session')
     | (Throw error, session') =>
         (Ok (RegisterScreen.showNotice "Registration Failed"
                (if String.eqb (message error) EmptyString
                 then "Failed to create account" else message error) s),
          session')
     end) ∧
  (¬ accepted ->
   ∃ title text,
     RegisterScreen.handleRegister register s session
     = (Ok (RegisterScreen.showNotice title text s), session)
     ∧ title ≠ "Success").
Proof.
  cbv zeta. unfold RegisterScreen.handleRegister. split.
  - intros (Hname & Hlen & Hvalid & Hmatch).
    apply String.eqb_neq in Hname. rewrite Hname.
    apply Nat.ltb_ge in Hlen. rewrite Hlen.
    rewrite (valid_not_empty _ Hvalid), Hvalid.
    apply String.eqb_eq in Hmatch. rewrite Hmatch. cbn [negb].
    unfold AuthContext.tryCatchA, AuthContext.bindA, AuthContext.retA.
    destruct (register _ _ session) as [[[]|e] session']; reflexivity.
  - intros Hno.
    destruct (String.eqb (trim (RegisterScreen.username s)) EmptyString)
      eqn:Hname; [eexists _, _; split; [reflexivity | discriminate]|].
    destruct (String.length (RegisterScreen.username s) <? 3)%nat
      eqn:Hlen; [eexists _, _; split; [reflexivity | discriminate]|].
    destruct (String.eqb (RegisterScreen.password s) EmptyString)
      eqn:Hpw; [eexists _, _; split; [reflexivity | discriminate]|].
    destruct (isValid (validatePasswordStrength (RegisterScreen.password s)))
      eqn:Hvalid; cbn [negb];
      [|eexists _, _; split; [reflexivity | discriminate]].
    destruct (String.eqb (RegisterScreen.password s)
                         (RegisterScreen.confirmPassword s))
      eqn:Hmatch; cbn [negb];
      [|eexists _, _; split; [reflexivity | discriminate]].
    exfalso. apply Hno. repeat split.
    + apply String.eqb_neq. exact Hname.
    + apply Nat.ltb_ge. exact Hlen.
    + apply String.eqb_eq. exact Hmatch.
Qed.

(** X25. On the login screen a blank user name or password is refused without
    calling [login], whoever is stored; for a stored user every password that
    is not blank is accepted: the user is logged in and stored as the current
    user. *)
Theorem handleLogin_accepts_any_password
  (P : Platform) (D : Digest) (J : UsersJSON)
  (s : LoginScreen.t) (session : AuthContext.Session) :
  (trim (LoginScreen.username s) = EmptyString
   ∨ trim (LoginScreen.password s) = EmptyString ->
   ∀ login,
     LoginScreen.handleLogin login s session
     = (Ok (LoginScreen.mk (LoginScreen.username s) (LoginScreen.password s)
              (Some (mkNotice "Error"
                       "Please enter both username and password" Stay))),
        session)) ∧
  (∀ (user : User.t) (users : list User.t),
     has_crypto_subtle = true -> has_btoa = true ->
     getUsers (AuthContext.world session)
     = (Ok users, AuthContext.world session) ->
     AuthContext.findUser (trim (LoginScreen.username s)) users = Some user ->
     trim (LoginScreen.username s) ≠ EmptyString ->
     trim (LoginScreen.password s) ≠ EmptyString ->
     LoginScreen.handleLogin AuthContext.login s session
     = (Ok s,
        AuthContext.mkSession
          (AuthContext.mkAuthState true (Some user) false)
          (setSecureStore
             (<[CURRENT_USER_KEY := JSON_stringify_user user]>
                (secureStore (AuthContext.world session)))
             (AuthContext.world session)))).
Proof.
  unfold LoginScreen.handleLogin. split.
  - intros Hblank login.
    destruct Hblank as [-> | ->]; [reflexivity|].
    by rewrite Bool.orb_true_r.
  - intros user users Hc Hb Husers Hfind Hname Hpassword.
    apply String.eqb_neq in Hname, Hpassword. rewrite Hname, Hpassword.
    cbn [orb]. unfold AuthContext.tryCatchA, AuthContext.bindA.
    rewrite (login_unfold _ _ users) by done.
    rewrite Hfind, hashPassword_ok by done. reflexivity.
Qed.

(** On the model platform with [alice] stored: a blank user name and a
    blank password are refused, and [alice] gets in with a password that is
    not hers. *)
Lemma handleLogin_accepts_any_password_witness :
  let users := [Model.alice] in
  let stored :=
    setSecureStore
      (<[USERS_KEY := @JSON_stringify_users modelUsersJSON users]>
         (secureStore Model.world))
      Model.world in
  let session := AuthContext.mkSession AuthContext.initialState stored in
  let login := @AuthContext.login Model.platform modelDigest modelUsersJSON in
  let refused username password :=
    (Ok (LoginScreen.mk username password
           (Some (mkNotice "Error" "Please enter both username and password"
                           Stay))),
     session) in
  LoginScreen.handleLogin login (LoginScreen.mk "  " "secret" None) session
  = refused "  " "secret" ∧
  LoginScreen.handleLogin login (LoginScreen.mk "alice" " " None) session
  = refused "alice" " " ∧
  LoginScreen.handleLogin login
    (LoginScreen.mk " alice" "not her password" None) session
  = (Ok (LoginScreen.mk " alice" "not her password" None),
     AuthContext.mkSession
       (AuthContext.mkAuthState true (Some Model.alice) false)
       (setSecureStore
          (<[CURRENT_USER_KEY
             := @JSON_stringify_user modelUsersJSON Model.alice]>
             (secureStore stored))
          stored)).
Proof.
  cbv zeta.
  pose proof (fun s =>
                handleLogin_accepts_any_password Model.platform modelDigest
                  modelUsersJSON s
                  (AuthContext.mkSession AuthContext.initialState
                     (setSecureStore
                        (<[USERS_KEY
                           := @JSON_stringify_users modelUsersJSON
                                [Model.alice]]>
                           (secureStore Model.world))
                        Model.world)))
    as Hlogin.
  split; [|split].
  - destruct (Hlogin (LoginScreen.mk "  " "secret" None)) as [Hrefused _].
    apply Hrefused. left. reflexivity.
  - destruct (Hlogin (LoginScreen.mk "alice" " " None)) as [Hrefused _].
    apply Hrefused. right. reflexivity.
  - destruct (Hlogin (LoginScreen.mk " alice" "not her password" None))
      as [_ Haccepted].
    apply (Haccepted Model.alice [Model.alice]);
      [reflexivity | reflexivity | | reflexivity | discriminate | discriminate].
    apply (@getUsers_stored modelUsersJSON);
      [apply lookup_insert_eq | reflexivity | discriminate].
Defined.

(** X26. The add-entry form accepts its fields exactly when site, user name
    and password are not blank and have at most 100, 100 and 500 characters as
    typed. Rejected fields give the alert [Validation Error] and [addEntry] is
    not called; accepted fields are passed to [addEntry] with site and user
    name trimmed and the password as typed. *)
Theorem handleSave_validates
  (addEntry : string -> string -> string -> M unit) (s : AddEntryForm.t)
  (w : World) :
  let wellFormed :=
    trim (AddEntryForm.site s) ≠ EmptyString
    ∧ trim (AddEntryForm.username s) ≠ EmptyString
    ∧ trim (AddEntryForm.password s) ≠ EmptyString
    ∧ (String.length (AddEntryForm.site s) <= 100)%nat
    ∧ (String.length (AddEntryForm.username s) <= 100)%nat
    ∧ (String.length (AddEntryForm.password s) <= 500)%nat in
  (AddEntryForm.validateInputs s = None <-> wellFormed) ∧
  (∀ validationError,
     AddEntryForm.validateInputs s = Some validationError ->
     AddEntryForm.handleSave addEntry s w
     = (Ok (AddEntryForm.mk
              (AddEntryForm.site s) (AddEntryForm.username s)
              (AddEntryForm.password s) (AddEntryForm.isLoading s)
              (Some (mkNotice "Validation Error" validationError Stay))),
        w)) ∧
  (AddEntryForm.validateInputs s = None ->
   AddEntryForm.handleSave addEntry s w
   = match addEntry (trim (AddEntryForm.site s))
                    (trim (AddEntryForm.username s))
                    (AddEntryForm.password s) w with
     | (Ok _, w') =>
         (Ok (AddEntryForm.mk
                (AddEntryForm.site s) (AddEntryForm.username s)
                (AddEntryForm.password s) false
                (Some (mkNotice "Success" "Password entry saved successfully!"
                                GoBack))),
          w')
     | (Throw error, w') =>
         (Ok (AddEntryForm.mk
                (AddEntryForm.site s) (AddEntryForm.username s)
                (AddEntryForm.password s) false
                (Some (mkNotice "Error" (AddEntryForm.saveErrorMessage error)
                                Stay))),
          w')
     end).
Proof.
  cbv zeta. split; [|split].
  - unfold AddEntryForm.validateInputs.
    destruct (String.eqb (trim (AddEntryForm.site s)) EmptyString) eqn:H1.
    { apply String.eqb_eq in H1. split; [discriminate | tauto]. }
    destruct (String.eqb (trim (AddEntryForm.username s)) EmptyString) eqn:H2.
    { apply String.eqb_eq in H2. split; [discriminate | tauto]. }
    destruct (String.eqb (trim (AddEntryForm.password s)) EmptyString) eqn:H3.
    { apply String.eqb_eq in H3. split; [discriminate | tauto]. }
    apply String.eqb_neq in H1, H2, H3.
    destruct (100 <? String.length (AddEntryForm.site s))%nat eqn:H4.
    { apply Nat.ltb_lt in H4. split; [discriminate | lia]. }
    destruct (100 <? String.length (AddEntryForm.username s))%nat eqn:H5.
    { apply Nat.ltb_lt in H5. split; [discriminate | lia]. }
    destruct (500 <? String.length (AddEntryForm.password s))%nat eqn:H6.
    { apply Nat.ltb_lt in H6. split; [discriminate | lia]. }
    apply Nat.ltb_ge in H4, H5, H6. tauto.
  - intros validationError Hv. unfold AddEntryForm.handleSave. rewrite Hv.
    reflexivity.
  - intros Hv. unfold AddEntryForm.handleSave. rewrite Hv.
    unfold tryCatch, bind, ret.
    destruct (addEntry _ _ _ w) as [[[]|e] w']; reflexivity.
Qed.

Section FormFacts.

Context `{P : Platform}.

Lemma addEntry_dispatch_save (currentUser : option User.t)
  (state : VaultState) (site username password : string) (w : World) :
  VaultProvider.addEntry currentUser state site username password w
  = VaultProvider.saveVault currentUser state
      (setReducerState
         (mkVaultState
            (entries (reducerState w)
             ++ [addedEntry site username password w])
            (isLocked (reducerState w)) (masterPassword (reducerState w)))
         (setMathRandomUsed (S (mathRandomUsed w))
            (setClockReads (S (S (clockReads w))) w))).
Proof.
  unfold VaultProvider.addEntry, tryCatch. unfold bind at 1.
  unfold newDateISO at 1. unfold bind at 1.
  unfold SecureStorage.generateUniqueId, bind at 1, Date_now at 1.
  unfold bind at 1, Math_random_base36 at 1. unfold ret at 1.
  unfold bind at 1, dispatch at 1. cbn [vaultReducer]. unfold ret at 1.
  cbn [reducerState setClockReads setMathRandomUsed clock clockReads
       mathRandom mathRandomUsed].
  match goal with
  | |- (let (_, _) := VaultProvider.saveVault _ _ ?w0 in _)
       = VaultProvider.saveVault _ _ ?w1 =>
      change w0 with w1;
      by destruct (VaultProvider.saveVault currentUser state w1)
        as [[[]|e] w']
  end.
Qed.

Lemma saveVault_cases (currentUser : option User.t) (state : VaultState)
  (w : World) :
  ∃ w',
    reducerState w' = reducerState w ∧
    VaultProvider.saveVault currentUser state w
    = (match currentUser with
       | None => Throw (Error "No user logged in")
       | Some _ =>
           if SecureStorage.falsy (masterPassword state)
           then Throw (Error "Vault is locked")
           else if has_crypto_subtle then Ok tt
           else Throw
                  (Error
                     ("Failed to store encrypted vault: "
                      +:+ "Web Crypto API not available on this platform"))
       end, w').
Proof.
  unfold VaultProvider.saveVault, tryCatch.
  destruct currentUser as [user|]; [|exists w; split; reflexivity].
  destruct (SecureStorage.falsy (masterPassword state));
    [exists w; split; reflexivity|].
  destruct has_crypto_subtle eqn:Hc.
  - rewrite storeEncryptedVault_ok by done.
    eexists. split; [|reflexivity]. reflexivity.
  - rewrite storeEncryptedVault_unavailable by done.
    eexists. split; [|reflexivity]. reflexivity.
Qed.

End FormFacts.

(** X27. With accepted fields, the add-entry form reports [Please log in again
    to save entries] when nobody is logged in, [Your vault is locked. Please
    unlock it first] when the render has no master password, the failure of
    the store when the Web Crypto API is missing, and success otherwise; in
    all four cases the new entry has been appended to the entries in memory. *)
Theorem handleSave_outcomes
  (P : Platform) (currentUser : option User.t) (state : VaultState)
  (s : AddEntryForm.t) (w : World) :
  AddEntryForm.validateInputs s = None ->
  let notice :=
    match currentUser with
    | None => mkNotice "Error" "Please log in again to save entries" Stay
    | Some _ =>
        if SecureStorage.falsy (masterPassword state)
        then mkNotice "Error" "Your vault is locked. Please unlock it first"
                      Stay
        else if has_crypto_subtle
        then mkNotice "Success" "Password entry saved successfully!" GoBack
        else mkNotice "Error"
               ("Save failed: " +:+ "Failed to store encrypted vault: "
                +:+ "Web Crypto API not available on this platform")
               Stay
    end in
  ∃ w',
    AddEntryForm.handleSave (VaultProvider.addEntry currentUser state) s w
    = (Ok (AddEntryForm.mk (AddEntryForm.site s) (AddEntryForm.username s)
                           (AddEntryForm.password s) false (Some notice)),
       w') ∧
    entries (reducerState w')
    = entries (reducerState w)
      ++ [addedEntry (trim (AddEntryForm.site s))
                     (trim (AddEntryForm.username s))
                     (AddEntryForm.password s) w].
Proof.
  intros Hv. cbv zeta. unfold AddEntryForm.handleSave. rewrite Hv.
  unfold tryCatch, bind, ret. rewrite addEntry_dispatch_save.
  match goal with
  | |- context [VaultProvider.saveVault currentUser state ?w1] =>
      destruct (saveVault_cases currentUser state w1) as (w' & Hstate & ->)
  end.
  exists w'. rewrite Hstate. cbn [reducerState setReducerState entries].
  split; [|reflexivity].
  destruct currentUser as [user|]; [|reflexivity].
  destruct (SecureStorage.falsy (masterPassword state)); [reflexivity|].
  destruct has_crypto_subtle; reflexivity.
Qed.

Lemma handleSave_outcomes_witness :
  let s := AddEntryForm.mk " example.org " "bob " "s3cret" false None in
  let notice :=
    match Some Model.alice with
    | None => mkNotice "Error" "Please log in again to save entries" Stay
    | Some _ =>
        if SecureStorage.falsy (masterPassword initialState)
        then mkNotice "Error" "Your vault is locked. Please unlock it first"
                      Stay
        else if @has_crypto_subtle Model.platform
        then mkNotice "Success" "Password entry saved successfully!" GoBack
        else mkNotice "Error"
               ("Save failed: " +:+ "Failed to store encrypted vault: "
                +:+ "Web Crypto API not available on this platform")
               Stay
    end in
  AddEntryForm.validateInputs s = None ∧
  ∃ w',
    AddEntryForm.handleSave
      (@VaultProvider.addEntry Model.platform (Some Model.alice) initialState)
      s Model.world
    = (Ok (AddEntryForm.mk (AddEntryForm.site s) (AddEntryForm.username s)
                           (AddEntryForm.password s) false (Some notice)),
       w') ∧
    entries (reducerState w')
    = entries (reducerState Model.world)
      ++ [@addedEntry Model.platform (trim (AddEntryForm.site s))
            (trim (AddEntryForm.username s)) (AddEntryForm.password s)
            Model.world].
Proof.
  cbv zeta. split; [reflexivity|].
  apply (handleSave_outcomes Model.platform (Some Model.alice) initialState
           (AddEntryForm.mk " example.org " "bob " "s3cret" false None)
           Model.world).
  reflexivity.
Defined.

(** X28. With a length between 4 and 128 and at least one class, the generator
    screen shows a password of exactly the requested length, drawn from the
    selected classes, with its entropy, and no alert; the add-entry screen
    fills in the same password for lengths from 8 on, with an alert that
    tells the entropy to one decimal place, and refuses shorter ones. *)
Theorem screens_generate_the_requested_length
  (P : Platform) (text : string) (n : Z) (c : Classes) (w : World) :
  parseInt text = Some n ->
  4 <= n <= 128 ->
  noneSelected c = false ->
  let generated :=
    CryptoUtils.pickChars (selectedCharset c)
                          (randomBytes w (randomUsed w) (Z.to_nat n)) in
  let reported :=
    CryptoUtils.LengthTimesLog2 n
      (Z.of_nat (String.length (selectedCharset c))
       + (if includeSymbols c then 1 else 0)) in
  let w' := setRandomUsed (randomUsed w + Z.to_nat n) w in
  Z.of_nat (String.length generated) = n ∧
  (∀ ch, In ch (list_ascii_of_string generated) ->
         In ch (list_ascii_of_string (selectedCharset c))) ∧
  (∀ old entropy alert,
     PasswordGeneratorScreen.generatePassword
       (PasswordGeneratorScreen.mk text c old entropy alert) w
     = (Ok (PasswordGeneratorScreen.mk text c generated (Some reported) alert),
        w')) ∧
  (∀ old alert entropy,
     AddEntryScreen.generatePassword
       (AddEntryScreen.mk old text c alert entropy) w
     = if n <? 8
       then (Ok (AddEntryScreen.mk old text c
                   (Some (Alert_alert "Error"
                      "Password length must be between 8 and 128 characters"))
                   entropy),
             w)
       else (Ok (AddEntryScreen.mk generated text c
                   (Some (Alert_alert "Password Generated"
                            ("Generated secure password with "
                             +:+ CryptoUtils.toFixed1 reported
                             +:+ " bits of entropy")))
                   (Some reported)),
             w')).
Proof.
  intros Hparse Hn Hsel. cbv zeta.
  pose proof (selectedCharset_nonempty c Hsel) as Hpos.
  split; [|split; [|split]].
  - rewrite pickChars_length, randomBytes_length by done. lia.
  - intros ch. by apply pickChars_in.
  - intros old entropy alert.
    unfold PasswordGeneratorScreen.generatePassword,
      PasswordGeneratorScreen.validateSettings.
    cbn [PasswordGeneratorScreen.length PasswordGeneratorScreen.classes
         PasswordGeneratorScreen.alert].
    rewrite Hparse, Hsel. unfold lengthRejected.
    replace (n <? 4) with false by lia. replace (128 <? n) with false by lia.
    cbn [orb default from_option]. unfold Datatypes.id.
    unfold tryCatch, bind.
    rewrite generateSecurePassword_selected by (try done; lia).
    reflexivity.
  - intros old alert entropy.
    unfold AddEntryScreen.generatePassword, tryCatch.
    cbn [AddEntryScreen.generatorLength AddEntryScreen.classes
         AddEntryScreen.password AddEntryScreen.reported].
    rewrite Hparse. unfold lengthRejected.
    replace (128 <? n) with false by lia. rewrite Bool.orb_false_r.
    destruct (n <? 8) eqn:H8; [reflexivity|]. rewrite Hsel.
    cbn [default from_option]. unfold Datatypes.id. unfold bind.
    rewrite generateSecurePassword_selected by (try done; lia).
    reflexivity.
Qed.

(** On the model platform, for the length [12] and the symbols, the digits
    and the lowercase letters: 62 characters, counted as 63, hence
    [12 * log2 63 = 71.73] bits. *)
Lemma screens_generate_the_requested_length_witness :
  let P := Model.platform in
  let c := mkClasses true true false true in
  let w := Model.world in
  let generated :=
    CryptoUtils.pickChars (selectedCharset c)
                          (randomBytes w (randomUsed w) (Z.to_nat 12)) in
  let reported := CryptoUtils.LengthTimesLog2 12 63 in
  let w' := setRandomUsed (randomUsed w + Z.to_nat 12) w in
  @parseInt P "12" = Some 12 ∧
  4 <= 12 <= 128 ∧
  noneSelected c = false ∧
  (Z.of_nat (String.length generated) = 12 ∧
   (∀ ch, In ch (list_ascii_of_string generated) ->
          In ch (list_ascii_of_string (selectedCharset c))) ∧
   (∀ old entropy alert,
      @PasswordGeneratorScreen.generatePassword P
        (PasswordGeneratorScreen.mk "12" c old entropy alert) w
      = (Ok (PasswordGeneratorScreen.mk "12" c generated (Some reported)
                                        alert),
         w')) ∧
   (∀ old alert entropy,
      @AddEntryScreen.generatePassword P
        (AddEntryScreen.mk old "12" c alert entropy) w
      = (Ok (AddEntryScreen.mk generated "12" c
               (Some (Alert_alert "Password Generated"
                  "Generated secure password with 71.7 bits of entropy"))
               (Some reported)),
         w'))).
Proof.
  cbv zeta. split; [reflexivity|]. split; [lia|]. split; [reflexivity|].
  assert (@CryptoUtils.toFixed1 Model.platform
            (CryptoUtils.LengthTimesLog2 12 63) = "71.7") as Htext
    by (vm_compute; reflexivity).
  change "Generated secure password with 71.7 bits of entropy"
    with ("Generated secure password with " +:+ "71.7" +:+ " bits of entropy").
  rewrite <- Htext.
  apply (screens_generate_the_requested_length Model.platform "12" 12
           (mkClasses true true false true) Model.world);
    [reflexivity | lia | reflexivity].
Defined.

Section DebugFacts.

Lemma append_assoc (a b c : string) : (a +:+ b) +:+ c = a +:+ (b +:+ c).
Proof.
  induction a as [|x a IH]; [reflexivity|].
  change (String x ((a +:+ b) +:+ c) = String x (a +:+ (b +:+ c))).
  by rewrite IH.
Qed.

End DebugFacts.

(** X29. The storage test of the debug screen passes and replaces the vault of
    the logged-in user: whatever was stored, the vault then holds the one test
    entry, sealed under the master password of the render, or under
    [testmaster] when the vault is locked. *)
Theorem runStorageTest_replaces_the_vault
  (P : Platform) (laws : PlatformLaws P)
  (JSON_stringify_entries : list PasswordEntry.t -> string)
  (user : User.t) (vaultState : VaultState) (debugInfo : string) (w : World) :
  let testEntry :=
    PasswordEntry.mk "test1" "test.com" "testuser" "testpass123"
      (toISOString (clock w (clockReads w)))
      (toISOString (clock w (S (clockReads w)))) in
  let password := DebugScreen.testMasterPassword vaultState in
  ∃ w',
    DebugScreen.runStorageTest JSON_stringify_entries (Some user) vaultState
      debugInfo w
    = (Ok (debugInfo
           +:+ lines ["Starting storage test..."; "Storage write successful";
                      "Storage read successful. Entries: 1";
                      "Storage test PASSED"]),
       w') ∧
    SecureStorage.getEncryptedVault (User.username user) password w'
    = (Ok [testEntry], w') ∧
    reducerState w' = reducerState w.
Proof.
  cbv zeta. unfold DebugScreen.runStorageTest, tryCatch.
  unfold bind at 1, newDateISO at 1. unfold bind at 1, newDateISO at 1.
  unfold bind at 1.
  rewrite storeEncryptedVault_ok by apply crypto_subtle_available.
  unfold bind at 1. rewrite getEncryptedVault_storedWorld.
  unfold ret. cbn [PasswordEntry.password].
  eexists. split.
  { change (String.eqb "testpass123" "testpass123") with true. cbv iota.
    f_equal. f_equal. rewrite !append_assoc. reflexivity. }
  split; [apply getEncryptedVault_storedWorld | reflexivity].
Qed.

Lemma runStorageTest_replaces_the_vault_witness :
  let w := worldWithVault in
  let stringify := fun _ : list PasswordEntry.t => EmptyString in
  let testEntry :=
    PasswordEntry.mk "test1" "test.com" "testuser" "testpass123"
      (@toISOString Model.platform (clock w (clockReads w)))
      (@toISOString Model.platform (clock w (S (clockReads w)))) in
  let password := DebugScreen.testMasterPassword initialState in
  PlatformLaws Model.platform ∧
  ∃ w',
    @DebugScreen.runStorageTest Model.platform stringify (Some Model.alice)
      initialState EmptyString w
    = (Ok (EmptyString
           +:+ lines ["Starting storage test..."; "Storage write successful";
                      "Storage read successful. Entries: 1";
                      "Storage test PASSED"]),
       w') ∧
    @SecureStorage.getEncryptedVault Model.platform
      (User.username Model.alice) password w'
    = (Ok [testEntry], w') ∧
    reducerState w' = reducerState w.
Proof.
  cbv zeta. split; [exact model_laws|].
  apply (runStorageTest_replaces_the_vault Model.platform model_laws
           (fun _ => EmptyString) Model.alice initialState EmptyString
           worldWithVault).
Defined.

(** X30. The full test of the debug screen looks for the new entry in the
    vault state of its own render: when that state holds no entry for
    [debug.test.com], the test reports a failure although [addEntry] has
    succeeded and the entry is in the state of the reducer. *)
Theorem runFullTest_reports_failure
  (P : Platform) (laws : PlatformLaws P) (user : User.t)
  (vaultState : VaultState) (m debugInfo : string) (w : World) :
  masterPassword vaultState = Some m ->
  m ≠ EmptyString ->
  List.find (fun e => String.eqb (PasswordEntry.site e) "debug.test.com")
            (entries vaultState) = None ->
  ∃ w',
    DebugScreen.runFullTest vaultState
      (VaultProvider.addEntry (Some user) vaultState) debugInfo w
    = (Ok (lines ["Starting full add entry test..."; "Add entry completed";
                  "Full test FAILED - entry not found in state"]),
       w') ∧
    In (addedEntry "debug.test.com" "debuguser" "debugpass123" w)
       (entries (reducerState w')).
Proof.
  intros Hm Hne Hfind. unfold DebugScreen.runFullTest, tryCatch, bind.
  rewrite (addEntry_unlocked user vaultState m) by done.
  rewrite Hfind. eexists. split; [reflexivity|].
  cbn [reducerState storedWorld setSecureStore setRandomUsed setClockReads
       setReducerState entries].
  apply in_or_app. right. by left.
Qed.

Lemma runFullTest_reports_failure_witness :
  PlatformLaws Model.platform ∧
  masterPassword unlockedState = Some "correct horse" ∧
  "correct horse" ≠ EmptyString ∧
  List.find (fun e => String.eqb (PasswordEntry.site e) "debug.test.com")
            (entries unlockedState) = None ∧
  ∃ w',
    @DebugScreen.runFullTest unlockedState
      (@VaultProvider.addEntry Model.platform (Some Model.alice)
         unlockedState) EmptyString unlockedWorld
    = (Ok (lines ["Starting full add entry test..."; "Add entry completed";
                  "Full test FAILED - entry not found in state"]),
       w') ∧
    In (@addedEntry Model.platform "debug.test.com" "debuguser"
          "debugpass123" unlockedWorld)
       (entries (reducerState w')).
Proof.
  split; [exact model_laws|]. split; [reflexivity|]. split; [discriminate|].
  split; [reflexivity|].
  apply (runFullTest_reports_failure Model.platform model_laws Model.alice
           unlockedState "correct horse" EmptyString unlockedWorld);
    [reflexivity | discriminate | reflexivity].
Defined.

